(** * Kafka to ClickHouse bridge: a shallow embedding of
      [scripts/kafka_to_clickhouse_bridge.py] and the properties of its
      record filter, batch accumulator and stream driver. *)

From Stdlib Require Import ZArith NArith List String Ascii Bool Lia.
From Stdlib Require Import Strings.Byte.
Import ListNotations.

Local Open Scope string_scope.
Local Open Scope list_scope.
Local Open Scope Z_scope.

Set Warnings "-register-all".

(** ** Python values used by the bridge *)

(** A [bytes] object, as returned by [msg.value()]. *)
Definition bytes := list byte.

(** A Python [str]: a sequence of Unicode code points. *)
Definition str := list N.

Definition str_eqb (a b : str) : bool :=
  if list_eq_dec N.eq_dec a b then true else false.

(** Literals in this file are written as ASCII strings in which an
    apostrophe stands for the double quote of the JSON text. *)
Definition lit_char (a : ascii) : N :=
  let n := N_of_ascii a in if N.eqb n 39 then 34%N else n.

Fixpoint lit (s : string) : str :=
  match s with
  | EmptyString => []
  | String a r => lit_char a :: lit r
  end.
Arguments lit : simpl never.

Definition blit_char (a : ascii) : byte :=
  match Byte.of_N (lit_char a) with Some b => b | None => x00 end.

Fixpoint blit (s : string) : bytes :=
  match s with
  | EmptyString => []
  | String a r => blit_char a :: blit r
  end.

(** *** [bytes.decode('utf-8')]

    The strict decoder: continuation bytes must be in 0x80..0xBF, and
    over-long forms, surrogates and code points above 0x10FFFF raise
    [UnicodeDecodeError] (modelled by [None]). *)

Definition is_cont (b : N) : bool := (N.leb 128 b && N.leb b 191)%bool.

Definition cont_bits (b : N) : N := N.land b 63.

Definition is_surrogate (c : N) : bool := (N.leb 55296 c && N.leb c 57343)%bool.

Fixpoint utf8_decode (bs : bytes) : option str :=
  match bs with
  | [] => Some []
  | b0 :: r0 =>
    let n0 := Byte.to_N b0 in
    if N.ltb n0 128 then option_map (cons n0) (utf8_decode r0)
    else if N.ltb n0 194 then None
    else if N.ltb n0 224 then
      match r0 with
      | b1 :: r1 =>
        let n1 := Byte.to_N b1 in
        if is_cont n1
        then option_map (cons (N.lor (N.shiftl (N.land n0 31) 6) (cont_bits n1)))
                        (utf8_decode r1)
        else None
      | _ => None
      end
    else if N.ltb n0 240 then
      match r0 with
      | b1 :: b2 :: r2 =>
        let n1 := Byte.to_N b1 in
        let n2 := Byte.to_N b2 in
        let c := N.lor (N.shiftl (N.land n0 15) 12)
                       (N.lor (N.shiftl (cont_bits n1) 6) (cont_bits n2)) in
        if (is_cont n1 && is_cont n2 && N.leb 2048 c && negb (is_surrogate c))%bool
        then option_map (cons c) (utf8_decode r2)
        else None
      | _ => None
      end
    else if N.ltb n0 245 then
      match r0 with
      | b1 :: b2 :: b3 :: r3 =>
        let n1 := Byte.to_N b1 in
        let n2 := Byte.to_N b2 in
        let n3 := Byte.to_N b3 in
        let c := N.lor (N.shiftl (N.land n0 7) 18)
                       (N.lor (N.shiftl (cont_bits n1) 12)
                              (N.lor (N.shiftl (cont_bits n2) 6) (cont_bits n3))) in
        if (is_cont n1 && is_cont n2 && is_cont n3
            && N.leb 65536 c && N.leb c 1114111)%bool
        then option_map (cons c) (utf8_decode r3)
        else None
      | _ => None
      end
    else None
  end.

(** *** [str.strip()]

    With no argument, [strip] removes the characters for which
    [str.isspace] holds from both ends. *)

Definition py_isspace (c : N) : bool :=
  ((N.leb 9 c && N.leb c 13) || (N.leb 28 c && N.leb c 32)
   || N.eqb c 133 || N.eqb c 160 || N.eqb c 5760
   || (N.leb 8192 c && N.leb c 8202)
   || N.eqb c 8232 || N.eqb c 8233 || N.eqb c 8239 || N.eqb c 8287
   || N.eqb c 12288)%bool.

Fixpoint lstrip (s : str) : str :=
  match s with
  | c :: r => if py_isspace c then lstrip r else s
  | [] => []
  end.

Definition strip (s : str) : str := rev (lstrip (rev (lstrip s))).

(** Truthiness of a [str]: the empty string is false. *)
Definition str_truthy (s : str) : bool :=
  match s with [] => false | _ => true end.

(** Slice [s[:n]]. *)
Definition prefix (n : nat) (s : str) : str := firstn n s.

(** ** JSON values, as [json.loads] builds them *)

(** Integers are Python [int]s.  A number written with a fraction or an
    exponent is a Python [float]; [JFloat m e] records the literal
    [m * 10^e], which [float()] rounds to the nearest double.  An object
    keeps its members in source order; a later duplicate key overrides
    an earlier one, as in [dict]. *)
Inductive json : Type :=
| JNull
| JBool (b : bool)
| JInt (n : Z)
| JFloat (m e : Z)
| JNaN
| JInfinity (negative : bool)
| JStr (s : str)
| JArr (items : list json)
| JObj (members : list (str * json)).

(** [d.get(k)] on the [dict] built from the members: the value of the
    last member named [k], [None] when there is none. *)
Fixpoint obj_get (k : str) (members : list (str * json)) : option json :=
  match members with
  | [] => None
  | (k', v) :: r =>
    match obj_get k r with
    | Some v' => Some v'
    | None => if str_eqb k' k then Some v else None
    end
  end.

(** The double nearest to [m * 10^e] is 1.0 exactly when the literal lies
    in [1 - 2^-54, 1 + 2^-53] (ties go to the even significand of 1.0). *)
Definition float_is_one (m e : Z) : bool :=
  let num := if 0 <=? e then m * 10 ^ e else m in
  let den := if 0 <=? e then 1 else 10 ^ (- e) in
  ((2 ^ 54 - 1) * den <=? num * 2 ^ 54) && (num * 2 ^ 54 <=? (2 ^ 54 + 2) * den).

(** [v == True] for the value [v] of [json_data.get('__deleted')]
    ([None] when the key is absent): [True], the [int] 1 and the [float]
    1.0 compare equal to [True]; nothing else does. *)
Definition eq_True (v : option json) : bool :=
  match v with
  | Some (JBool b) => b
  | Some (JInt n) => n =? 1
  | Some (JFloat m e) => float_is_one m e
  | _ => false
  end.

(** What a call of [json.loads] does: return a value, raise
    [json.JSONDecodeError], or raise some other exception
    ([RecursionError] on deep nesting, [ValueError] on an integer literal
    beyond the digit limit). *)
Inductive loads_result : Type :=
| Loaded (v : json)
| JSONDecodeError
| LoadsRaises.

(** ** A reference [json.loads]

    The grammar the standard decoder accepts, for inputs within the
    interpreter's recursion and integer-size limits. *)
Module JsonRef.

Local Open Scope N_scope.

Definition is_ws (c : N) : bool :=
  (N.eqb c 32 || N.eqb c 9 || N.eqb c 10 || N.eqb c 13)%bool.

Fixpoint skip_ws (s : str) : str :=
  match s with
  | c :: r => if is_ws c then skip_ws r else s
  | [] => []
  end.

Definition is_digit (c : N) : bool := (N.leb 48 c && N.leb c 57)%bool.

Definition hex_val (c : N) : option N :=
  if is_digit c then Some (c - 48)
  else if (N.leb 65 c && N.leb c 70)%bool then Some (c - 55)
  else if (N.leb 97 c && N.leb c 102)%bool then Some (c - 87)
  else None.

Definition hex4 (a b c d : N) : option N :=
  match hex_val a, hex_val b, hex_val c, hex_val d with
  | Some x, Some y, Some z, Some w => Some (x * 4096 + y * 256 + z * 16 + w)
  | _, _, _, _ => None
  end.

Definition simple_escape (c : N) : option N :=
  if N.eqb c 34 then Some 34 else if N.eqb c 92 then Some 92
  else if N.eqb c 47 then Some 47 else if N.eqb c 98 then Some 8
  else if N.eqb c 102 then Some 12 else if N.eqb c 110 then Some 10
  else if N.eqb c 114 then Some 13 else if N.eqb c 116 then Some 9
  else None.

Definition is_high (u : N) : bool := (N.leb 55296 u && N.leb u 56319)%bool.
Definition is_low (u : N) : bool := (N.leb 56320 u && N.leb u 57343)%bool.

(** The body of a string literal, after its opening quote. *)
Fixpoint scan_string (s : str) (acc : str) : option (str * str) :=
  match s with
  | [] => None
  | c :: r =>
    if N.eqb c 34 then Some (rev acc, r)
    else if N.eqb c 92 then
      match r with
      | [] => None
      | 117 :: a :: b :: c' :: d :: r1 =>
        match hex4 a b c' d with
        | None => None
        | Some u =>
          if is_high u then
            match r1 with
            | 92 :: 117 :: a2 :: b2 :: c2 :: d2 :: r2 =>
              match hex4 a2 b2 c2 d2 with
              | None => None
              | Some l =>
                if is_low l
                then scan_string r2
                       (65536 + (u - 55296) * 1024 + (l - 56320) :: acc)
                else scan_string r1 (u :: acc)
              end
            | _ => scan_string r1 (u :: acc)
            end
          else scan_string r1 (u :: acc)
        end
      | e :: r1 =>
        match simple_escape e with
        | Some ch => scan_string r1 (ch :: acc)
        | None => None
        end
      end
    else if N.ltb c 32 then None
    else scan_string r (c :: acc)
  end.

Fixpoint take_digits (s : str) : list N * str :=
  match s with
  | c :: r =>
    if is_digit c
    then let '(ds, r') := take_digits r in (c - 48 :: ds, r')
    else ([], s)
  | [] => ([], [])
  end.

Definition digits_val (ds : list N) : Z :=
  fold_left (fun a d => (a * 10 + Z.of_N d)%Z) ds 0%Z.

(** The integer part: [0] or a non-zero digit followed by digits. *)
Definition int_part (s : str) : option (list N * str) :=
  match s with
  | 48 :: r => Some ([0], r)
  | c :: _ => if is_digit c then Some (take_digits s) else None
  | [] => None
  end.

Definition frac_part (s : str) : list N * str :=
  match s with
  | 46 :: r =>
    match take_digits r with
    | ([], _) => ([], s)
    | (ds, r') => (ds, r')
    end
  | _ => ([], s)
  end.

(** The exponent: [None] when the literal has none. *)
Definition exp_part (s : str) : option Z * str :=
  match s with
  | c :: r =>
    if (N.eqb c 101 || N.eqb c 69)%bool then
      let '(neg, r1) :=
        match r with
        | 45 :: r' => (true, r')
        | 43 :: r' => (false, r')
        | _ => (false, r)
        end in
      match take_digits r1 with
      | ([], _) => (None, s)
      | (ds, r2) => (Some (if neg then (- digits_val ds)%Z else digits_val ds), r2)
      end
    else (None, s)
  | [] => (None, s)
  end.

Definition scan_number (s : str) : option (json * str) :=
  let '(neg, s1) := match s with 45 :: r => (true, r) | _ => (false, s) end in
  match int_part s1 with
  | None => None
  | Some (ip, s2) =>
    let '(fp, s3) := frac_part s2 in
    let '(ex, s4) := exp_part s3 in
    let sgn (z : Z) := if neg then (- z)%Z else z in
    match fp, ex with
    | [], None => Some (JInt (sgn (digits_val ip)), s4)
    | _, _ =>
      let e := match ex with Some e => e | None => 0%Z end in
      Some (JFloat (sgn (digits_val (ip ++ fp)))
                   (e - Z.of_nat (List.length fp))%Z, s4)
    end
  end.

Fixpoint strip_prefix (p s : str) : option str :=
  match p, s with
  | [], _ => Some s
  | a :: p', b :: s' => if N.eqb a b then strip_prefix p' s' else None
  | _ :: _, [] => None
  end.

Definition scan_constant (s : str) : option (json * str) :=
  match strip_prefix (lit "null") s with Some r => Some (JNull, r) | None =>
  match strip_prefix (lit "true") s with Some r => Some (JBool true, r) | None =>
  match strip_prefix (lit "false") s with Some r => Some (JBool false, r) | None =>
  match strip_prefix (lit "NaN") s with Some r => Some (JNaN, r) | None =>
  match strip_prefix (lit "Infinity") s with Some r => Some (JInfinity false, r) | None =>
  match strip_prefix (lit "-Infinity") s with Some r => Some (JInfinity true, r) | None =>
  None end end end end end end.

Fixpoint scan_value (fuel : nat) (s : str) : option (json * str) :=
  match fuel with
  | O => None
  | S f =>
    match s with
    | [] => None
    | 34 :: r =>
      match scan_string r [] with
      | Some (t, r') => Some (JStr t, r')
      | None => None
      end
    | 123 :: r =>
      match skip_ws r with
      | 125 :: r' => Some (JObj [], r')
      | r' => scan_members f r' []
      end
    | 91 :: r =>
      match skip_ws r with
      | 93 :: r' => Some (JArr [], r')
      | r' => scan_items f r' []
      end
    | _ =>
      match scan_number s with
      | Some res => Some res
      | None => scan_constant s
      end
    end
  end

with scan_members (fuel : nat) (s : str) (acc : list (str * json))
  : option (json * str) :=
  match fuel with
  | O => None
  | S f =>
    match s with
    | 34 :: r =>
      match scan_string r [] with
      | None => None
      | Some (k, r1) =>
        match skip_ws r1 with
        | 58 :: r2 =>
          match scan_value f (skip_ws r2) with
          | None => None
          | Some (v, r3) =>
            match skip_ws r3 with
            | 44 :: r4 => scan_members f (skip_ws r4) ((k, v) :: acc)
            | 125 :: r4 => Some (JObj (rev ((k, v) :: acc)), r4)
            | _ => None
            end
          end
        | _ => None
        end
      end
    | _ => None
    end
  end

with scan_items (fuel : nat) (s : str) (acc : list json)
  : option (json * str) :=
  match fuel with
  | O => None
  | S f =>
    match scan_value f s with
    | None => None
    | Some (v, r1) =>
      match skip_ws r1 with
      | 44 :: r2 => scan_items f (skip_ws r2) (v :: acc)
      | 93 :: r2 => Some (JArr (rev (v :: acc)), r2)
      | _ => None
      end
    end
  end.

(** [json.loads(s)] for a [str]: a leading byte-order mark is refused,
    white space around the one value is skipped, anything after it is
    "extra data". *)
Definition loads (s : str) : loads_result :=
  match s with
  | 65279 :: _ => JSONDecodeError
  | _ =>
    match scan_value (2 * List.length s + 2) (skip_ws s) with
    | Some (v, r) =>
      match skip_ws r with
      | [] => Loaded v
      | _ => JSONDecodeError
      end
    | None => JSONDecodeError
    end
  end.

End JsonRef.

(** ** Dictionaries

    A Python [dict] with [str] keys: insertion-ordered, one entry per key.
    Assigning to an existing key keeps its position. *)
Definition dict (V : Type) : Type := list (string * V).

Fixpoint dict_get {V : Type} (k : string) (d : dict V) : option V :=
  match d with
  | [] => None
  | (k', v) :: r => if String.eqb k' k then Some v else dict_get k r
  end.

Fixpoint dict_set {V : Type} (k : string) (v : V) (d : dict V) : dict V :=
  match d with
  | [] => [(k, v)]
  | (k', v') :: r =>
    if String.eqb k' k then (k', v) :: r else (k', v') :: dict_set k v r
  end.

Definition dict_keys {V : Type} (d : dict V) : list string := map fst d.
Definition dict_values {V : Type} (d : dict V) : list V := map snd d.

(** ** Data model *)

(** A message handed out by [consumer.poll]: [msg.topic()],
    [msg.partition()], [msg.offset()], [msg.value()] ([None] or bytes)
    and the code of [msg.error()] ([None] when there is no error). *)
Record message : Type := {
  msg_topic : string;
  msg_partition : Z;
  msg_offset : Z;
  msg_value : option bytes;
  msg_error : option Z
}.

(** [KafkaError._PARTITION_EOF] *)
Definition PARTITION_EOF : Z := -191.

(** One [data_row], in the column order of [_insert_batch]. *)
Record row : Type := {
  raw_data : str;
  kafka_timestamp : Z;
  kafka_offset : Z;
  kafka_partition : Z
}.

(** A call of [clickhouse_client.insert(table, data, ...)] and whether it
    returned ([true]) or raised. *)
Record insert_call : Type := {
  ic_table : string;
  ic_data : list row;
  ic_ok : bool
}.

(** Exceptions a message can raise inside the per-message [try]. *)
Inductive exn : Type :=
| UnicodeDecodeError
| AttributeError
| KeyError
| OtherException.

(** The records the logger emits at level INFO and above. *)
Inductive log_entry : Type :=
| InfoTimeout
| InfoPartitionEOF (topic : string)
| ErrorKafka (code : Z)
| WarnUnknownTopic (topic : string)
| WarnInvalidJSON (head : str)
| ErrorProcessing (e : exn)
| InfoInserted (n : nat) (table : string)
| ErrorInserting (table : string)
| InfoProgress (count : Z)
| InfoMaxMessages
| InfoProcessed (count : Z)
| ErrorConsume.

(** The local variables of [consume_and_load], with the calls made on the
    sink so far and the log written so far. *)
Record state : Type := {
  message_count : Z;
  batch_data : dict (list row);
  inserts : list insert_call;
  log : list log_entry
}.

Definition set_message_count (c : Z) (st : state) : state :=
  {| message_count := c; batch_data := batch_data st;
     inserts := inserts st; log := log st |}.

Definition set_batch_data (b : dict (list row)) (st : state) : state :=
  {| message_count := message_count st; batch_data := b;
     inserts := inserts st; log := log st |}.

Definition add_insert (c : insert_call) (st : state) : state :=
  {| message_count := message_count st; batch_data := batch_data st;
     inserts := inserts st ++ [c]; log := log st |}.

Definition logger (e : log_entry) (st : state) : state :=
  {| message_count := message_count st; batch_data := batch_data st;
     inserts := inserts st; log := log st ++ [e] |}.

(** What one poll of the broker brings: nothing within the timeout, a
    message, an exception out of [poll], or the operator's interrupt
    ([KeyboardInterrupt]).  [now] is the clock ([time.time()], in
    seconds) read during the iteration. *)
Inductive poll_outcome : Type :=
| PollNone
| PollMsg (m : message)
| PollRaises
| PollInterrupt.

Record tick : Type := {
  polled : poll_outcome;
  now : Z
}.

(** How one iteration of [while True] ends. *)
Inductive control : Type :=
| Continue
| Break
| Raise
| Interrupt.

(** How a call of [consume_and_load] stands after the polls it was given:
    still in the loop, returned after draining, returned from the outer
    [except Exception] handler, or left by [KeyboardInterrupt]. *)
Inductive ending : Type :=
| Polling
| Drained
| Failed
| Interrupted.

(** The result of a [try] body. *)
Inductive outcome (A : Type) : Type :=
| Ok (a : A)
| Raised (e : exn).
Arguments Ok {A} a.
Arguments Raised {A} e.

(** Truthiness of an optional number ([None] and [0] are false). *)
Definition truthy (o : option Z) : bool :=
  match o with
  | Some n => negb (n =? 0)
  | None => false
  end.

Definition or_zero (o : option Z) : Z :=
  match o with Some n => n | None => 0 end.

Definition string_truthy (s : string) : bool :=
  match s with EmptyString => false | _ => true end.

Definition bytes_truthy (b : bytes) : bool :=
  match b with [] => false | _ => true end.

(** [self.topic_table_mapping] *)
Definition topic_table_mapping : dict string :=
  [ ("mongo.ecom.ecom.customers", "mongo_ecom_customers");
    ("mongo.ecom.ecom.products", "mongo_ecom_products");
    ("mongo.ecom.ecom.orders", "mongo_ecom_orders") ].

(** [batch_size = 100] *)
Definition batch_size : nat := 100.

(** [{table: [] for table in self.topic_table_mapping.values()}] *)
Definition empty_batches : dict (list row) :=
  fold_left (fun d table => dict_set table [] d)
            (dict_values topic_table_mapping) [].

Definition initial_state : state :=
  {| message_count := 0; batch_data := empty_batches;
     inserts := []; log := [] |}.

(** The rows the sink has stored: the data of the calls that returned. *)
Definition stored (calls : list insert_call) : list row :=
  flat_map (fun c => if ic_ok c then ic_data c else []) calls.

(** The rows waiting in the buffers. *)
Definition buffered (b : dict (list row)) : list row :=
  flat_map snd b.

(** * The seeding script [data-generation/seed_data.py] *)

Module Seed.

(** The generators the script draws from: [draw n] is the [n]-th raw
    draw of the module-level generator of [random]; [fake_text n] and
    [fake_date n] are the [n]-th value Faker hands out, read as a text
    (for [fake.word().title()], names, e-mail addresses) or as a date. *)
Record chance : Type := {
  draw : nat -> nat;
  fake_text : nat -> string;
  fake_date : nat -> Z
}.

(** The draws made so far from [random] and from Faker. *)
Record used : Type := {
  drawn : nat;
  faked : nat
}.

Definition draw_next (u : used) : used :=
  {| drawn := S (drawn u); faked := faked u |}.

Definition fake_next (u : used) : used :=
  {| drawn := drawn u; faked := S (faked u) |}.

(** [random.choice(seq)]: [seq[randbelow(len(seq))]]; an empty sequence
    raises [IndexError] ([None]). *)
Definition choice {A : Type} (c : chance) (seq : list A) (u : used)
  : option (A * used) :=
  match seq with
  | [] => None
  | _ :: _ =>
    match nth_error seq (draw c (drawn u) mod List.length seq)%nat with
    | Some a => Some (a, draw_next u)
    | None => None
    end
  end.

(** [random.randint(a, b)], for [a <= b]: [a + randbelow(b - a + 1)]. *)
Definition randint (c : chance) (a b : Z) (u : used) : Z * used :=
  (a + Z.of_nat (draw c (drawn u) mod Z.to_nat (b - a + 1))%nat, draw_next u).

(** [round(random.uniform(10.0, 500.0), 2)]: a function of one raw draw,
    kept as that draw. *)
Definition uniform_price (c : chance) (u : used) : nat * used :=
  (draw c (drawn u), draw_next u).

Definition fake_string (c : chance) (u : used) : string * used :=
  (fake_text c (faked u), fake_next u).

Definition fake_datetime (c : chance) (u : used) : Z * used :=
  (fake_date c (faked u), fake_next u).

(** ** Documents *)

Record customer : Type := {
  first_name : string;
  last_name : string;
  email : string;
  registration_date : Z
}.

Record product : Type := {
  name : string;
  price : nat;
  stock_quantity : Z
}.

Record line_item : Type := {
  product_id : nat;
  quantity : Z;
  item_price : nat
}.

Record order : Type := {
  customer_id : nat;
  order_date : Z;
  status : string;
  line_items : list line_item
}.

(** ** [generate_customers]: the documents *)

Fixpoint customers (count : nat) (c : chance) (u : used)
  : list customer * used :=
  match count with
  | O => ([], u)
  | S k =>
    let '(first, u1) := fake_string c u in
    let '(last, u2) := fake_string c u1 in
    let '(mail, u3) := fake_string c u2 in
    let '(date, u4) := fake_datetime c u3 in
    let '(rest, u5) := customers k c u4 in
    ({| first_name := first; last_name := last; email := mail;
        registration_date := date |} :: rest, u5)
  end.

(** ** [generate_products]: the documents *)

Definition categories : list string :=
  [ "Electronics"; "Clothing"; "Books"; "Home & Garden"; "Sports";
    "Beauty" ].

(** [category.endswith('s')] *)
Fixpoint endswith_s (s : string) : bool :=
  match s with
  | EmptyString => false
  | String a EmptyString => Ascii.eqb a "s"%char
  | String _ r => endswith_s r
  end.

(** [category[:-1]] *)
Fixpoint drop_last (s : string) : string :=
  match s with
  | EmptyString => EmptyString
  | String _ EmptyString => EmptyString
  | String a r => String a (drop_last r)
  end.

(** The name of a product: the titled word, a space, and the category
    without its final [s] when it has one. *)
Definition product_name (word category : string) : string :=
  if endswith_s category
  then word ++ " " ++ drop_last category
  else word ++ " " ++ category.

Fixpoint products (count : nat) (c : chance) (u : used)
  : option (list product * used) :=
  match count with
  | O => Some ([], u)
  | S k =>
    match choice c categories u with
    | None => None
    | Some (category, u1) =>
      let '(word, u2) := fake_string c u1 in
      let '(p, u3) := uniform_price c u2 in
      let '(stock, u4) := randint c 0 100 u3 in
      match products k c u4 with
      | None => None
      | Some (rest, u5) =>
        Some ({| name := product_name word category; price := p;
                 stock_quantity := stock |} :: rest, u5)
      end
    end
  end.

(** ** [generate_orders]: the documents *)

Definition statuses : list string := [ "pending"; "shipped"; "delivered" ].

Fixpoint items (n : nat) (product_ids : list nat) (c : chance) (u : used)
  : option (list line_item * used) :=
  match n with
  | O => Some ([], u)
  | S k =>
    match choice c product_ids u with
    | None => None
    | Some (pid, u1) =>
      let '(q, u2) := randint c 1 5 u1 in
      let '(p, u3) := uniform_price c u2 in
      match items k product_ids c u3 with
      | None => None
      | Some (rest, u4) =>
        Some ({| product_id := pid; quantity := q; item_price := p |} :: rest,
              u4)
      end
    end
  end.

Fixpoint orders (count : nat) (customer_ids product_ids : list nat)
         (c : chance) (u : used) : option (list order * used) :=
  match count with
  | O => Some ([], u)
  | S k =>
    match choice c customer_ids u with
    | None => None
    | Some (cid, u1) =>
      let '(date, u2) := fake_datetime c u1 in
      match choice c statuses u2 with
      | None => None
      | Some (st, u3) =>
        let '(num_items, u4) := randint c 1 5 u3 in
        match items (Z.to_nat num_items) product_ids c u4 with
        | None => None
        | Some (its, u5) =>
          match orders k customer_ids product_ids c u5 with
          | None => None
          | Some (rest, u6) =>
            Some ({| customer_id := cid; order_date := date; status := st;
                     line_items := its |} :: rest, u6)
          end
        end
      end
    end
  end.

(** ** The database *)

(** The calls made on MongoDB, in the order of the script. *)
Inductive call : Type :=
| Ping
| DeleteMany (collection : string)
| InsertCustomers (docs : list customer)
| InsertProducts (docs : list product)
| InsertOrders (docs : list order)
| CountDocuments (collection : string)
| FindOne (collection : string)
| Close.

(** What the script finds: whether [MongoClient(...)] returns, which
    calls return (the others raise), the identifiers [insert_many]
    assigns to the documents of a collection, and the generators. *)
Record world : Type := {
  client_made : bool;
  returns : call -> bool;
  inserted_ids : string -> nat -> list nat;
  luck : chance
}.

(** How a function of the script ends: it returns a value, or an
    exception leaves it. *)
Inductive ended (A : Type) : Type :=
| Returns (a : A)
| Raises.
Arguments Returns {A} a.
Arguments Raises {A}.

(** The calls made so far and the generators' positions. *)
Record progress : Type := {
  calls : list call;
  at_ : used
}.

Definition did (k : call) (p : progress) : progress :=
  {| calls := calls p ++ [k]; at_ := at_ p |}.

Definition moved (u : used) (p : progress) : progress :=
  {| calls := calls p; at_ := u |}.

(** One call on the database: it is recorded, and returns or raises. *)
Definition perform (w : world) (k : call) (p : progress)
  : ended unit * progress :=
  (if returns w k then Returns tt else Raises, did k p).

(** [generate_customers(db, count)] *)
Definition generate_customers (w : world) (count : Z) (p : progress)
  : ended (list nat) * progress :=
  let '(docs, u) := customers (Z.to_nat count) (luck w) (at_ p) in
  match perform w (InsertCustomers docs) (moved u p) with
  | (Returns _, p1) =>
    (Returns (inserted_ids w "customers" (List.length docs)), p1)
  | (Raises, p1) => (Raises, p1)
  end.

(** [generate_products(db, count)] *)
Definition generate_products (w : world) (count : Z) (p : progress)
  : ended (list nat) * progress :=
  match products (Z.to_nat count) (luck w) (at_ p) with
  | None => (Raises, p)
  | Some (docs, u) =>
    match perform w (InsertProducts docs) (moved u p) with
    | (Returns _, p1) =>
      (Returns (inserted_ids w "products" (List.length docs)), p1)
    | (Raises, p1) => (Raises, p1)
    end
  end.

(** [generate_orders(db, customer_ids, product_ids, count)] *)
Definition generate_orders (w : world) (customer_ids product_ids : list nat)
           (count : Z) (p : progress) : ended (list nat) * progress :=
  match orders (Z.to_nat count) customer_ids product_ids (luck w) (at_ p) with
  | None => (Raises, p)
  | Some (docs, u) =>
    match perform w (InsertOrders docs) (moved u p) with
    | (Returns _, p1) =>
      (Returns (inserted_ids w "orders" (List.length docs)), p1)
    | (Raises, p1) => (Raises, p1)
    end
  end.

(** A sequence of calls, up to the first that raises. *)
Fixpoint perform_all (w : world) (ks : list call) (p : progress)
  : ended unit * progress :=
  match ks with
  | [] => (Returns tt, p)
  | k :: rest =>
    match perform w k p with
    | (Returns _, p1) => perform_all w rest p1
    | (Raises, p1) => (Raises, p1)
    end
  end.

(** [print_collection_stats(db)]: three counts, then one document of
    each collection. *)
Definition print_collection_stats (w : world) (p : progress)
  : ended unit * progress :=
  perform_all w
    [ CountDocuments "customers"; CountDocuments "products";
      CountDocuments "orders"; FindOne "customers"; FindOne "products";
      FindOne "orders" ] p.

(** The body of the [try] of [main], once the client is there. *)
Definition seed (w : world) (p : progress) : ended unit * progress :=
  match perform_all w [ DeleteMany "customers"; DeleteMany "products";
                        DeleteMany "orders" ] p with
  | (Raises, p1) => (Raises, p1)
  | (Returns _, p1) =>
    match generate_customers w 50 p1 with
    | (Raises, p2) => (Raises, p2)
    | (Returns customer_ids, p2) =>
      match generate_products w 100 p2 with
      | (Raises, p3) => (Raises, p3)
      | (Returns product_ids, p3) =>
        match generate_orders w customer_ids product_ids 200 p3 with
        | (Raises, p4) => (Raises, p4)
        | (Returns _, p4) => print_collection_stats w p4
        end
      end
    end
  end.

(** [main]: [connect_to_mongodb] creates the client and pings; the
    exception of a failed step is raised again after the [finally]
    clause, which closes the client when [main] holds one (an exception
    of [close] itself leaves [main] in its turn). *)
Definition main (w : world) : ended unit * progress :=
  let start := {| calls := []; at_ := {| drawn := 0; faked := 0 |} |} in
  if negb (client_made w) then (Raises, start)
  else
    match perform w Ping start with
    | (Raises, p1) => (Raises, p1)
    | (Returns _, p1) =>
      let '(outcome, p2) := seed w p1 in
      match perform w Close p2 with
      | (Returns _, p3) => (outcome, p3)
      | (Raises, p3) => (Raises, p3)
      end
    end.

(** ** Sample generators and databases *)

(** Generators that count, and a database that answers every call but
    those named. *)
Definition counting : chance :=
  {| draw := fun n => n; fake_text := fun _ => "Lorem";
     fake_date := fun n => Z.of_nat n |}.

Definition answering (refused : call -> bool) : world :=
  {| client_made := true; returns := fun k => negb (refused k);
     inserted_ids := fun _ n => seq 1 n; luck := counting |}.

Definition no_call (k : call) : bool := false.

Definition is_count (k : call) : bool :=
  match k with CountDocuments _ => true | _ => false end.

End Seed.

Section Bridge.

(** [json.loads], of the standard library. *)
Variable json_loads : str -> loads_result.

(** The sink: whether the [n]-th call of [clickhouse_client.insert]
    (counted from 0 within the run) returns or raises. *)
Variable insert_ok : nat -> bool.

(** [_insert_batch]: one insert call; an exception is logged and goes no
    further. *)
Definition _insert_batch (table_name : string) (data : list row)
           (st : state) : state :=
  let ok := insert_ok (List.length (inserts st)) in
  let st1 := add_insert {| ic_table := table_name; ic_data := data;
                           ic_ok := ok |} st in
  if ok then logger (InfoInserted (List.length data) table_name) st1
  else logger (ErrorInserting table_name) st1.

Section Loop.

(** The parameters of [consume_and_load] and its [start_time]. *)
Variables (max_messages timeout_seconds : option Z) (realtime : bool).
Variable start_time : Z.

(** [msg.value().decode('utf-8') if msg.value() else ''] *)
Definition message_text (m : message) : outcome str :=
  match msg_value m with
  | Some v =>
    if bytes_truthy v then
      match utf8_decode v with
      | Some s => Ok s
      | None => Raised UnicodeDecodeError
      end
    else Ok []
  | None => Ok []
  end.

(** Lines 168-193: the row is appended, the table's buffer is flushed and
    replaced when it has reached [batch_size], and the message limit is
    checked. *)
Definition store (table_name : string) (message_value : str) (m : message)
           (clock : Z) (st : state) : outcome (state * control) :=
  let data_row := {| raw_data := message_value; kafka_timestamp := clock;
                     kafka_offset := msg_offset m;
                     kafka_partition := msg_partition m |} in
  match dict_get table_name (batch_data st) with
  | None => Raised KeyError
  | Some buf =>
    let buf1 := buf ++ [data_row] in
    let st1 := set_message_count (message_count st + 1)
                 (set_batch_data (dict_set table_name buf1 (batch_data st)) st) in
    let st2 :=
      if (batch_size <=? List.length buf1)%nat then
        let st' := _insert_batch table_name buf1 st1 in
        set_batch_data (dict_set table_name [] (batch_data st')) st'
      else st1 in
    let st3 :=
      if realtime && (message_count st2 mod 100 =? 0) && (message_count st2 >? 0)
      then logger (InfoProgress (message_count st2)) st2
      else st2 in
    if negb realtime && truthy max_messages
       && (message_count st3 >=? or_zero max_messages)
    then Ok (logger InfoMaxMessages st3, Break)
    else Ok (st3, Continue)
  end.

(** The body of the per-message [try] (lines 143-193). *)
Definition process (m : message) (clock : Z) (st : state)
  : outcome (state * control) :=
  match dict_get (msg_topic m) topic_table_mapping with
  | None => Ok (logger (WarnUnknownTopic (msg_topic m)) st, Continue)
  | Some table_name =>
    if negb (string_truthy table_name)
    then Ok (logger (WarnUnknownTopic (msg_topic m)) st, Continue)
    else
      match message_text m with
      | Raised e => Raised e
      | Ok message_value =>
        if negb (str_truthy message_value) || str_eqb (strip message_value) []
        then Ok (st, Continue)
        else
          match json_loads message_value with
          | JSONDecodeError =>
            Ok (logger (WarnInvalidJSON (prefix 100 message_value)) st, Continue)
          | LoadsRaises => Raised OtherException
          | Loaded (JObj members) =>
            if eq_True (obj_get (lit "__deleted") members)
            then Ok (st, Continue)
            else store table_name message_value m clock st
          | Loaded _ => Raised AttributeError
          end
      end
  end.

(** One iteration of [while True] (lines 125-197). *)
Definition iteration (t : tick) (st : state) : state * control :=
  match polled t with
  | PollRaises => (st, Raise)
  | PollInterrupt => (st, Interrupt)
  | PollNone =>
    if negb realtime && truthy timeout_seconds
       && (now t - start_time >? or_zero timeout_seconds)
    then (logger InfoTimeout st, Break)
    else (st, Continue)
  | PollMsg m =>
    match msg_error m with
    | Some code =>
      if code =? PARTITION_EOF
      then (logger (InfoPartitionEOF (msg_topic m)) st, Continue)
      else (logger (ErrorKafka code) st, Continue)
    | None =>
      match process m (now t) st with
      | Ok res => res
      | Raised e => (logger (ErrorProcessing e) st, Continue)
      end
    end
  end.

(** The loop, over the polls the broker answers. *)
Fixpoint loop (ticks : list tick) (st : state) : state * control :=
  match ticks with
  | [] => (st, Continue)
  | t :: rest =>
    match iteration t st with
    | (st', Continue) => loop rest st'
    | res => res
    end
  end.

End Loop.

(** Lines 199-202: every non-empty buffer is inserted, in the order of
    [batch_data.items()]. *)
Definition drain (st : state) : state :=
  fold_left (fun s '(table_name, data) =>
               match data with
               | [] => s
               | _ => _insert_batch table_name data s
               end)
            (batch_data st) st.

(** The broker as one run sees it: whether creating the consumer and
    subscribing succeed, the clock at [start_time], and the polls. *)
Record broker : Type := {
  subscribe_ok : bool;
  started : Z;
  ticks : list tick
}.

(** [consume_and_load] *)
Definition consume_and_load (max_messages timeout_seconds : option Z)
           (realtime : bool) (b : broker) : state * ending :=
  if subscribe_ok b then
    match loop max_messages timeout_seconds realtime (started b)
               (ticks b) initial_state with
    | (st, Continue) => (st, Polling)
    | (st, Break) =>
      let st' := drain st in
      (logger (InfoProcessed (message_count st')) st', Drained)
    | (st, Raise) => (logger ErrorConsume st, Failed)
    | (st, Interrupt) => (st, Interrupted)
    end
  else (logger ErrorConsume initial_state, Failed).

(** ** The command line driver *)

(** Statements sent through [clickhouse_client.command]. *)
Inductive command : Type :=
| SelectOne
| CreateTable (table : string)
| TruncateTable (table : string)
| CountRows (table : string).

(** [kafka_config['group.id']] *)
Inductive group_id : Type :=
| BridgeGroup
| ResetGroup (clock : Z).

(** What [main] finds outside the process: whether
    [clickhouse_connect.get_client] returns, whether the broker's topic
    listing succeeds, which statements the sink executes (the others
    raise), the clock when the consumer group is renamed, and the
    broker. *)
Record world : Type := {
  client_ok : bool;
  kafka_ok : bool;
  command_ok : command -> bool;
  reset_clock : Z;
  the_broker : broker
}.

(** How the process stands: [main] returned, an exception left it
    uncaught (traceback), a [KeyboardInterrupt] left it uncaught
    (traceback, after which CPython ends the process by [SIGINT]), or it
    is still running. *)
Inductive termination : Type :=
| Returned
| Uncaught
| UncaughtInterrupt
| Running.

(** The exit status as a shell reports it: 0 after a normal return, 1
    after an uncaught exception, 130 (128 plus the number of [SIGINT])
    after an uncaught [KeyboardInterrupt]; none while the process
    runs. *)
Definition exit_status (t : termination) : option Z :=
  match t with
  | Returned => Some 0
  | Uncaught => Some 1
  | UncaughtInterrupt => Some 130
  | Running => None
  end.

(** The statements [main] sent to the sink, each with whether it
    returned, the consumer group in use, and the call of
    [consume_and_load] when it was reached. *)
Record main_result : Type := {
  ended : termination;
  commands : list (command * bool);
  group : group_id;
  run : option (state * ending)
}.

Definition send (w : world) (cs : list command) : list (command * bool) :=
  map (fun c => (c, command_ok w c)) cs.

(** The tables of [create_tables], in order. *)
Definition tables : list string :=
  [ "mongo_ecom_customers"; "mongo_ecom_products"; "mongo_ecom_orders" ].

(** [create_tables]: each statement is tried; a failure is logged and the
    next one is tried. *)
Definition create_tables (w : world) : list (command * bool) :=
  send w (map CreateTable tables).

(** [test_connections]: the test query, then the broker; any exception
    makes it return [False]. *)
Definition test_connections (w : world) : list (command * bool) * bool :=
  (send w [SelectOne], command_ok w SelectOne && kafka_ok w).

(** [clear_tables] *)
Definition clear_tables (w : world) : list (command * bool) :=
  send w (map TruncateTable (dict_values topic_table_mapping)).

(** [show_stats] *)
Definition show_stats (w : world) : list (command * bool) :=
  send w (map CountRows (dict_values topic_table_mapping)).

(** [main], on [sys.argv]. *)
Definition main (argv : list string) (w : world) : main_result :=
  if negb (client_ok w) then
    {| ended := Uncaught; commands := []; group := BridgeGroup; run := None |}
  else
    let given (a : string) :=
      match nth_error argv 1 with
      | Some x => String.eqb x a
      | None => false
      end in
    let batch := given "--batch" || given "--reset" in
    let reset_offset := given "--reset" in
    if given "--help" || given "-h"
    then {| ended := Returned; commands := []; group := BridgeGroup;
            run := None |}
    else
      let '(tested, connected) := test_connections w in
      if negb connected then
        {| ended := Returned; commands := tested; group := BridgeGroup;
           run := None |}
      else
        let cmds := tested ++ create_tables w
                    ++ (if reset_offset then clear_tables w else []) in
        let gid := if reset_offset then ResetGroup (reset_clock w)
                   else BridgeGroup in
        let r :=
          if negb batch then consume_and_load None None true (the_broker w)
          else if reset_offset
               then consume_and_load (Some 5000) (Some 120) false (the_broker w)
               else consume_and_load (Some 3500) (Some 60) false (the_broker w) in
        match snd r with
        | Polling =>
          {| ended := Running; commands := cmds; group := gid; run := Some r |}
        | Interrupted =>
          if negb batch
          then {| ended := Returned; commands := cmds ++ show_stats w;
                  group := gid; run := Some r |}
          else {| ended := UncaughtInterrupt; commands := cmds; group := gid;
                  run := Some r |}
        | _ =>
          {| ended := Returned; commands := cmds ++ show_stats w; group := gid;
             run := Some r |}
        end.

(** ** Vocabulary of the properties *)

(** An empty or whitespace-only text. *)
Definition whitespace_only (s : str) : bool := forallb py_isspace s.

(** The row built for a message whose text is [text]. *)
Definition row_of (m : message) (text : str) (clock : Z) : row :=
  {| raw_data := text; kafka_timestamp := clock;
     kafka_offset := msg_offset m; kafka_partition := msg_partition m |}.

(** The poll that brings message [m] when the clock reads [clock]. *)
Definition brings (m : message) (clock : Z) : tick :=
  {| polled := PollMsg m; now := clock |}.

(** The messages that pass the filter, with the destination table and
    the decoded text. *)
Definition kept (m : message) : option (string * str) :=
  match msg_error m, dict_get (msg_topic m) topic_table_mapping,
        message_text m with
  | None, Some table, Ok text =>
    if string_truthy table && negb (whitespace_only text) then
      match json_loads text with
      | Loaded (JObj members) =>
        if eq_True (obj_get (lit "__deleted") members) then None
        else Some (table, text)
      | _ => None
      end
    else None
  | _, _, _ => None
  end.

(** The condition of line 191 once the counter reads [count]. *)
Definition limit_reached (max_messages : option Z) (realtime : bool)
           (count : Z) : bool :=
  negb realtime && truthy max_messages && (count >=? or_zero max_messages).

(** Every buffer named by the topic mapping exists. *)
Definition buffers_exist (st : state) : Prop :=
  dict_keys (batch_data st) = dict_values topic_table_mapping.

(** Every buffer is shorter than the threshold. *)
Definition below_threshold (st : state) : Prop :=
  forall table buf, In (table, buf) (batch_data st) ->
                    (List.length buf < batch_size)%nat.

(** The number of rows handed to the sink. *)
Definition rows_sent (calls : list insert_call) : nat :=
  List.length (flat_map ic_data calls).

(** The table and row a poll adds to the buffers: those of a message that
    passes the filter. *)
Definition row_for (t : tick) : option (string * row) :=
  match polled t with
  | PollMsg m =>
    match kept m with
    | Some (table, text) => Some (table, row_of m text (now t))
    | None => None
    end
  | _ => None
  end.

(** The rows of the kept messages among the polls, in order. *)
Definition rows_for (ticks : list tick) : list row :=
  flat_map (fun t => match row_for t with
                     | Some (_, r) => [r]
                     | None => []
                     end) ticks.

(** A poll that neither raises nor interrupts, and at which the time cap
    has not expired. *)
Definition calm (timeout_seconds : option Z) (start_time : Z) (t : tick)
  : Prop :=
  match polled t with
  | PollMsg _ => True
  | PollNone =>
    truthy timeout_seconds = true ->
    now t - start_time <= or_zero timeout_seconds
  | _ => False
  end.

(** What the loop preserves: the buffers exist and are shorter than the
    threshold, every insert made in the loop carried exactly [batch_size]
    rows, and the counter counts the rows buffered or sent. *)
Definition steady (st : state) : Prop :=
  buffers_exist st
  /\ below_threshold st
  /\ Forall (fun c => List.length (ic_data c) = batch_size) (inserts st)
  /\ Z.of_nat (List.length (buffered (batch_data st)) + rows_sent (inserts st))
     = message_count st.

(** How a table's buffer and its flushed batches evolve when [rows] are
    appended one by one to [buf]. *)
Fixpoint feed (buf rows : list row) : list (list row) * list row :=
  match rows with
  | [] => ([], buf)
  | r :: rest =>
    let buf1 := buf ++ [r] in
    if (batch_size <=? List.length buf1)%nat
    then let '(batches, remaining) := feed [] rest in (buf1 :: batches, remaining)
    else feed buf1 rest
  end.

(** The insert calls for [batches] of one table, the first being call
    number [n] of the run. *)
Fixpoint calls_for (table : string) (n : nat) (batches : list (list row))
  : list insert_call :=
  match batches with
  | [] => []
  | b :: rest =>
    {| ic_table := table; ic_data := b; ic_ok := insert_ok n |}
      :: calls_for table (S n) rest
  end.

(** The insert calls of the end-of-run drain: one per non-empty buffer,
    in dictionary order, the first being call number [n]. *)
Fixpoint drain_calls (n : nat) (d : dict (list row)) : list insert_call :=
  match d with
  | [] => []
  | (_, []) :: rest => drain_calls n rest
  | (table, data) :: rest =>
    {| ic_table := table; ic_data := data; ic_ok := insert_ok n |}
      :: drain_calls (S n) rest
  end.



(** ** Vocabulary of the run-level properties *)

(** The same counter, buffers and sink calls: two states that differ at
    most by their log. *)
Definition same_core (a b : state) : Prop :=
  message_count a = message_count b
  /\ batch_data a = batch_data b
  /\ inserts a = inserts b.

(** A poll that brings a message the filter drops. *)
Definition dropped (t : tick) : bool :=
  match polled t with
  | PollMsg m => match kept m with Some _ => false | None => true end
  | _ => false
  end.

(** The rows of the kept messages routed to [table], in arrival order. *)
Definition rows_to (table : string) (polls : list tick) : list row :=
  flat_map (fun t => match row_for t with
                     | Some (tb, r) => if String.eqb tb table then [r] else []
                     | None => []
                     end) polls.

(** The rows handed to the sink for [table], in call order. *)
Definition sent_to (table : string) (calls : list insert_call) : list row :=
  flat_map (fun c => if String.eqb (ic_table c) table then ic_data c else [])
           calls.

(** The rows waiting in the buffer of [table]. *)
Definition buffer_of (table : string) (st : state) : list row :=
  match dict_get table (batch_data st) with
  | Some buf => buf
  | None => []
  end.

(** The log record [_insert_batch] writes for a call. *)
Definition record_of (c : insert_call) : log_entry :=
  if ic_ok c then InfoInserted (List.length (ic_data c)) (ic_table c)
  else ErrorInserting (ic_table c).

(** The records of [_insert_batch] in a log. *)
Definition insert_records (l : list log_entry) : list log_entry :=
  filter (fun e => match e with
                   | InfoInserted _ _ | ErrorInserting _ => true
                   | _ => false
                   end) l.

(** The counts of the periodic reports in a log. *)
Definition progress_reports (l : list log_entry) : list Z :=
  flat_map (fun e => match e with InfoProgress n => [n] | _ => [] end) l.

(** The heads of the invalid-JSON warnings in a log. *)
Definition invalid_heads (l : list log_entry) : list str :=
  flat_map (fun e => match e with WarnInvalidJSON h => [h] | _ => [] end) l.

(** A poll that brings a message (with or without broker error). *)
Definition is_message (t : tick) : bool :=
  match polled t with PollMsg _ => true | _ => false end.

(** A poll that neither raises nor interrupts. *)
Definition answers (t : tick) : bool :=
  match polled t with PollRaises | PollInterrupt => false | _ => true end.

(** The polls the loop takes from [polls]: all of them while it goes on,
    up to and including the one at which it stops. *)
Fixpoint consumed (max_messages timeout_seconds : option Z) (realtime : bool)
         (start_time : Z) (polls : list tick) (st : state) : list tick :=
  match polls with
  | [] => []
  | t :: rest =>
    match iteration max_messages timeout_seconds realtime start_time t st with
    | (st', Continue) =>
      t :: consumed max_messages timeout_seconds realtime start_time rest st'
    | _ => [t]
    end
  end.

(** The records written for a poll that stores nothing: a time-out, a
    broker event, an unknown topic, an invalid payload (with a head of at
    most 100 characters) or a processing error. *)
Definition quiet_entry (e : log_entry) : bool :=
  match e with
  | InfoTimeout | InfoPartitionEOF _ | ErrorKafka _ | WarnUnknownTopic _
  | ErrorProcessing _ => true
  | WarnInvalidJSON h => (List.length h <=? 100)%nat
  | _ => false
  end.

(** The periodic reports due once [count] messages were kept: one at
    every multiple of 100, in continuous mode only. *)
Definition reports_due (realtime : bool) (count : Z) : list Z :=
  if realtime
  then map (fun i => 100 * Z.of_nat i) (seq 1 (Z.to_nat (count / 100)))
  else [].

(** ** Sample inputs *)

Definition sample (topic : string) (offset : Z) (payload : bytes) : message :=
  {| msg_topic := topic; msg_partition := 0; msg_offset := offset;
     msg_value := Some payload; msg_error := None |}.

Definition orders : string := "mongo.ecom.ecom.orders".

(** An order document, a tombstone, an object whose marker is the number
    1, a JSON array, and bytes that are not UTF-8. *)
Definition order_event : message :=
  sample orders 7 (blit "{'_id': 1, 'total': 12.5}").
Definition tombstone : message :=
  sample orders 8 (blit "{'_id': 1, '__deleted': true}").
Definition deleted_one : message :=
  sample orders 9 (blit "{'_id': 1, '__deleted': 1}").
Definition array_payload : message := sample orders 10 (blit "[]").
Definition garbled : message := sample orders 11 [xff; xfe].

(** The operator's interrupt. *)
Definition ctrl_c : tick := {| polled := PollInterrupt; now := 0 |}.

(** A sink that accepts every insert, and one whose first insert fails. *)
Definition sink_up (n : nat) : bool := true.
Definition sink_down_once (n : nat) : bool := negb (Nat.eqb n 0).

(** A broker that answers the given polls. *)
Definition serving (polls : list tick) : broker :=
  {| subscribe_ok := true; started := 0; ticks := polls |}.

(** A world in which everything answers, but for the named faults. *)
Definition world_with (kafka_up : bool) (refused : command -> bool)
           (polls : list tick) : world :=
  {| client_ok := true; kafka_ok := kafka_up;
     command_ok := fun c => negb (refused c); reset_clock := 0;
     the_broker := serving polls |}.

Definition no_command (c : command) : bool := false.

Definition is_create (c : command) : bool :=
  match c with CreateTable _ => true | _ => false end.

(** ** Strings and dictionaries *)

Lemma str_eqb_eq (a b : str) : str_eqb a b = true <-> a = b.
Proof.
  unfold str_eqb. destruct (list_eq_dec N.eq_dec a b); split; congruence.
Qed.

Lemma lstrip_nil (s : str) : lstrip s = [] <-> whitespace_only s = true.
Proof.
  unfold whitespace_only.
  induction s as [|c r IH]; simpl; [tauto|].
  destruct (py_isspace c); simpl; [exact IH|].
  split; discriminate.
Qed.

Lemma lstrip_head (s : str) (c : N) (r : str) :
  lstrip s = c :: r -> py_isspace c = false.
Proof.
  induction s as [|a s IH]; simpl; [discriminate|].
  destruct (py_isspace a) eqn:E; [exact IH|].
  intros H. injection H as -> _. exact E.
Qed.

Lemma whitespace_only_rev (s : str) :
  whitespace_only (rev s) = whitespace_only s.
Proof.
  unfold whitespace_only.
  destruct (forallb py_isspace s) eqn:E.
  - rewrite forallb_forall in *. intros x Hx. apply E, in_rev, Hx.
  - destruct (forallb py_isspace (rev s)) eqn:E'; [|reflexivity].
    rewrite <- E. symmetry. rewrite forallb_forall in *.
    intros x Hx. apply E'. rewrite <- in_rev. exact Hx.
Qed.

(** [strip] leaves nothing exactly when the text is empty or all white
    space. *)
Lemma strip_nil (s : str) : strip s = [] <-> whitespace_only s = true.
Proof.
  unfold strip. split.
  - intros H.
    assert (H1 : lstrip (rev (lstrip s)) = []).
    { destruct (lstrip (rev (lstrip s))) as [|a l]; [reflexivity|].
      simpl in H. destruct (rev l); discriminate. }
    apply lstrip_nil in H1. rewrite whitespace_only_rev in H1.
    destruct (lstrip s) as [|c r] eqn:E.
    + apply lstrip_nil, E.
    + apply lstrip_head in E. unfold whitespace_only in H1. simpl in H1.
      rewrite E in H1. discriminate.
  - intros H. apply lstrip_nil in H. rewrite H. reflexivity.
Qed.

(** The test of line 154, in one predicate. *)
Lemma blank_test (s : str) :
  negb (str_truthy s) || str_eqb (strip s) [] = whitespace_only s.
Proof.
  destruct (whitespace_only s) eqn:E.
  - apply strip_nil in E. rewrite E. apply orb_true_r.
  - destruct s as [|c r]; [discriminate|]. simpl.
    destruct (str_eqb (strip (c :: r)) []) eqn:E'; [|reflexivity].
    apply str_eqb_eq, strip_nil in E'. congruence.
Qed.

Lemma dict_get_set_same {V : Type} (k : string) (v w : V) (d : dict V) :
  dict_get k d = Some w -> dict_get k (dict_set k v d) = Some v.
Proof.
  induction d as [|[k' v'] r IH]; simpl; [discriminate|].
  destruct (String.eqb k' k) eqn:E; simpl; rewrite E; auto.
Qed.

Lemma dict_get_set_other {V : Type} (k k' : string) (v : V) (d : dict V) :
  k <> k' -> dict_get k' (dict_set k v d) = dict_get k' d.
Proof.
  intros Hne. induction d as [|[k0 v0] r IH]; simpl.
  - destruct (String.eqb_spec k k'); [contradiction|reflexivity].
  - destruct (String.eqb_spec k0 k); simpl.
    + subst k0. destruct (String.eqb_spec k k'); [contradiction|reflexivity].
    + rewrite IH. reflexivity.
Qed.

Lemma dict_set_set {V : Type} (k : string) (v w : V) (d : dict V) :
  dict_set k w (dict_set k v d) = dict_set k w d.
Proof.
  induction d as [|[k' v'] r IH]; simpl.
  - rewrite String.eqb_refl. reflexivity.
  - destruct (String.eqb k' k) eqn:E; simpl; rewrite E; [reflexivity|].
    rewrite IH. reflexivity.
Qed.

Lemma dict_keys_set {V : Type} (k : string) (v w : V) (d : dict V) :
  dict_get k d = Some w -> dict_keys (dict_set k v d) = dict_keys d.
Proof.
  unfold dict_keys.
  induction d as [|[k' v'] r IH]; simpl; [discriminate|].
  destruct (String.eqb k' k) eqn:E; simpl; [reflexivity|].
  intros H. rewrite IH by exact H. reflexivity.
Qed.

Lemma dict_get_In {V : Type} (k : string) (v : V) (d : dict V) :
  dict_get k d = Some v -> In (k, v) d.
Proof.
  induction d as [|[k' v'] r IH]; simpl; [discriminate|].
  destruct (String.eqb_spec k' k).
  - intros H. injection H as ->. left. congruence.
  - intros H. right. auto.
Qed.

Lemma dict_get_keys {V : Type} (k : string) (d : dict V) :
  In k (dict_keys d) -> exists v, dict_get k d = Some v.
Proof.
  unfold dict_keys.
  induction d as [|[k' v'] r IH]; simpl; [contradiction|].
  destruct (String.eqb_spec k' k).
  - intros _. eexists. reflexivity.
  - intros [H|H]; [contradiction|auto].
Qed.

Lemma dict_set_In {V : Type} (k k' : string) (v v' : V) (d : dict V) :
  In (k', v') (dict_set k v d) -> (k', v') = (k, v) \/ In (k', v') d.
Proof.
  induction d as [|[k0 v0] r IH]; simpl.
  - intros [H|[]]. left. congruence.
  - destruct (String.eqb_spec k0 k); simpl.
    + intros [H|H]; [left; congruence|right; right; exact H].
    + intros [H|H]; [right; left; exact H|].
      destruct (IH H); [left|right; right]; assumption.
Qed.

Lemma buffered_set (k : string) (v w : list row) (d : dict (list row)) :
  dict_get k d = Some w ->
  (List.length (buffered (dict_set k v d)) + List.length w
   = List.length (buffered d) + List.length v)%nat.
Proof.
  unfold buffered.
  induction d as [|[k' v'] r IH]; simpl; [discriminate|].
  destruct (String.eqb k' k) eqn:E; simpl; rewrite !length_app.
  - intros H. injection H as ->. lia.
  - intros H. specialize (IH H). lia.
Qed.

(** ** One message *)

Section Steps.

Variables (max_messages timeout_seconds : option Z) (realtime : bool).
Variable start_time : Z.

Local Abbreviation iteration' :=
  (iteration max_messages timeout_seconds realtime start_time).
Local Abbreviation loop' :=
  (loop max_messages timeout_seconds realtime start_time).
Local Abbreviation process' := (process max_messages realtime).
Local Abbreviation store' := (store max_messages realtime).

(** What [store] does to a state in which the table has a buffer. *)
Lemma store_spec (table : string) (text : str) (m : message) (clock : Z)
      (st : state) (buf : list row) :
  dict_get table (batch_data st) = Some buf ->
  let buf1 := buf ++ [row_of m text clock] in
  let full := (batch_size <=? List.length buf1)%nat in
  exists st',
    store' table text m clock st
    = Ok (st', if limit_reached max_messages realtime (message_count st + 1)
               then Break else Continue)
    /\ message_count st' = message_count st + 1
    /\ batch_data st'
       = dict_set table (if full then [] else buf1) (batch_data st)
    /\ inserts st'
       = (if full
          then inserts st
               ++ [{| ic_table := table; ic_data := buf1;
                      ic_ok := insert_ok (List.length (inserts st)) |}]
          else inserts st)
    /\ (full = true -> insert_ok (List.length (inserts st)) = false ->
        In (ErrorInserting table) (log st')).
Proof.
  intros Hget buf1 full. unfold store. rewrite Hget.
  fold (row_of m text clock). fold buf1. fold full.
  set (st1 := set_message_count _ _).
  set (st2 := if full then _ else st1).
  set (st3 := if (realtime && _ && _)%bool then _ else st2).
  assert (H2 : message_count st2 = message_count st + 1
               /\ batch_data st2
                  = dict_set table (if full then [] else buf1) (batch_data st)
               /\ inserts st2
                  = (if full
                     then inserts st
                          ++ [{| ic_table := table; ic_data := buf1;
                                 ic_ok := insert_ok (List.length (inserts st)) |}]
                     else inserts st)
               /\ (full = true -> insert_ok (List.length (inserts st)) = false ->
                   In (ErrorInserting table) (log st2))).
  { subst st2. destruct full.
    - unfold _insert_batch. subst st1.
      destruct (insert_ok _) eqn:E; simpl; rewrite ?E, dict_set_set;
        repeat split; auto; try discriminate.
      intros _ _. apply in_or_app. right. left. reflexivity.
    - subst st1. simpl. repeat split; auto. discriminate. }
  assert (H3 : message_count st3 = message_count st2
               /\ batch_data st3 = batch_data st2
               /\ inserts st3 = inserts st2
               /\ (forall e, In e (log st2) -> In e (log st3))).
  { subst st3. destruct (realtime && _ && _)%bool; simpl; repeat split; auto.
    intros e He. apply in_or_app. left. exact He. }
  destruct H2 as (Hc & Hb & Hi & Hl). destruct H3 as (Hc' & Hb' & Hi' & Hl').
  unfold limit_reached. rewrite <- Hc, <- Hc'.
  destruct (negb realtime && truthy max_messages
            && (message_count st3 >=? or_zero max_messages))%bool.
  - eexists. split; [reflexivity|]. simpl.
    repeat split; try congruence.
    intros Hf Hk. apply in_or_app. left. auto.
  - eexists. split; [reflexivity|]. repeat split; try congruence. auto.
Qed.

(** A message that passes the filter is stored. *)
Lemma iteration_kept (m : message) (clock : Z) (st : state)
      (table : string) (text : str) (buf : list row) :
  kept m = Some (table, text) ->
  dict_get table (batch_data st) = Some buf ->
  let buf1 := buf ++ [row_of m text clock] in
  let full := (batch_size <=? List.length buf1)%nat in
  exists st',
    iteration' (brings m clock) st
    = (st', if limit_reached max_messages realtime (message_count st + 1)
            then Break else Continue)
    /\ message_count st' = message_count st + 1
    /\ batch_data st'
       = dict_set table (if full then [] else buf1) (batch_data st)
    /\ inserts st'
       = (if full
          then inserts st
               ++ [{| ic_table := table; ic_data := buf1;
                      ic_ok := insert_ok (List.length (inserts st)) |}]
          else inserts st)
    /\ (full = true -> insert_ok (List.length (inserts st)) = false ->
        In (ErrorInserting table) (log st')).
Proof.
  intros Hk Hget buf1 full. unfold kept in Hk.
  destruct (msg_error m) eqn:Eerr; [discriminate|].
  destruct (dict_get (msg_topic m) topic_table_mapping) as [tb|] eqn:Etop;
    [|discriminate].
  destruct (message_text m) as [tx|] eqn:Etext; [|discriminate].
  destruct (string_truthy tb) eqn:Etb; [|discriminate].
  destruct (whitespace_only tx) eqn:Ews; [discriminate|]. simpl in Hk.
  destruct (json_loads tx) as [[]| |] eqn:Eload; try discriminate.
  destruct (eq_True _) eqn:Edel; [discriminate|].
  injection Hk as -> ->.
  destruct (store_spec table text m clock st buf Hget) as (st' & Hs & Hrest).
  exists st'. split; [|exact Hrest].
  unfold iteration, brings. simpl. rewrite Eerr. unfold process.
  rewrite Etop, Etb, Etext. simpl. rewrite blank_test, Ews, Eload, Edel.
  rewrite Hs. reflexivity.
Qed.

(** A message that does not pass the filter changes neither the counter,
    nor a buffer, nor the sink, and the loop goes on. *)
Lemma iteration_dropped (m : message) (clock : Z) (st : state) :
  kept m = None ->
  exists st',
    iteration' (brings m clock) st = (st', Continue)
    /\ message_count st' = message_count st
    /\ batch_data st' = batch_data st
    /\ inserts st' = inserts st.
Proof.
  intros Hk. unfold kept in Hk. unfold iteration, brings. simpl.
  destruct (msg_error m) as [code|] eqn:Eerr.
  { destruct (code =? PARTITION_EOF); eexists; (split; [reflexivity|]);
      simpl; auto. }
  unfold process.
  destruct (dict_get (msg_topic m) topic_table_mapping) as [tb|] eqn:Etop;
    [|eexists; (split; [reflexivity|]); simpl; auto].
  destruct (string_truthy tb) eqn:Etb; simpl;
    [|eexists; (split; [reflexivity|]); simpl; auto].
  destruct (message_text m) as [tx|] eqn:Etext;
    [|eexists; (split; [reflexivity|]); simpl; auto].
  rewrite blank_test. simpl in Hk.
  destruct (whitespace_only tx) eqn:Ews; simpl in *;
    [eexists; (split; [reflexivity|]); simpl; auto|].
  destruct (json_loads tx) as [[]| |] eqn:Eload;
    try (eexists; (split; [reflexivity|]); simpl; auto; fail).
  destruct (eq_True _) eqn:Edel; [|discriminate].
  eexists; (split; [reflexivity|]); simpl; auto.
Qed.

Lemma brings_eta (t : tick) (m : message) :
  polled t = PollMsg m -> t = brings m (now t).
Proof. destruct t as [p n]; simpl; intros ->; reflexivity. Qed.

Lemma kept_table (m : message) (table : string) (text : str) :
  kept m = Some (table, text) ->
  In table (dict_values topic_table_mapping).
Proof.
  unfold kept. destruct (msg_error m); [discriminate|].
  destruct (dict_get (msg_topic m) topic_table_mapping) as [tb|] eqn:E;
    [|discriminate].
  destruct (message_text m); [|discriminate].
  destruct (_ && _)%bool; [|discriminate].
  destruct (json_loads a) as [[]| |]; try discriminate.
  destruct (eq_True _); [discriminate|].
  intros H. injection H as <- _.
  apply dict_get_In in E. unfold dict_values.
  change tb with (snd (msg_topic m, tb)). apply in_map, E.
Qed.

Lemma kept_buffer (m : message) (table : string) (text : str) (st : state) :
  kept m = Some (table, text) -> buffers_exist st ->
  exists buf, dict_get table (batch_data st) = Some buf.
Proof.
  intros Hk Hb. apply dict_get_keys. rewrite Hb.
  apply kept_table with (1 := Hk).
Qed.

(** Each poll changes the state in one of three ways. *)
Lemma iteration_cases (t : tick) (st : state) :
  buffers_exist st ->
  exists st' c,
    iteration' t st = (st', c)
    /\ ((row_for t = None
         /\ message_count st' = message_count st
         /\ batch_data st' = batch_data st
         /\ inserts st' = inserts st)
        \/ (exists table r buf,
               row_for t = Some (table, r)
               /\ dict_get table (batch_data st) = Some buf
               /\ c = (if limit_reached max_messages realtime
                                        (message_count st + 1)
                       then Break else Continue)
               /\ message_count st' = message_count st + 1
               /\ batch_data st'
                  = dict_set table
                      (if (batch_size <=? List.length (buf ++ [r]))%nat
                       then [] else buf ++ [r]) (batch_data st)
               /\ inserts st'
                  = (if (batch_size <=? List.length (buf ++ [r]))%nat
                     then inserts st
                          ++ [{| ic_table := table; ic_data := buf ++ [r];
                                 ic_ok := insert_ok (List.length (inserts st)) |}]
                     else inserts st))).
Proof.
  intros Hb. unfold row_for.
  destruct (polled t) as [|m| |] eqn:Ep.
  - unfold iteration. rewrite Ep.
    destruct (_ && _)%bool; do 2 eexists; (split; [reflexivity|]);
      left; simpl; auto.
  - rewrite (brings_eta t m Ep). simpl.
    destruct (kept m) as [[table text]|] eqn:Ek.
    + destruct (kept_buffer m table text st Ek Hb) as [buf Hget].
      destruct (iteration_kept m (now t) st table text buf Ek Hget)
        as (st' & Hi & Hc & Hd & Hs & _).
      exists st'. eexists. split; [exact Hi|]. right.
      exists table, (row_of m text (now t)), buf. auto 10.
    + destruct (iteration_dropped m (now t) st Ek) as (st' & Hi & Hrest).
      exists st', Continue. split; [exact Hi|]. left. tauto.
  - unfold iteration. rewrite Ep. do 2 eexists. split; [reflexivity|]. auto.
  - unfold iteration. rewrite Ep. do 2 eexists. split; [reflexivity|]. auto.
Qed.

Lemma steady_initial : steady initial_state.
Proof.
  unfold steady, buffers_exist, below_threshold. simpl.
  repeat split; auto.
  intros table buf [H|[H|[H|[]]]]; injection H as _ <-; simpl;
    unfold batch_size; lia.
Qed.

Lemma rows_sent_app (a b : list insert_call) :
  rows_sent (a ++ b) = (rows_sent a + rows_sent b)%nat.
Proof. unfold rows_sent. rewrite flat_map_app, length_app. reflexivity. Qed.

Lemma steady_iteration (t : tick) (st st' : state) (c : control) :
  steady st -> iteration' t st = (st', c) -> steady st'.
Proof.
  intros (Hb & Hlt & Hfull & Hcount) Hi.
  destruct (iteration_cases t st Hb) as (st1 & c1 & Hi1 & Hcase).
  rewrite Hi in Hi1. injection Hi1 as <- <-.
  destruct Hcase as [(_ & Hc & Hd & Hs)
                    |(table & r & buf & _ & Hget & _ & Hc & Hd & Hs)].
  - unfold steady, buffers_exist, below_threshold.
    rewrite Hc, Hd, Hs. auto.
  - pose proof (dict_get_In _ _ _ Hget) as Hin. apply Hlt in Hin.
    assert (Hlen : List.length (buf ++ [r]) = S (List.length buf))
      by (rewrite length_app; simpl; lia).
    unfold steady, buffers_exist, below_threshold.
    rewrite Hc, Hd, Hs. clear Hc Hd Hs.
    destruct (batch_size <=? List.length (buf ++ [r]))%nat eqn:E.
    + apply Nat.leb_le in E.
      repeat split.
      * rewrite dict_keys_set with (w := buf); assumption.
      * intros tb b Hin'. apply dict_set_In in Hin'.
        destruct Hin' as [H|H]; [|eauto].
        injection H as _ ->. simpl. unfold batch_size. lia.
      * apply Forall_app. split; [assumption|].
        constructor; [simpl; lia|constructor].
      * pose proof (buffered_set table [] buf (batch_data st) Hget) as Hbs.
        rewrite rows_sent_app. unfold rows_sent at 2. simpl.
        rewrite app_nil_r. simpl in Hbs. lia.
    + apply Nat.leb_gt in E.
      repeat split.
      * rewrite dict_keys_set with (w := buf); assumption.
      * intros tb b Hin'. apply dict_set_In in Hin'.
        destruct Hin' as [H|H]; [|eauto].
        injection H as _ ->. exact E.
      * assumption.
      * pose proof (buffered_set table (buf ++ [r]) buf (batch_data st) Hget)
          as Hbs. lia.
Qed.

Lemma steady_loop (ticks : list tick) (st st' : state) (c : control) :
  steady st -> loop' ticks st = (st', c) -> steady st'.
Proof.
  revert st. induction ticks as [|t rest IH]; simpl; intros st Hst Hl.
  - injection Hl as <- _. exact Hst.
  - destruct (iteration' t st) as [st1 c1] eqn:Hi.
    pose proof (steady_iteration t st st1 c1 Hst Hi) as Hst1.
    destruct c1; try (injection Hl as <- _; exact Hst1).
    eapply IH; eassumption.
Qed.

(** ** The loop *)

Lemma loop_app (a b : list tick) (st : state) :
  loop' (a ++ b) st
  = match loop' a st with
    | (st', Continue) => loop' b st'
    | res => res
    end.
Proof.
  revert st. induction a as [|t a IH]; simpl; intros st; [reflexivity|].
  destruct (iteration' t st) as [st1 c]. destruct c; auto.
Qed.

Lemma row_for_inv (t : tick) (table : string) (r : row) :
  row_for t = Some (table, r) ->
  exists m text,
    t = brings m (now t) /\ kept m = Some (table, text)
    /\ r = row_of m text (now t).
Proof.
  unfold row_for. destruct (polled t) as [|m| |] eqn:Ep; try discriminate.
  destruct (kept m) as [[tb text]|] eqn:Ek; [|discriminate].
  intros H. injection H as <- <-.
  exists m, text. split; [apply brings_eta, Ep|auto].
Qed.

Lemma dict_set_same {V : Type} (k : string) (v : V) (d : dict V) :
  dict_get k d = Some v -> dict_set k v d = d.
Proof.
  induction d as [|[k' v'] r IH]; simpl; [discriminate|].
  destruct (String.eqb k' k) eqn:E.
  - intros H. injection H as ->. reflexivity.
  - intros H. rewrite IH by exact H. reflexivity.
Qed.

(** A run of kept messages for one table fills and flushes its buffer as
    [feed] says, as long as the message limit is not reached. *)
Lemma loop_feed (table : string) (ticks : list tick) :
  forall (rows : list row) (st : state) (buf : list row),
    map row_for ticks = map (fun r => Some (table, r)) rows ->
    dict_get table (batch_data st) = Some buf ->
    (forall k, 0 < k <= Z.of_nat (List.length rows) ->
               limit_reached max_messages realtime (message_count st + k)
               = false) ->
    exists st',
      loop' ticks st = (st', Continue)
      /\ message_count st' = message_count st + Z.of_nat (List.length rows)
      /\ batch_data st' = dict_set table (snd (feed buf rows)) (batch_data st)
      /\ inserts st'
         = inserts st
           ++ calls_for table (List.length (inserts st)) (fst (feed buf rows)).
Proof.
  induction ticks as [|t ticks IH]; intros rows st buf Hrows Hget Hlim;
    destruct rows as [|r rows]; try discriminate.
  - exists st. simpl. rewrite app_nil_r, Z.add_0_r.
    rewrite dict_set_same by exact Hget. auto.
  - simpl in Hrows. injection Hrows as Ht Hrows.
    destruct (row_for_inv t table r Ht) as (m & text & Et & Hk & Er).
    destruct (iteration_kept m (now t) st table text buf Hk Hget)
      as (st1 & Hi & Hc & Hd & Hs & _).
    rewrite <- Et, <- Er in *.
    rewrite (Hlim 1) in Hi by (simpl List.length; lia).
    simpl loop. rewrite Hi.
    cbn [feed]. cbv zeta.
    destruct (batch_size <=? List.length (buf ++ [r]))%nat eqn:Efull.
    + destruct (IH rows st1 []) as (st2 & Hl & Hc2 & Hd2 & Hs2).
      * exact Hrows.
      * rewrite Hd. apply dict_get_set_same with (w := buf). exact Hget.
      * intros k Hk'. rewrite Hc. replace (message_count st + 1 + k)
          with (message_count st + (k + 1)) by lia.
        apply Hlim. simpl List.length. lia.
      * exists st2. split; [exact Hl|].
        destruct (feed [] rows) as [batches remaining] eqn:Ef. simpl in *.
        rewrite Hc2, Hd2, Hs2, Hc, Hd, Hs, dict_set_set, length_app.
        simpl. rewrite <- app_assoc. simpl.
        replace (List.length (inserts st) + 1)%nat
          with (S (List.length (inserts st))) by lia.
        repeat split; try reflexivity. lia.
    + destruct (IH rows st1 (buf ++ [r])) as (st2 & Hl & Hc2 & Hd2 & Hs2).
      * exact Hrows.
      * rewrite Hd. apply dict_get_set_same with (w := buf). exact Hget.
      * intros k Hk'. rewrite Hc. replace (message_count st + 1 + k)
          with (message_count st + (k + 1)) by lia.
        apply Hlim. simpl List.length. lia.
      * exists st2. split; [exact Hl|].
        rewrite Hc2, Hd2, Hs2, Hc, Hd, Hs, dict_set_set.
        repeat split; try reflexivity. simpl List.length. lia.
Qed.


Lemma feed_full (a rest buf : list row) :
  a <> [] ->
  (List.length buf + List.length a = batch_size)%nat ->
  feed buf (a ++ rest)
  = ((buf ++ a) :: fst (feed [] rest), snd (feed [] rest)).
Proof.
  revert buf. induction a as [|r a IH]; intros buf Hne Hlen; [congruence|].
  cbn [feed app]. simpl in Hlen.
  destruct (batch_size <=? List.length (buf ++ [r]))%nat eqn:E.
  - apply Nat.leb_le in E. rewrite length_app in E. simpl in E.
    assert (a = []) by (destruct a; [reflexivity|simpl in Hlen; lia]).
    subst a. cbn [app]. destruct (feed [] rest). reflexivity.
  - apply Nat.leb_gt in E. rewrite length_app in E. simpl in E.
    assert (Ha : a <> []) by (destruct a; [simpl in Hlen; lia|discriminate]).
    rewrite IH; [|exact Ha|rewrite length_app; simpl; lia].
    rewrite <- app_assoc. reflexivity.
Qed.

(** ** The end-of-run drain *)

Lemma insert_batch_spec (table : string) (data : list row) (st : state) :
  let st' := _insert_batch table data st in
  message_count st' = message_count st
  /\ batch_data st' = batch_data st
  /\ inserts st'
     = inserts st
       ++ [{| ic_table := table; ic_data := data;
              ic_ok := insert_ok (List.length (inserts st)) |}]
  /\ (forall e, In e (log st) -> In e (log st')).
Proof.
  unfold _insert_batch.
  destruct (insert_ok (List.length (inserts st))); simpl;
    repeat split; auto; intros e He; apply in_or_app; left; exact He.
Qed.

Lemma drain_fold (d : dict (list row)) (st : state) :
  let st' := fold_left (fun s '(table_name, data) =>
                          match data with
                          | [] => s
                          | _ => _insert_batch table_name data s
                          end) d st in
  message_count st' = message_count st
  /\ batch_data st' = batch_data st
  /\ inserts st' = inserts st ++ drain_calls (List.length (inserts st)) d
  /\ (forall e, In e (log st) -> In e (log st')).
Proof.
  revert st. induction d as [|[table data] d IH]; intros st; simpl.
  - rewrite app_nil_r. auto.
  - destruct data as [|r data].
    + apply IH.
    + specialize (IH (_insert_batch table (r :: data) st)).
      destruct (insert_batch_spec table (r :: data) st)
        as (Hc1 & Hb1 & Hi1 & Hl1).
      simpl in IH. destruct IH as (Hc & Hb & Hi & Hl).
      rewrite Hc, Hb, Hi, Hc1, Hb1, Hi1, length_app, <- app_assoc.
      simpl. rewrite Nat.add_1_r. repeat split; auto.
Qed.

Lemma drain_spec (st : state) :
  message_count (drain st) = message_count st
  /\ batch_data (drain st) = batch_data st
  /\ inserts (drain st)
     = inserts st ++ drain_calls (List.length (inserts st)) (batch_data st).
Proof.
  unfold drain. pose proof (drain_fold (batch_data st) st) as H.
  simpl in H. tauto.
Qed.

Lemma drain_calls_rows (d : dict (list row)) (n : nat) :
  flat_map ic_data (drain_calls n d) = buffered d.
Proof.
  unfold buffered. revert n.
  induction d as [|[table data] d IH]; intros n; simpl; [reflexivity|].
  destruct data as [|r data]; simpl; [apply IH|].
  rewrite IH. reflexivity.
Qed.

(** The drain sends every non-empty buffer, whole. *)
Lemma drain_calls_all (d : dict (list row)) (n : nat) (table : string)
      (data : list row) :
  In (table, data) d -> data <> [] ->
  exists call, In call (drain_calls n d)
               /\ ic_table call = table /\ ic_data call = data.
Proof.
  revert n. induction d as [|[tb dt] d IH]; intros n Hin Hne; [contradiction|].
  destruct Hin as [H|H].
  - injection H as -> ->. destruct data as [|r data]; [congruence|].
    simpl. eexists. split; [left; reflexivity|]. auto.
  - destruct (IH (match dt with [] => n | _ => S n end) H Hne)
      as (call & Hc & Hrest).
    exists call. split; [|exact Hrest].
    simpl. destruct dt; [exact Hc|right; exact Hc].
Qed.

Lemma stored_le_sent (calls : list insert_call) :
  (List.length (stored calls) <= rows_sent calls)%nat.
Proof.
  unfold stored, rows_sent.
  induction calls as [|c calls IH]; simpl; [lia|].
  rewrite !length_app. destruct (ic_ok c); simpl; lia.
Qed.

Lemma stored_all_ok (calls : list insert_call) :
  Forall (fun c => ic_ok c = true) calls ->
  stored calls = flat_map ic_data calls.
Proof.
  unfold stored. induction 1 as [|c calls Hc _ IH]; simpl; [reflexivity|].
  rewrite Hc, IH. reflexivity.
Qed.

(** ** The record filter *)

Lemma mapping_cases (topic table : string) :
  dict_get topic topic_table_mapping = Some table ->
  table = "mongo_ecom_customers" \/ table = "mongo_ecom_products"
  \/ table = "mongo_ecom_orders".
Proof.
  unfold topic_table_mapping. cbn [dict_get].
  destruct (String.eqb "mongo.ecom.ecom.customers" topic);
    [intros H; injection H as <-; auto|].
  destruct (String.eqb "mongo.ecom.ecom.products" topic);
    [intros H; injection H as <-; auto|].
  destruct (String.eqb "mongo.ecom.ecom.orders" topic);
    [intros H; injection H as <-; auto|].
  discriminate.
Qed.

Lemma mapping_truthy (topic table : string) :
  dict_get topic topic_table_mapping = Some table ->
  string_truthy table = true.
Proof.
  intros H. destruct (mapping_cases topic table H) as [-> | [-> | ->]];
    reflexivity.
Qed.

Lemma kept_intro (m : message) (table : string) (text : str)
      (members : list (str * json)) :
  msg_error m = None ->
  dict_get (msg_topic m) topic_table_mapping = Some table ->
  message_text m = Ok text ->
  whitespace_only text = false ->
  json_loads text = Loaded (JObj members) ->
  eq_True (obj_get (lit "__deleted") members) = false ->
  kept m = Some (table, text).
Proof.
  intros He Ht Hx Hw Hl Hd. unfold kept.
  rewrite He, Ht, Hx, (mapping_truthy _ _ Ht), Hw, Hl, Hd. reflexivity.
Qed.

(** A kept message adds exactly one row to what is buffered or sent. *)
Lemma iteration_kept_total (m : message) (clock : Z) (st : state)
      (table : string) (text : str) :
  kept m = Some (table, text) -> buffers_exist st ->
  exists st' c,
    iteration' (brings m clock) st = (st', c)
    /\ (c = Continue \/ c = Break)
    /\ message_count st' = message_count st + 1
    /\ (List.length (buffered (batch_data st')) + rows_sent (inserts st')
        = List.length (buffered (batch_data st)) + rows_sent (inserts st) + 1)%nat.
Proof.
  intros Hk Hb. destruct (kept_buffer m table text st Hk Hb) as [buf Hget].
  destruct (iteration_kept m clock st table text buf Hk Hget)
    as (st' & Hi & Hc & Hd & Hs & _).
  exists st'. eexists. split; [exact Hi|].
  split; [destruct (limit_reached _ _ _); auto|].
  split; [exact Hc|]. rewrite Hd, Hs.
  destruct (batch_size <=? List.length (buf ++ [row_of m text clock]))%nat.
  - pose proof (buffered_set table [] buf (batch_data st) Hget) as H.
    rewrite rows_sent_app. unfold rows_sent at 2. simpl.
    rewrite app_nil_r, length_app. simpl in *. lia.
  - pose proof (buffered_set table (buf ++ [row_of m text clock]) buf
                             (batch_data st) Hget) as H.
    rewrite length_app in H. simpl in H. lia.
Qed.

(** Claim C1.  A message whose payload text is empty or whitespace-only,
    or makes [json.loads] raise, or parses to an object whose
    ['__deleted'] member is the boolean [true], is dropped: the loop goes
    on, no row is appended to any buffer, nothing is sent to the sink and
    the counter does not move.  The emptiness test comes first: on a
    mapped topic an empty or blank text leaves the state untouched
    whatever [json.loads] would say of it, while a non-blank text that
    fails to parse is reported with its first 100 characters; the
    deletion marker is read only from a parsed object. *)
Theorem filter_drops (m : message) (text : str) (t : tick) (st : state) :
  polled t = PollMsg m ->
  message_text m = Ok text ->
  (whitespace_only text = true
   \/ json_loads text = JSONDecodeError
   \/ json_loads text = LoadsRaises
   \/ exists members,
        json_loads text = Loaded (JObj members)
        /\ obj_get (lit "__deleted") members = Some (JBool true)) ->
  exists st',
    iteration' t st = (st', Continue)
    /\ batch_data st' = batch_data st
    /\ inserts st' = inserts st
    /\ message_count st' = message_count st
    /\ (msg_error m = None ->
        (exists table,
            dict_get (msg_topic m) topic_table_mapping = Some table) ->
        (whitespace_only text = true -> st' = st)
        /\ (whitespace_only text = false ->
            json_loads text = JSONDecodeError ->
            st' = logger (WarnInvalidJSON (prefix 100 text)) st)).
Proof.
  intros Hp Ht Hcase. rewrite (brings_eta t m Hp).
  assert (Hk : kept m = None).
  { unfold kept. rewrite Ht. destruct (msg_error m); [reflexivity|].
    destruct (dict_get (msg_topic m) topic_table_mapping); [|reflexivity].
    destruct (string_truthy s && negb (whitespace_only text))%bool eqn:E;
      [|reflexivity].
    destruct Hcase as [H|[H|[H|(members & H & Hd)]]].
    - rewrite H, andb_false_r in E. discriminate.
    - rewrite H. reflexivity.
    - rewrite H. reflexivity.
    - rewrite H, Hd. reflexivity. }
  destruct (iteration_dropped m (now t) st Hk) as (st' & Hi & Hc & Hb & Hs).
  exists st'. repeat split; try assumption.
  - intros Hw. unfold iteration, brings in Hi. simpl in Hi.
    rewrite H in Hi. unfold process in Hi. destruct H0 as [table Htab].
    rewrite Htab, (mapping_truthy _ _ Htab), Ht in Hi. simpl in Hi.
    rewrite blank_test, Hw in Hi. injection Hi as Hi. symmetry. exact Hi.
  - intros Hw Hl. unfold iteration, brings in Hi. simpl in Hi.
    rewrite H in Hi. unfold process in Hi. destruct H0 as [table Htab].
    rewrite Htab, (mapping_truthy _ _ Htab), Ht in Hi. simpl in Hi.
    rewrite blank_test, Hw, Hl in Hi. injection Hi as Hi. symmetry. exact Hi.
Qed.

(** Claim C7, as the code has it.  A message without error on a mapped
    topic whose text is not blank and parses to a JSON object whose
    ['__deleted'] member is absent or not equal to [True] is kept: one row
    is appended to the buffer of the destination table, with [raw_data]
    the decoded payload text itself, and the counter grows by one.  When
    the append brings the buffer to the threshold the whole buffer,
    ending with that row, is handed to the sink and replaced by an empty
    one. *)
Theorem object_payload_kept (m : message) (t : tick) (st : state)
        (table : string) (text : str) (members : list (str * json)) :
  polled t = PollMsg m ->
  msg_error m = None ->
  dict_get (msg_topic m) topic_table_mapping = Some table ->
  message_text m = Ok text ->
  whitespace_only text = false ->
  json_loads text = Loaded (JObj members) ->
  eq_True (obj_get (lit "__deleted") members) = false ->
  buffers_exist st ->
  exists (st' : state) (c : control) (buf : list row) (r : row),
    iteration' t st = (st', c)
    /\ (c = Continue \/ c = Break)
    /\ dict_get table (batch_data st) = Some buf
    /\ raw_data r = text
    /\ kafka_offset r = msg_offset m
    /\ kafka_partition r = msg_partition m
    /\ message_count st' = message_count st + 1
    /\ ((List.length buf + 1 < batch_size)%nat ->
        batch_data st' = dict_set table (buf ++ [r]) (batch_data st)
        /\ inserts st' = inserts st)
    /\ ((batch_size <= List.length buf + 1)%nat ->
        batch_data st' = dict_set table [] (batch_data st)
        /\ inserts st'
           = inserts st
             ++ [{| ic_table := table; ic_data := buf ++ [r];
                    ic_ok := insert_ok (List.length (inserts st)) |}]).
Proof.
  intros Hp He Htab Ht Hw Hl Hd Hb.
  pose proof (kept_intro m table text members He Htab Ht Hw Hl Hd) as Hk.
  destruct (kept_buffer m table text st Hk Hb) as [buf Hget].
  destruct (iteration_kept m (now t) st table text buf Hk Hget)
    as (st' & Hi & Hc & Hbd & Hs & _).
  rewrite <- (brings_eta t m Hp) in Hi.
  exists st'. eexists. exists buf, (row_of m text (now t)).
  split; [exact Hi|].
  split; [destruct (limit_reached _ _ _); auto|].
  repeat (split; [first [assumption | reflexivity]|]).
  rewrite Hbd, Hs, length_app. simpl List.length.
  split; intros Hlen.
  - destruct (batch_size <=? List.length buf + 1)%nat eqn:E;
      [apply Nat.leb_le in E; lia|].
    auto.
  - destruct (batch_size <=? List.length buf + 1)%nat eqn:E; [auto|].
    apply Nat.leb_gt in E. lia.
Qed.

(** Claim C9.  A message whose bytes are not valid UTF-8 is never stored:
    no buffer, no sink call and no counter changes, and the loop goes on
    with the next poll.  On a mapped topic the decoding error is raised
    inside the per-message [try] and caught by its handler, which records
    it with [logger.error]. *)
Theorem undecodable_dropped (m : message) (v : bytes) (t : tick)
        (rest : list tick) (st : state) :
  polled t = PollMsg m ->
  msg_value m = Some v ->
  utf8_decode v = None ->
  (exists st',
      iteration' t st = (st', Continue)
      /\ batch_data st' = batch_data st
      /\ inserts st' = inserts st
      /\ message_count st' = message_count st
      /\ loop' (t :: rest) st = loop' rest st')
  /\ (msg_error m = None ->
      (exists table,
          dict_get (msg_topic m) topic_table_mapping = Some table) ->
      iteration' t st
      = (logger (ErrorProcessing UnicodeDecodeError) st, Continue)).
Proof.
  intros Hp Hv Hu.
  assert (Ht : message_text m = Raised UnicodeDecodeError).
  { unfold message_text. rewrite Hv. destruct v; [discriminate|].
    simpl bytes_truthy. cbv iota. rewrite Hu. reflexivity. }
  split.
  - assert (Hk : kept m = None).
    { unfold kept. rewrite Ht. destruct (msg_error m); [reflexivity|].
      destruct (dict_get _ _); reflexivity. }
    destruct (iteration_dropped m (now t) st Hk) as (st' & Hi & Hc & Hb & Hs).
    rewrite <- (brings_eta t m Hp) in Hi.
    exists st'. repeat split; try assumption.
    simpl. rewrite Hi. reflexivity.
  - intros He [table Htab]. unfold iteration. rewrite Hp, He.
    unfold process. rewrite Htab, (mapping_truthy _ _ Htab), Ht. reflexivity.
Qed.

(** Claim C10.  For an object payload on a mapped topic, the message is
    dropped exactly when the value of ['__deleted'] is equal to [True]
    under Python's [==]: so with the number 1 (or the boolean [true]) it
    is dropped and never stored, and with the string ["true"], with
    [false] or without the member it is kept. *)
Theorem deleted_equal_to_True_dropped (m : message) (t : tick) (st : state)
        (table : string) (text : str) (members : list (str * json)) :
  polled t = PollMsg m ->
  msg_error m = None ->
  dict_get (msg_topic m) topic_table_mapping = Some table ->
  message_text m = Ok text ->
  whitespace_only text = false ->
  json_loads text = Loaded (JObj members) ->
  buffers_exist st ->
  let marker := obj_get (lit "__deleted") members in
  (marker = Some (JInt 1) \/ marker = Some (JBool true) ->
   iteration' t st = (st, Continue))
  /\ (eq_True marker = true -> iteration' t st = (st, Continue))
  /\ (eq_True marker = false ->
      exists st' c,
        iteration' t st = (st', c)
        /\ message_count st' = message_count st + 1
        /\ (List.length (buffered (batch_data st')) + rows_sent (inserts st')
            = List.length (buffered (batch_data st))
              + rows_sent (inserts st) + 1)%nat)
  /\ (marker = None \/ marker = Some (JBool false)
      \/ marker = Some (JStr (lit "true")) ->
      eq_True marker = false).
Proof.
  intros Hp He Htab Ht Hw Hl Hb marker.
  assert (Hdrop : eq_True marker = true -> iteration' t st = (st, Continue)).
  { intros Hd. unfold iteration. rewrite Hp, He. unfold process.
    rewrite Htab, (mapping_truthy _ _ Htab), Ht. simpl.
    rewrite blank_test, Hw, Hl. fold marker. rewrite Hd. reflexivity. }
  repeat split.
  - intros [H|H]; apply Hdrop; rewrite H; reflexivity.
  - exact Hdrop.
  - intros Hd.
    pose proof (kept_intro m table text members He Htab Ht Hw Hl Hd) as Hk.
    destruct (iteration_kept_total m (now t) st table text Hk Hb)
      as (st' & c & Hi & _ & Hc & Hn).
    rewrite <- (brings_eta t m Hp) in Hi. exists st', c. auto.
  - intros [H|[H|H]]; rewrite H; reflexivity.
Qed.

(** ** The batch accumulator *)

Lemma drain_calls_In (d : dict (list row)) (n : nat) (call : insert_call) :
  In call (drain_calls n d) -> In (ic_table call, ic_data call) d.
Proof.
  revert n. induction d as [|[table data] d IH]; intros n; simpl;
    [contradiction|].
  destruct data as [|r data].
  - intros H. right. eapply IH, H.
  - intros [H|H]; [left; subst call; reflexivity|right; eapply IH, H].
Qed.


(** ** The message limit *)

Lemma iteration_calm (t : tick) (st st' : state) (c : control) :
  calm timeout_seconds start_time t -> row_for t = None ->
  iteration' t st = (st', c) -> c = Continue.
Proof.
  unfold calm, row_for. destruct (polled t) as [|m| |] eqn:Ep;
    try contradiction.
  - intros Hcalm _. unfold iteration. rewrite Ep.
    destruct (truthy timeout_seconds).
    + specialize (Hcalm eq_refl).
      replace (now t - start_time >? or_zero timeout_seconds) with false
        by (symmetry; rewrite Z.gtb_ltb; apply Z.ltb_ge; lia).
      rewrite andb_false_r. congruence.
    + rewrite andb_false_r. simpl. congruence.
  - intros _ Hk. destruct (kept m) as [[tb tx]|] eqn:Ek; [discriminate|].
    destruct (iteration_dropped m (now t) st Ek) as (st1 & Hi & _).
    rewrite <- (brings_eta t m Ep) in Hi. congruence.
Qed.

Lemma rows_for_cons (t : tick) (ticks : list tick) :
  rows_for (t :: ticks)
  = match row_for t with
    | Some (_, r) => r :: rows_for ticks
    | None => rows_for ticks
    end.
Proof. unfold rows_for. simpl. destruct (row_for t) as [[tb r]|]; auto. Qed.


(** Below the limit, calm polls leave the loop running, and the counter
    counts the kept messages only. *)
Lemma loop_under_limit (ticks : list tick) :
  forall st : state,
    steady st ->
    Forall (calm timeout_seconds start_time) ticks ->
    (forall k, 0 < k <= Z.of_nat (List.length (rows_for ticks)) ->
               limit_reached max_messages realtime (message_count st + k)
               = false) ->
    exists st',
      loop' ticks st = (st', Continue)
      /\ message_count st'
         = message_count st + Z.of_nat (List.length (rows_for ticks))
      /\ steady st'.
Proof.
  induction ticks as [|t ticks IH]; intros st Hst Hcalm Hlim.
  - exists st. simpl. rewrite Z.add_0_r. auto.
  - inversion Hcalm as [|? ? Ht Hrest]; subst.
    destruct (iteration_cases t st (proj1 Hst)) as (st1 & c & Hi & Hcase).
    pose proof (steady_iteration t st st1 c Hst Hi) as Hst1.
    rewrite rows_for_cons in *.
    destruct Hcase as [(Hnone & Hc & _)
                      |(table & r & buf & Hsome & _ & Hctl & Hc & _)].
    + rewrite Hnone in *.
      pose proof (iteration_calm t st st1 c Ht Hnone Hi) as ->.
      destruct (IH st1 Hst1 Hrest) as (st2 & Hl & Hc2 & Hst2).
      { intros k Hk. rewrite Hc. apply Hlim, Hk. }
      exists st2. simpl. rewrite Hi. split; [exact Hl|].
      split; [congruence|exact Hst2].
    + rewrite Hsome in *. simpl List.length in *.
      rewrite (Hlim 1) in Hctl by lia. subst c.
      destruct (IH st1 Hst1 Hrest) as (st2 & Hl & Hc2 & Hst2).
      { intros k Hk. rewrite Hc.
        replace (message_count st + 1 + k) with (message_count st + (k + 1))
          by lia.
        apply Hlim. lia. }
      exists st2. simpl. rewrite Hi. split; [exact Hl|].
      split; [lia|exact Hst2].
Qed.

(** The loop stops at the kept message that brings the counter to the
    limit, whatever follows. *)
Lemma loop_hits_limit (pre post : list tick) (t : tick) (st : state)
      (table : string) (r : row) :
  steady st ->
  Forall (calm timeout_seconds start_time) pre ->
  (forall k, 0 < k <= Z.of_nat (List.length (rows_for pre)) ->
             limit_reached max_messages realtime (message_count st + k)
             = false) ->
  row_for t = Some (table, r) ->
  limit_reached max_messages realtime
                (message_count st + Z.of_nat (List.length (rows_for pre)) + 1)
  = true ->
  exists st',
    loop' (pre ++ t :: post) st = (st', Break)
    /\ message_count st'
       = message_count st + Z.of_nat (List.length (rows_for pre)) + 1
    /\ steady st'.
Proof.
  intros Hst Hcalm Hlim Hrow Hhit.
  destruct (loop_under_limit pre st Hst Hcalm Hlim) as (st1 & Hl & Hc & Hst1).
  destruct (iteration_cases t st1 (proj1 Hst1)) as (st2 & c & Hi & Hcase).
  pose proof (steady_iteration t st1 st2 c Hst1 Hi) as Hst2.
  destruct Hcase as [(Hnone & _)|(tb & r' & buf & _ & _ & Hctl & Hc2 & _)];
    [congruence|].
  rewrite Hc, Hhit in Hctl. subst c.
  exists st2. rewrite loop_app, Hl. simpl. rewrite Hi.
  repeat split; [lia|apply Hst2..].
Qed.

(** ** A failed flush *)

Lemma stored_app (a b : list insert_call) :
  stored (a ++ b) = stored a ++ stored b.
Proof. unfold stored. apply flat_map_app. Qed.

Lemma batch_size_positive : (0 < batch_size)%nat.
Proof. unfold batch_size. lia. Qed.

(** Claim C5.  When the insert of a full batch fails, the failure is
    logged and goes no further: the loop continues, the table's buffer is
    replaced by an empty one and the other buffers are untouched, so the
    batch's rows are neither stored nor kept for a retry.  The next full
    batch of that table, made of the next [batch_size] kept messages
    only, is sent in the next insert call and stored when that call
    succeeds. *)
Theorem failed_flush_discarded (t : tick) (st : state) (table : string)
        (r : row) (buf : list row) (ticks2 : list tick) (rows2 : list row) :
  row_for t = Some (table, r) ->
  dict_get table (batch_data st) = Some buf ->
  (List.length buf + 1 = batch_size)%nat ->
  insert_ok (List.length (inserts st)) = false ->
  limit_reached max_messages realtime (message_count st + 1) = false ->
  exists st',
    iteration' t st = (st', Continue)
    /\ dict_get table (batch_data st') = Some []
    /\ (forall other, other <> table ->
                      dict_get other (batch_data st')
                      = dict_get other (batch_data st))
    /\ inserts st'
       = inserts st
         ++ [{| ic_table := table; ic_data := buf ++ [r]; ic_ok := false |}]
    /\ stored (inserts st') = stored (inserts st)
    /\ In (ErrorInserting table) (log st')
    /\ (map row_for ticks2 = map (fun r2 => Some (table, r2)) rows2 ->
        List.length rows2 = batch_size ->
        insert_ok (S (List.length (inserts st))) = true ->
        (forall k, 0 < k <= Z.of_nat batch_size ->
                   limit_reached max_messages realtime
                                 (message_count st' + k) = false) ->
        exists st'',
          loop' (t :: ticks2) st = (st'', Continue)
          /\ inserts st''
             = inserts st'
               ++ [{| ic_table := table; ic_data := rows2; ic_ok := true |}]
          /\ stored (inserts st'') = stored (inserts st) ++ rows2
          /\ dict_get table (batch_data st'') = Some []).
Proof.
  intros Hrow Hget Hlen Hfail Hlim.
  destruct (row_for_inv t table r Hrow) as (m & text & Et & Hk & Er).
  destruct (iteration_kept m (now t) st table text buf Hk Hget)
    as (st' & Hi & Hc & Hd & Hs & Hlog).
  rewrite <- Et, <- Er in *. rewrite Hlim in Hi.
  assert (Hfull : (batch_size <=? List.length (buf ++ [r]))%nat = true).
  { apply Nat.leb_le. rewrite length_app. simpl. lia. }
  rewrite Hfull in *. rewrite Hfail in Hs.
  assert (Hempty : dict_get table (batch_data st') = Some []).
  { rewrite Hd. apply dict_get_set_same with (w := buf). exact Hget. }
  assert (Hstored : stored (inserts st') = stored (inserts st)).
  { rewrite Hs, stored_app. unfold stored at 2. simpl. apply app_nil_r. }
  exists st'. repeat (split; [first [assumption|auto]|]).
  { intros other Hne. rewrite Hd. apply dict_get_set_other. congruence. }
  repeat (split; [first [assumption|auto]|]).
  intros Hrows Hlen2 Hok Hlim2.
  destruct (loop_feed table ticks2 rows2 st' [] Hrows Hempty)
    as (st2 & Hl & Hc2 & Hd2 & Hs2).
  { intros k Hk'. apply Hlim2. lia. }
  assert (Hfeed : feed [] rows2 = ([rows2], [])).
  { rewrite <- (app_nil_r rows2) at 1. rewrite feed_full.
    - reflexivity.
    - destruct rows2; [|discriminate]. simpl in Hlen2.
      pose proof batch_size_positive. lia.
    - simpl. exact Hlen2. }
  rewrite Hfeed in *. simpl in Hd2, Hs2.
  assert (Hn : List.length (inserts st') = S (List.length (inserts st))).
  { rewrite Hs, length_app. simpl. lia. }
  rewrite Hn, Hok in Hs2.
  exists st2. simpl loop. rewrite Hi.
  repeat split.
  - exact Hl.
  - exact Hs2.
  - rewrite Hs2, stored_app, Hstored. unfold stored at 2. simpl.
    rewrite app_nil_r. reflexivity.
  - rewrite Hd2. apply dict_get_set_same with (w := []). exact Hempty.
Qed.

End Steps.

(** ** Bounded runs *)

Lemma limit_reached_batch (n count : Z) :
  0 < n -> limit_reached (Some n) false count = (n <=? count).
Proof.
  intros Hn. unfold limit_reached. simpl.
  replace (n =? 0) with false by (symmetry; apply Z.eqb_neq; lia).
  simpl. apply Z.geb_leb.
Qed.



Lemma rows_sent_drain (st : state) :
  rows_sent (inserts (drain st))
  = (rows_sent (inserts st) + List.length (buffered (batch_data st)))%nat.
Proof.
  destruct (drain_spec st) as (_ & _ & Hi).
  rewrite Hi, rows_sent_app. unfold rows_sent at 2.
  rewrite drain_calls_rows. reflexivity.
Qed.

(** What a bounded run drains, it sends whole: every non-empty buffer
    is the data of one insert call. *)
Lemma bounded_drain_flushes_all (max_messages timeout_seconds : option Z)
      (realtime : bool) (b : broker) (st : state) (table : string)
      (data : list row) :
  consume_and_load max_messages timeout_seconds realtime b = (st, Drained) ->
  In (table, data) (batch_data st) -> data <> [] ->
  exists call, In call (inserts st)
               /\ ic_table call = table /\ ic_data call = data.
Proof.
  unfold consume_and_load. destruct (subscribe_ok b); [|discriminate].
  destruct (loop _ _ _ _ _ _) as [st1 c]. destruct c; try discriminate.
  intros H. injection H as <-. simpl.
  destruct (drain_spec st1) as (_ & Hb & Hi). rewrite Hb, Hi.
  intros Hin Hne.
  destruct (drain_calls_all (batch_data st1) (List.length (inserts st1))
                            table data Hin Hne) as (call & Hc & Hrest).
  exists call. split; [apply in_or_app; right; exact Hc|exact Hrest].
Qed.

(** Claim C3, as the code has it.  In bounded mode with a message limit
    of 50 and a time cap that does not expire, the counter counts the
    kept messages only: however many messages were polled and dropped,
    the loop is still polling while fewer than 50 were kept, and it stops
    and drains exactly at the 50th kept message, whatever the broker
    would still supply.  Exactly 50 rows are handed to the sink, so at
    most 50 are stored. *)
Theorem limit_counts_kept_messages (timeout_seconds : option Z) (start : Z)
        (pre post : list tick) (t : tick) :
  Forall (calm timeout_seconds start) pre ->
  List.length (rows_for pre) = 49%nat ->
  row_for t <> None ->
  let run_on polls :=
    consume_and_load (Some 50) timeout_seconds false
                     {| subscribe_ok := true; started := start;
                        ticks := polls |} in
  (exists st0, run_on pre = (st0, Polling) /\ message_count st0 = 49)
  /\ exists st,
      run_on (pre ++ t :: post) = (st, Drained)
      /\ message_count st = 50
      /\ rows_sent (inserts st) = 50%nat
      /\ (List.length (stored (inserts st)) <= 50)%nat.
Proof.
  intros Hcalm Hlen Hrow run_on.
  assert (Hlim : forall k, 0 < k <= Z.of_nat (List.length (rows_for pre)) ->
                           limit_reached (Some 50) false
                                         (message_count initial_state + k)
                           = false).
  { intros k Hk. rewrite limit_reached_batch by lia. simpl.
    apply Z.leb_gt. lia. }
  split.
  - destruct (loop_under_limit (Some 50) timeout_seconds false start pre
                               initial_state steady_initial Hcalm Hlim)
      as (st0 & Hl & Hc & _).
    exists st0. unfold run_on, consume_and_load. simpl. rewrite Hl.
    split; [reflexivity|]. rewrite Hc, Hlen. reflexivity.
  - destruct (row_for t) as [[table r]|] eqn:Er; [|congruence].
    destruct (loop_hits_limit (Some 50) timeout_seconds false start pre post
                              t initial_state table r steady_initial Hcalm
                              Hlim Er) as (st1 & Hl & Hc & Hst).
    { rewrite limit_reached_batch by lia. rewrite Hlen. reflexivity. }
    rewrite Hlen in Hc. simpl in Hc.
    destruct Hst as (_ & _ & _ & Htotal).
    destruct (drain_spec st1) as (Hdc & _ & _).
    assert (Hsent : rows_sent (inserts (drain st1)) = 50%nat).
    { rewrite rows_sent_drain. lia. }
    eexists. unfold run_on, consume_and_load. simpl. rewrite Hl.
    split; [reflexivity|]. simpl.
    repeat split.
    + congruence.
    + exact Hsent.
    + rewrite <- Hsent. apply stored_le_sent.
Qed.

(** ** Scenario: 250 messages of one topic *)







(** ** Continuous runs and the driver *)

(** In continuous mode no iteration ends the loop by [break]. *)
Lemma store_realtime (max_messages : option Z) (table : string) (text : str)
      (m : message) (clock : Z) (st st' : state) (c : control) :
  store max_messages true table text m clock st = Ok (st', c) ->
  c = Continue.
Proof.
  unfold store. destruct (dict_get table (batch_data st)); [|discriminate].
  cbn [negb andb]. intros H. injection H as _ <-. reflexivity.
Qed.

Lemma process_realtime (max_messages : option Z) (m : message) (clock : Z)
      (st st' : state) (c : control) :
  process max_messages true m clock st = Ok (st', c) -> c = Continue.
Proof.
  unfold process.
  destruct (dict_get (msg_topic m) topic_table_mapping) as [table|];
    [|intros H; injection H as _ <-; reflexivity].
  destruct (negb (string_truthy table));
    [intros H; injection H as _ <-; reflexivity|].
  destruct (message_text m) as [text|]; [|discriminate].
  destruct (_ || _)%bool; [intros H; injection H as _ <-; reflexivity|].
  destruct (json_loads text) as [[]| |]; try discriminate;
    try (intros H; injection H as _ <-; reflexivity).
  destruct (eq_True _); [intros H; injection H as _ <-; reflexivity|].
  apply store_realtime.
Qed.

Lemma iteration_realtime (max_messages timeout_seconds : option Z)
      (start : Z) (t : tick) (st st' : state) (c : control) :
  iteration max_messages timeout_seconds true start t st = (st', c) ->
  c <> Break.
Proof.
  unfold iteration. destruct (polled t) as [|m| |].
  - cbn [negb andb]. intros H. injection H as _ <-. discriminate.
  - destruct (msg_error m) as [code|].
    + destruct (code =? PARTITION_EOF); intros H; injection H as _ <-;
        discriminate.
    + destruct (process max_messages true m (now t) st) as [[st1 c1]|e] eqn:E.
      * apply process_realtime in E. intros H. injection H as _ <-.
        subst c1. discriminate.
      * intros H. injection H as _ <-. discriminate.
  - intros H. injection H as _ <-. discriminate.
  - intros H. injection H as _ <-. discriminate.
Qed.

(** So a continuous run never reaches the drain. *)
Lemma realtime_never_drains (max_messages timeout_seconds : option Z)
      (b : broker) :
  snd (consume_and_load max_messages timeout_seconds true b) <> Drained.
Proof.
  unfold consume_and_load. destruct (subscribe_ok b); [|discriminate].
  generalize initial_state.
  induction (ticks b) as [|t rest IH]; intros st; simpl; [discriminate|].
  destruct (iteration _ _ _ _ t st) as [st1 c] eqn:Hi.
  apply iteration_realtime in Hi.
  destruct c; try discriminate; [apply IH|congruence].
Qed.

(** Claim C8, as the code has it.  When the sink client cannot be
    created the exception leaves [main] uncaught: the process ends with
    exit status 1 before any statement is sent and before anything is
    consumed.  Once the client exists, a failed connection test (the
    test query or the broker's topic listing raises) makes [main] return
    at once: only the test query was sent, no table was created or
    truncated, the consumer was never created and nothing was consumed
    or inserted; the process ends by a normal return, with exit status
    0.  A failing table creation is logged by [create_tables] and stops
    nothing: with both connections up and whatever the sink answered to
    the three statements, in every mode ([--batch], [--reset],
    [--realtime], any other first argument or none, the help flags
    apart) [main] sends the three statements after the test query and
    goes on to [consume_and_load] with the parameters of the mode. *)
Theorem startup_failures_as_coded (argv : list string) (w : world) :
  (client_ok w = false ->
   ended (main argv w) = Uncaught
   /\ exit_status (ended (main argv w)) = Some 1
   /\ run (main argv w) = None
   /\ commands (main argv w) = [])
  /\ (client_ok w = true ->
      command_ok w SelectOne = false \/ kafka_ok w = false ->
      ended (main argv w) = Returned
      /\ exit_status (ended (main argv w)) = Some 0
      /\ run (main argv w) = None
      /\ forall c ok, In (c, ok) (commands (main argv w)) -> c = SelectOne)
  /\ (client_ok w = true ->
      command_ok w SelectOne = true -> kafka_ok w = true ->
      nth_error argv 1 <> Some "--help" -> nth_error argv 1 <> Some "-h" ->
      (exists later,
          commands (main argv w)
          = (SelectOne, true) :: create_tables w ++ later)
      /\ (nth_error argv 1 = Some "--batch" ->
          run (main argv w)
          = Some (consume_and_load (Some 3500) (Some 60) false
                                   (the_broker w)))
      /\ (nth_error argv 1 = Some "--reset" ->
          run (main argv w)
          = Some (consume_and_load (Some 5000) (Some 120) false
                                   (the_broker w)))
      /\ (nth_error argv 1 <> Some "--batch" ->
          nth_error argv 1 <> Some "--reset" ->
          run (main argv w)
          = Some (consume_and_load None None true (the_broker w))
          /\ commands (main argv w)
             = (SelectOne, true) :: create_tables w
               ++ match snd (consume_and_load None None true
                                              (the_broker w)) with
                  | Polling => []
                  | _ => show_stats w
                  end)).
Proof.
  split; [|split].
  - intros Hc. unfold main. rewrite Hc. cbn [negb]. repeat split.
  - intros Hc Hfail. unfold main. rewrite Hc. cbn [negb].
    destruct (_ || _)%bool; [simpl; intuition|].
    unfold test_connections.
    assert (E : (command_ok w SelectOne && kafka_ok w)%bool = false).
    { destruct Hfail as [-> | ->]; [reflexivity|apply andb_false_r]. }
    rewrite E. simpl. repeat split.
    intros c ok [H|[]]. congruence.
  - intros Hc Hs Hk Hhelp Hh.
    assert (Eh : match nth_error argv 1 with
                 | Some x => String.eqb x "--help"
                 | None => false
                 end = false).
    { destruct (nth_error argv 1) as [x|]; [|reflexivity].
      apply String.eqb_neq. congruence. }
    assert (Es : match nth_error argv 1 with
                 | Some x => String.eqb x "-h"
                 | None => false
                 end = false).
    { destruct (nth_error argv 1) as [x|]; [|reflexivity].
      apply String.eqb_neq. congruence. }
    unfold main. rewrite Hc, Eh, Es. cbn [negb orb].
    unfold test_connections. rewrite Hs, Hk. cbn [andb negb send map].
    rewrite Hs.
    destruct (nth_error argv 1) as [x|].
    + destruct (String.eqb_spec x "--batch") as [->|Hnb].
      * cbn [orb negb String.eqb Ascii.eqb Bool.eqb andb].
        destruct (consume_and_load (Some 3500) (Some 60) false
                                   (the_broker w)) as [st e].
        split; [|split; [|split]].
        -- destruct e; cbn [snd commands app];
             rewrite <- ?app_assoc; eexists; reflexivity.
        -- intros _. destruct e; reflexivity.
        -- intros H. discriminate H.
        -- intros H. congruence.
      * destruct (String.eqb_spec x "--reset") as [->|Hnr].
        -- cbn [orb negb].
           destruct (consume_and_load (Some 5000) (Some 120) false
                                      (the_broker w)) as [st e].
           split; [|split; [|split]].
           ++ destruct e; cbn [snd commands app];
                rewrite <- ?app_assoc; eexists; reflexivity.
           ++ intros H. discriminate H.
           ++ intros _. destruct e; reflexivity.
           ++ intros _ H. congruence.
        -- cbn [orb negb].
           destruct (consume_and_load None None true (the_broker w))
             as [st e].
           split; [|split; [|split]].
           ++ destruct e; cbn [snd commands app];
                rewrite <- ?app_assoc; eexists; reflexivity.
           ++ intros H. congruence.
           ++ intros H. congruence.
           ++ intros _ _. destruct e; cbn [snd commands run app];
                rewrite ?app_nil_r; split; reflexivity.
    + cbn [orb negb].
      destruct (consume_and_load None None true (the_broker w)) as [st e].
      split; [|split; [|split]].
      * destruct e; cbn [snd commands app];
          rewrite <- ?app_assoc; eexists; reflexivity.
      * intros H. discriminate H.
      * intros H. discriminate H.
      * intros _ _. destruct e; cbn [snd commands run app];
          rewrite ?app_nil_r; split; reflexivity.
Qed.

(** ** Runs: what the log and the dropped messages do not change *)

Section Runs.

Variables (max_messages timeout_seconds : option Z) (realtime : bool).
Variable start_time : Z.

Local Abbreviation iteration' :=
  (iteration max_messages timeout_seconds realtime start_time).
Local Abbreviation loop' :=
  (loop max_messages timeout_seconds realtime start_time).

Lemma same_core_refl (st : state) : same_core st st.
Proof. unfold same_core. auto. Qed.

Lemma same_core_trans (a b c : state) :
  same_core a b -> same_core b c -> same_core a c.
Proof. unfold same_core. intros (? & ? & ?) (? & ? & ?). repeat split; congruence. Qed.

Lemma same_core_sym (a b : state) : same_core a b -> same_core b a.
Proof. unfold same_core. intros (? & ? & ?). auto. Qed.

Lemma same_core_logger (e : log_entry) (st : state) :
  same_core (logger e st) st.
Proof. unfold same_core. auto. Qed.

Lemma store_same_core (table : string) (text : str) (m : message) (clock : Z)
      (a b : state) :
  same_core a b ->
  match store max_messages realtime table text m clock a,
        store max_messages realtime table text m clock b with
  | Ok (a', ca), Ok (b', cb) => ca = cb /\ same_core a' b'
  | Raised ea, Raised eb => ea = eb
  | _, _ => False
  end.
Proof.
  intros (Hc & Hb & Hi).
  destruct (dict_get table (batch_data a)) as [buf|] eqn:Hget.
  - destruct (store_spec max_messages realtime table text m clock a buf Hget)
      as (a' & Ha & Hca & Hba & Hia & _).
    rewrite Hb in Hget.
    destruct (store_spec max_messages realtime table text m clock b buf Hget)
      as (b' & Hb' & Hcb & Hbb & Hib & _).
    rewrite Ha, Hb', Hc. split; [reflexivity|].
    unfold same_core. rewrite Hca, Hcb, Hba, Hbb, Hia, Hib, Hc, Hb, Hi.
    auto.
  - unfold store. rewrite <- Hb, Hget. reflexivity.
Qed.

(** The log is write-only: two states with the same counter, buffers and
    sink calls take the same step. *)
Lemma iteration_same_core (t : tick) (a b : state) :
  same_core a b ->
  snd (iteration' t a) = snd (iteration' t b)
  /\ same_core (fst (iteration' t a)) (fst (iteration' t b)).
Proof.
  intros Hab. unfold iteration.
  destruct (polled t) as [|m| |]; try (split; [reflexivity|exact Hab]).
  - destruct (_ && _)%bool; split; try reflexivity; exact Hab.
  - assert (Hlog : forall e, same_core (logger e a) (logger e b)).
    { intros e. exact Hab. }
    destruct (msg_error m) as [code|].
    { destruct (code =? PARTITION_EOF); split; try reflexivity; apply Hlog. }
    unfold process.
    destruct (dict_get (msg_topic m) topic_table_mapping) as [table|];
      [|split; [reflexivity|apply Hlog]].
    destruct (negb (string_truthy table));
      [split; [reflexivity|apply Hlog]|].
    destruct (message_text m) as [text|e];
      [|split; [reflexivity|apply Hlog]].
    destruct (_ || _)%bool; [split; [reflexivity|exact Hab]|].
    destruct (json_loads text) as [[]| |];
      try (split; [reflexivity|apply Hlog]).
    destruct (eq_True _); [split; [reflexivity|exact Hab]|].
    pose proof (store_same_core table text m (now t) a b Hab) as Hs.
    destruct (store max_messages realtime table text m (now t) a)
      as [[a' ca]|ea];
      destruct (store max_messages realtime table text m (now t) b)
      as [[b' cb]|eb]; try contradiction.
    + exact Hs.
    + subst eb. split; [reflexivity|apply Hlog].
Qed.

Lemma loop_same_core (polls : list tick) :
  forall a b : state,
    same_core a b ->
    snd (loop' polls a) = snd (loop' polls b)
    /\ same_core (fst (loop' polls a)) (fst (loop' polls b)).
Proof.
  induction polls as [|t rest IH]; intros a b Hab; simpl; [auto|].
  destruct (iteration_same_core t a b Hab) as [Hc Hs].
  destruct (iteration' t a) as [a' ca]. destruct (iteration' t b) as [b' cb].
  simpl in Hc, Hs. subst cb. destruct ca; auto.
Qed.

(** Extra X1.  The messages the filter drops (tombstones, blank or
    malformed payloads, undecodable bytes, unknown topics, broker error
    events) are invisible to the rest of the run: taking them out of the
    polls changes neither how the loop ends nor the counter, the buffers
    and the calls made on the sink. *)
Theorem dropped_messages_invisible (polls : list tick) (st : state) :
  let with_all := loop' polls st in
  let without := loop' (filter (fun t => negb (dropped t)) polls) st in
  snd with_all = snd without
  /\ same_core (fst with_all) (fst without).
Proof.
  revert st. induction polls as [|t rest IH]; intros st; cbv zeta.
  - split; [reflexivity|apply same_core_refl].
  - cbn [filter]. destruct (dropped t) eqn:Ed; cbn [negb loop].
    + unfold dropped in Ed.
      destruct (polled t) as [|m| |] eqn:Ep; try discriminate.
      destruct (kept m) as [[tb tx]|] eqn:Ek; [discriminate|].
      destruct (iteration_dropped max_messages timeout_seconds realtime
                                  start_time m (now t) st Ek)
        as (st1 & Hi & Hc & Hb & Hs).
      rewrite <- (brings_eta t m Ep) in Hi. rewrite Hi.
      destruct (IH st1) as [IHc IHs].
      destruct (loop_same_core (filter (fun t => negb (dropped t)) rest)
                               st1 st) as [Lc Ls];
        [unfold same_core; auto|].
      split; [congruence|]. eapply same_core_trans; eassumption.
    + destruct (iteration' t st) as [st1 c]. destruct c;
        [apply IH|split; [reflexivity|apply same_core_refl]..].
Qed.

(** ** Runs: where the rows go *)

Local Abbreviation consumed' :=
  (consumed max_messages timeout_seconds realtime start_time).

Lemma sent_to_app (table : string) (a b : list insert_call) :
  sent_to table (a ++ b) = sent_to table a ++ sent_to table b.
Proof. unfold sent_to. apply flat_map_app. Qed.

Lemma rows_to_app (table : string) (a b : list tick) :
  rows_to table (a ++ b) = rows_to table a ++ rows_to table b.
Proof. unfold rows_to. apply flat_map_app. Qed.

(** One poll adds the row of a kept message to the rows of its table,
    buffered or sent, and to no other table. *)
Lemma iteration_rows (t : tick) (st st' : state) (c : control)
      (table : string) :
  steady st ->
  iteration' t st = (st', c) ->
  sent_to table (inserts st') ++ buffer_of table st'
  = (sent_to table (inserts st) ++ buffer_of table st) ++ rows_to table [t].
Proof.
  intros Hst Hi.
  destruct (iteration_cases max_messages timeout_seconds realtime start_time
                            t st (proj1 Hst)) as (st1 & c1 & Hi1 & Hcase).
  rewrite Hi in Hi1. injection Hi1 as <- <-.
  unfold rows_to, buffer_of. simpl. rewrite app_nil_r.
  destruct Hcase as [(Hnone & _ & Hb & Hs)
                    |(tb & r & buf & Hsome & Hget & _ & _ & Hb & Hs)].
  - rewrite Hnone, Hb, Hs, app_nil_r. reflexivity.
  - rewrite Hsome, Hb, Hs.
    destruct (String.eqb_spec tb table) as [->|Hne].
    + rewrite Hget.
      destruct (batch_size <=? List.length (buf ++ [r]))%nat.
      * rewrite (dict_get_set_same table [] buf _ Hget), sent_to_app.
        unfold sent_to at 2. simpl. rewrite String.eqb_refl, !app_nil_r.
        rewrite app_assoc. reflexivity.
      * rewrite (dict_get_set_same table (buf ++ [r]) buf _ Hget).
        rewrite app_assoc. reflexivity.
    + rewrite dict_get_set_other by exact Hne. rewrite app_nil_r.
      destruct (batch_size <=? List.length (buf ++ [r]))%nat;
        [|reflexivity].
      rewrite sent_to_app. unfold sent_to at 2. simpl.
      destruct (String.eqb_spec tb table); [contradiction|].
      rewrite !app_nil_r. reflexivity.
Qed.

Lemma loop_rows (table : string) (polls : list tick) :
  forall st : state,
    steady st ->
    let st' := fst (loop' polls st) in
    sent_to table (inserts st') ++ buffer_of table st'
    = (sent_to table (inserts st) ++ buffer_of table st)
      ++ rows_to table (consumed' polls st).
Proof.
  induction polls as [|t rest IH]; intros st Hst; cbv zeta.
  - simpl. unfold rows_to. simpl. rewrite app_nil_r. reflexivity.
  - cbn [loop consumed].
    destruct (iteration' t st) as [st1 c] eqn:Hi.
    pose proof (iteration_rows t st st1 c table Hst Hi) as Hstep.
    pose proof (steady_iteration max_messages timeout_seconds realtime
                                 start_time t st st1 c Hst Hi) as Hst1.
    destruct c; try exact Hstep.
    specialize (IH st1 Hst1). cbv zeta in IH. rewrite IH, Hstep.
    change (t :: consumed' rest st1) with ([t] ++ consumed' rest st1).
    rewrite rows_to_app, app_assoc. reflexivity.
Qed.

(** Extra X2.  At any point of a run, what the sink was handed for a
    table followed by what waits in that table's buffer is exactly the
    rows of the kept messages routed to the table among the polls taken
    so far, in arrival order: inside the loop no row is lost,
    duplicated, reordered within its table, or made up. *)
Theorem rows_reach_their_table_in_order (polls : list tick)
        (table : string) :
  let st := fst (loop' polls initial_state) in
  sent_to table (inserts st) ++ buffer_of table st
  = rows_to table (consumed' polls initial_state).
Proof.
  cbv zeta. rewrite (loop_rows table polls initial_state steady_initial).
  assert (Hinit : sent_to table (inserts initial_state)
                  ++ buffer_of table initial_state = []).
  { unfold buffer_of.
    change (batch_data initial_state) with empty_batches.
    destruct (dict_get table empty_batches) as [buf|] eqn:E; [|reflexivity].
    apply dict_get_In in E. simpl in E.
    destruct E as [E|[E|[E|[]]]]; injection E as _ <-; reflexivity. }
  rewrite Hinit. reflexivity.
Qed.

End Runs.

(** ** Bounded runs: the drain and the limit *)

Lemma sent_to_drain_absent (table : string) (d : dict (list row)) (n : nat) :
  ~ In table (dict_keys d) -> sent_to table (drain_calls n d) = [].
Proof.
  revert n. induction d as [|[k data] d IH]; intros n Hnot; [reflexivity|].
  simpl in Hnot.
  assert (Hk : k <> table) by tauto.
  assert (Hd : ~ In table (dict_keys d)) by tauto.
  destruct data as [|r data]; simpl; [apply IH, Hd|].
  unfold sent_to. simpl. destruct (String.eqb_spec k table); [contradiction|].
  apply IH, Hd.
Qed.

Lemma sent_to_drain_calls (table : string) (d : dict (list row)) (n : nat) :
  NoDup (dict_keys d) ->
  sent_to table (drain_calls n d)
  = match dict_get table d with Some buf => buf | None => [] end.
Proof.
  revert n. induction d as [|[k data] d IH]; intros n Hnd; [reflexivity|].
  inversion Hnd as [|? ? Hnot Hnd']; subst. cbn [dict_get].
  destruct (String.eqb_spec k table) as [->|Hne].
  - destruct data as [|r data]; simpl.
    + apply sent_to_drain_absent, Hnot.
    + unfold sent_to. simpl. rewrite String.eqb_refl.
      fold (sent_to table (drain_calls (S n) d)).
      rewrite sent_to_drain_absent by exact Hnot. apply app_nil_r.
  - destruct data as [|r data]; simpl; [apply IH, Hnd'|].
    unfold sent_to. simpl. destruct (String.eqb_spec k table); [contradiction|].
    apply IH, Hnd'.
Qed.

Lemma tables_distinct : NoDup (dict_values topic_table_mapping).
Proof.
  simpl. repeat constructor; simpl; intuition discriminate.
Qed.

(** What a drained run handed to the sink. *)
Lemma drained_run_rows
      (max_messages timeout_seconds : option Z) (realtime : bool)
      (b : broker) (st : state) :
  consume_and_load max_messages timeout_seconds realtime b = (st, Drained) ->
  (forall table,
      sent_to table (inserts st)
      = rows_to table (consumed max_messages timeout_seconds realtime
                                (started b) (ticks b) initial_state))
  /\ Z.of_nat (rows_sent (inserts st)) = message_count st.
Proof.
  unfold consume_and_load. destruct (subscribe_ok b); [|discriminate].
  destruct (loop max_messages timeout_seconds realtime (started b) (ticks b)
                 initial_state) as [st1 c] eqn:Hl.
  destruct c; try discriminate. intros H. injection H as <-.
  pose proof (steady_loop max_messages timeout_seconds realtime (started b)
                          (ticks b) initial_state st1 Break steady_initial Hl)
    as (Hkeys & _ & _ & Hcount).
  destruct (drain_spec st1) as (Hdc & _ & Hdi).
  cbn [inserts logger message_count]. split.
  - intros table.
    pose proof (loop_rows max_messages timeout_seconds realtime (started b)
                          table (ticks b) initial_state steady_initial) as Hr.
    cbv zeta in Hr. rewrite Hl in Hr. cbn [fst] in Hr.
    rewrite Hdi, sent_to_app, sent_to_drain_calls
      by (rewrite Hkeys; apply tables_distinct).
    fold (buffer_of table st1). rewrite Hr.
    assert (Hinit : sent_to table (inserts initial_state)
                    ++ buffer_of table initial_state = []).
    { unfold buffer_of.
      change (batch_data initial_state) with empty_batches.
      destruct (dict_get table empty_batches) as [buf|] eqn:E; [|reflexivity].
      apply dict_get_In in E. simpl in E.
      destruct E as [E|[E|[E|[]]]]; injection E as _ <-; reflexivity. }
    rewrite Hinit. reflexivity.
  - rewrite rows_sent_drain, Hdc. lia.
Qed.

(** Extra X3.  A run that reaches the drain has handed every kept
    message's row to the sink exactly once: for each table, the rows of
    its insert calls, in call order, are the rows of the kept messages
    routed to it among the polls taken, in arrival order; and the number
    of rows handed over is the counter the run reports. *)
Theorem drained_run_sends_every_row_once
        (max_messages timeout_seconds : option Z) (realtime : bool)
        (b : broker) (st : state) :
  consume_and_load max_messages timeout_seconds realtime b = (st, Drained) ->
  (forall table,
      sent_to table (inserts st)
      = rows_to table (consumed max_messages timeout_seconds realtime
                                (started b) (ticks b) initial_state))
  /\ Z.of_nat (rows_sent (inserts st)) = message_count st.
Proof.
  apply drained_run_rows.
Qed.

(** The polls taken from a list whose first part the loop goes
    through. *)
Lemma consumed_app (max_messages timeout_seconds : option Z)
      (realtime : bool) (start : Z) (polls rest : list tick) :
  forall st st' : state,
    loop max_messages timeout_seconds realtime start polls st
    = (st', Continue) ->
    consumed max_messages timeout_seconds realtime start (polls ++ rest) st
    = polls ++ consumed max_messages timeout_seconds realtime start rest st'.
Proof.
  induction polls as [|t polls IH]; intros st st' Hl.
  - simpl in Hl. injection Hl as <-. reflexivity.
  - cbn [loop] in Hl. cbn [app consumed].
    destruct (iteration max_messages timeout_seconds realtime start t st)
      as [st1 c].
    destruct c; try discriminate Hl.
    rewrite (IH st1 st' Hl). reflexivity.
Qed.

(** A bounded run with a limit other than 0 stays within it. *)
Lemma bounded_run_within_limit (n : Z) (timeout_seconds : option Z)
        (b : broker) (st : state) (e : ending) :
  n <> 0 ->
  consume_and_load (Some n) timeout_seconds false b = (st, e) ->
  message_count st <= Z.max 1 n
  /\ (e = Polling -> message_count st < Z.max 1 n)
  /\ Z.of_nat (rows_sent (inserts st)) <= message_count st.
Proof.
  intros Hn.
  assert (Hloop : forall polls s0 s1 c,
             steady s0 -> message_count s0 < Z.max 1 n ->
             loop (Some n) timeout_seconds false (started b) polls s0
             = (s1, c) ->
             steady s1
             /\ message_count s1 <= Z.max 1 n
             /\ (c = Continue -> message_count s1 < Z.max 1 n)).
  { induction polls as [|t rest IH]; intros s0 s1 c Hst Hlt Hl.
    - simpl in Hl. injection Hl as <- <-.
      split; [exact Hst|]. split; [lia|auto].
    - simpl in Hl.
      destruct (iteration (Some n) timeout_seconds false (started b) t s0)
        as [s2 c2] eqn:Hi.
      pose proof (steady_iteration (Some n) timeout_seconds false (started b)
                                   t s0 s2 c2 Hst Hi) as Hst2.
      destruct (iteration_cases (Some n) timeout_seconds false (started b)
                                t s0 (proj1 Hst)) as (s3 & c3 & Hi3 & Hcase).
      rewrite Hi in Hi3. injection Hi3 as <- <-.
      assert (Hstep : message_count s2 <= Z.max 1 n
                      /\ (c2 = Continue -> message_count s2 < Z.max 1 n)).
      { destruct Hcase as [(_ & Hc & _)|(tb & r & buf & _ & _ & Hctl & Hc & _)].
        - rewrite Hc. split; [lia|auto].
        - rewrite Hc. unfold limit_reached in Hctl. simpl in Hctl.
          replace (n =? 0) with false in Hctl
            by (symmetry; apply Z.eqb_neq; exact Hn).
          simpl in Hctl.
          destruct (message_count s0 + 1 >=? n) eqn:E.
          + subst c2. split; [lia|discriminate].
          + rewrite Z.geb_leb in E. apply Z.leb_gt in E. split; lia. }
      destruct Hstep as [Hle Hcont].
      destruct c2;
        try (injection Hl as <- <-; split; [exact Hst2|];
             split; [exact Hle|discriminate]).
      apply (IH s2 s1 c (Hst2) (Hcont eq_refl) Hl). }
  unfold consume_and_load. destruct (subscribe_ok b).
  - destruct (loop (Some n) timeout_seconds false (started b) (ticks b)
                   initial_state) as [s1 c] eqn:Hl.
    destruct (Hloop (ticks b) initial_state s1 c steady_initial) as
        ((_ & _ & _ & Hcount) & Hle & Hcont); [simpl; lia|exact Hl|].
    destruct c; intros H; injection H as <- <-;
      cbn [message_count logger inserts].
    + repeat split; auto; lia.
    + destruct (drain_spec s1) as (Hdc & _ & _).
      rewrite rows_sent_drain, Hdc.
      repeat split; first [lia | discriminate].
    + repeat split; first [lia | discriminate].
    + repeat split; first [lia | discriminate].
  - intros H. injection H as <- <-. simpl.
    repeat split; first [lia | discriminate].
Qed.

(** Extra X4.  In bounded mode a message limit [n] other than 0 is never
    exceeded: the counter stays below [n] while the loop goes on and the
    run ends with at most [n] kept messages (at most one when [n] is
    negative: the run stops at the first kept message); the sink is never
    handed more rows than that. *)
Theorem limit_never_exceeded (n : Z) (timeout_seconds : option Z)
        (b : broker) (st : state) (e : ending) :
  n <> 0 ->
  consume_and_load (Some n) timeout_seconds false b = (st, e) ->
  message_count st <= Z.max 1 n
  /\ (e = Polling -> message_count st < Z.max 1 n)
  /\ Z.of_nat (rows_sent (inserts st)) <= message_count st.
Proof. apply bounded_run_within_limit. Qed.


(** ** Runs: when they stop and when they do not *)

Lemma store_unlimited (max_messages : option Z) (realtime : bool)
      (table : string) (text : str) (m : message) (clock : Z)
      (st st' : state) (c : control) :
  truthy max_messages = false ->
  store max_messages realtime table text m clock st = Ok (st', c) ->
  c = Continue.
Proof.
  intros Hm. unfold store.
  destruct (dict_get table (batch_data st)); [|discriminate].
  rewrite Hm, andb_false_r. cbn [andb]. intros H. injection H as _ <-.
  reflexivity.
Qed.

Lemma process_unlimited (max_messages : option Z) (realtime : bool)
      (m : message) (clock : Z) (st st' : state) (c : control) :
  truthy max_messages = false ->
  process max_messages realtime m clock st = Ok (st', c) -> c = Continue.
Proof.
  intros Hm. unfold process.
  destruct (dict_get (msg_topic m) topic_table_mapping) as [table|];
    [|intros H; injection H as _ <-; reflexivity].
  destruct (negb (string_truthy table));
    [intros H; injection H as _ <-; reflexivity|].
  destruct (message_text m) as [text|]; [|discriminate].
  destruct (_ || _)%bool; [intros H; injection H as _ <-; reflexivity|].
  destruct (json_loads text) as [[]| |]; try discriminate;
    try (intros H; injection H as _ <-; reflexivity).
  destruct (eq_True _); [intros H; injection H as _ <-; reflexivity|].
  apply store_unlimited, Hm.
Qed.

(** Without a message limit, a poll that brings a message never stops
    the loop, and neither does an empty poll when there is no time
    cap. *)
Lemma iteration_goes_on (max_messages timeout_seconds : option Z)
      (realtime : bool) (start : Z) (t : tick) (st : state) :
  truthy max_messages = false ->
  is_message t = true
  \/ (answers t = true /\ truthy timeout_seconds = false) ->
  snd (iteration max_messages timeout_seconds realtime start t st) = Continue.
Proof.
  intros Hm Ht. unfold iteration, is_message, answers in *.
  destruct (polled t) as [|m| |].
  - destruct Ht as [Ht|[_ Ht]]; [discriminate|].
    rewrite Ht, andb_false_r. reflexivity.
  - destruct (msg_error m) as [code|].
    + destruct (code =? PARTITION_EOF); reflexivity.
    + destruct (process max_messages realtime m (now t) st)
        as [[st1 c1]|e] eqn:E; [|reflexivity].
      apply process_unlimited in E; [|exact Hm]. subst c1. reflexivity.
  - destruct Ht as [Ht|[Ht _]]; discriminate.
  - destruct Ht as [Ht|[Ht _]]; discriminate.
Qed.

Lemma loop_goes_on (max_messages timeout_seconds : option Z)
      (realtime : bool) (start : Z) (polls : list tick) :
  truthy max_messages = false ->
  forallb is_message polls = true
  \/ (forallb answers polls = true /\ truthy timeout_seconds = false) ->
  forall st,
    snd (loop max_messages timeout_seconds realtime start polls st)
    = Continue.
Proof.
  intros Hm. induction polls as [|t rest IH]; intros Hp st; [reflexivity|].
  simpl.
  assert (Ht : is_message t = true
               \/ (answers t = true /\ truthy timeout_seconds = false)).
  { destruct Hp as [Hp|[Hp Hts]]; simpl in Hp;
      apply andb_true_iff in Hp; [left|right]; tauto. }
  assert (Hrest : forallb is_message rest = true
                  \/ (forallb answers rest = true
                      /\ truthy timeout_seconds = false)).
  { destruct Hp as [Hp|[Hp Hts]]; simpl in Hp;
      apply andb_true_iff in Hp; [left|right]; tauto. }
  pose proof (iteration_goes_on max_messages timeout_seconds realtime start
                                t st Hm Ht) as Hc.
  destruct (iteration max_messages timeout_seconds realtime start t st)
    as [st1 c]. simpl in Hc. subst c. apply IH, Hrest.
Qed.

(** Extra X5.  The time cap is looked at on empty polls only: in a
    bounded run without a message limit, as long as every poll brings a
    message (kept or not) the run goes on, however far the clock is past
    the time cap. *)
Theorem messages_never_time_out (max_messages timeout_seconds : option Z)
        (b : broker) :
  subscribe_ok b = true ->
  truthy max_messages = false ->
  forallb is_message (ticks b) = true ->
  snd (consume_and_load max_messages timeout_seconds false b) = Polling.
Proof.
  intros Hs Hm Hp. unfold consume_and_load. rewrite Hs.
  pose proof (loop_goes_on max_messages timeout_seconds false (started b)
                           (ticks b) Hm (or_introl Hp) initial_state) as Hc.
  destruct (loop _ _ _ _ _ _) as [st c]. simpl in Hc. subst c. reflexivity.
Qed.

(** Extra X6.  A limit of [None] or 0 is no limit: a bounded run whose
    message limit and time cap are both absent or 0 never stops by
    itself; while no poll raises or is interrupted it is still
    polling. *)
Theorem zero_limits_never_stop (max_messages timeout_seconds : option Z)
        (b : broker) :
  subscribe_ok b = true ->
  truthy max_messages = false ->
  truthy timeout_seconds = false ->
  forallb answers (ticks b) = true ->
  snd (consume_and_load max_messages timeout_seconds false b) = Polling.
Proof.
  intros Hs Hm Ht Hp. unfold consume_and_load. rewrite Hs.
  pose proof (loop_goes_on max_messages timeout_seconds false (started b)
                           (ticks b) Hm (or_intror (conj Hp Ht))
                           initial_state) as Hc.
  destruct (loop _ _ _ _ _ _) as [st c]. simpl in Hc. subst c. reflexivity.
Qed.

(** Extra X7.  A bounded run ends at the first empty poll after the time
    cap (elapsed time strictly greater than the cap), whatever the
    broker would still deliver: it logs the time-out and drains, and the
    rows handed to the sink are those of the messages kept before that
    poll: for each table its rows, in arrival order, and as many rows in
    all as the counter says. *)
Theorem timeout_ends_run (max_messages timeout_seconds : option Z)
        (start : Z) (before later : list tick) (stop : tick) :
  Forall (calm timeout_seconds start) before ->
  truthy max_messages = false
  \/ Z.of_nat (List.length (rows_for before)) < or_zero max_messages ->
  polled stop = PollNone ->
  truthy timeout_seconds = true ->
  now stop - start > or_zero timeout_seconds ->
  exists st,
    consume_and_load max_messages timeout_seconds false
                     {| subscribe_ok := true; started := start;
                        ticks := before ++ stop :: later |}
    = (st, Drained)
    /\ message_count st = Z.of_nat (List.length (rows_for before))
    /\ rows_sent (inserts st) = List.length (rows_for before)
    /\ In InfoTimeout (log st)
    /\ forall table, sent_to table (inserts st) = rows_to table before.
Proof.
  intros Hcalm Hmax Hstop Htrue Hlate.
  destruct (loop_under_limit max_messages timeout_seconds false start before
                             initial_state steady_initial Hcalm)
    as (st1 & Hl & Hc & Hst).
  { intros k Hk. unfold limit_reached.
    destruct Hmax as [-> | Hmax]; [reflexivity|].
    replace (message_count initial_state + k >=? or_zero max_messages)
      with false; [apply andb_false_r|].
    symmetry. rewrite Z.geb_leb. apply Z.leb_gt. simpl. lia. }
  simpl in Hc.
  assert (Hi : iteration max_messages timeout_seconds false start stop st1
               = (logger InfoTimeout st1, Break)).
  { unfold iteration. rewrite Hstop, Htrue.
    replace (now stop - start >? or_zero timeout_seconds) with true
      by (symmetry; rewrite Z.gtb_ltb; apply Z.ltb_lt; lia).
    reflexivity. }
  assert (Hrun : consume_and_load max_messages timeout_seconds false
                                  {| subscribe_ok := true; started := start;
                                     ticks := before ++ stop :: later |}
                 = (logger (InfoProcessed
                              (message_count
                                 (drain (logger InfoTimeout st1))))
                           (drain (logger InfoTimeout st1)), Drained)).
  { unfold consume_and_load. cbn [subscribe_ok started ticks].
    rewrite loop_app, Hl. simpl loop. rewrite Hi. reflexivity. }
  eexists. split; [exact Hrun|].
  pose proof (drained_run_rows _ _ _ _ _ Hrun) as [Hrows _].
  cbn [message_count inserts log logger] in Hrows |- *.
  destruct (drain_spec (logger InfoTimeout st1)) as (Hdc & _ & _).
  destruct Hst as (_ & _ & _ & Hcount).
  pose proof (drain_fold (batch_data (logger InfoTimeout st1))
                         (logger InfoTimeout st1)) as (_ & _ & _ & Hlog).
  split; [|split; [|split]].
  - rewrite Hdc. exact Hc.
  - rewrite rows_sent_drain. cbn [inserts batch_data logger]. lia.
  - apply in_or_app. left. apply Hlog. simpl. apply in_or_app. right.
    left. reflexivity.
  - intros table.
    rewrite Hrows. cbn [started ticks].
    rewrite (consumed_app max_messages timeout_seconds false start before
                          (stop :: later) initial_state st1 Hl).
    cbn [consumed]. rewrite Hi. rewrite rows_to_app.
    unfold rows_to at 2. unfold row_for. cbn [flat_map]. rewrite Hstop.
    rewrite !app_nil_r. reflexivity.
Qed.

(** Extra X8.  In continuous mode the message limit and the time cap
    play no part: on the same broker, from the same start, the run is
    the same whatever they are. *)
Theorem continuous_ignores_limits (max_messages timeout_seconds : option Z)
        (b : broker) :
  consume_and_load max_messages timeout_seconds true b
  = consume_and_load None None true b.
Proof.
  unfold consume_and_load.
  destruct (subscribe_ok b); [|reflexivity].
  assert (Hl : forall polls st,
             loop max_messages timeout_seconds true (started b) polls st
             = loop None None true (started b) polls st).
  { induction polls as [|t rest IH]; intros st; [reflexivity|].
    simpl.
    assert (Hi : iteration max_messages timeout_seconds true (started b) t st
                 = iteration None None true (started b) t st)
      by reflexivity.
    rewrite Hi. destruct (iteration None None true (started b) t st)
      as [st1 c]. destruct c; auto. }
  rewrite Hl. reflexivity.
Qed.

(** Extra X9.  An exception raised by [poll], like the operator's
    interrupt, ends the run where it stands: the outer handler logs it
    (the interrupt is not even caught) and the drain is skipped, so the
    sink has received the batches flushed so far and nothing of what was
    still buffered. *)
Theorem poll_failure_skips_drain (max_messages timeout_seconds : option Z)
        (realtime : bool) (start : Z) (before later : list tick)
        (stop : tick) (st : state) :
  loop max_messages timeout_seconds realtime start before initial_state
  = (st, Continue) ->
  (polled stop = PollRaises ->
   consume_and_load max_messages timeout_seconds realtime
                    {| subscribe_ok := true; started := start;
                       ticks := before ++ stop :: later |}
   = (logger ErrorConsume st, Failed))
  /\ (polled stop = PollInterrupt ->
      consume_and_load max_messages timeout_seconds realtime
                       {| subscribe_ok := true; started := start;
                          ticks := before ++ stop :: later |}
      = (st, Interrupted))
  /\ Forall (fun call => List.length (ic_data call) = batch_size)
            (inserts st)
  /\ Z.of_nat (List.length (buffered (batch_data st))
               + rows_sent (inserts st)) = message_count st.
Proof.
  intros Hl.
  pose proof (steady_loop max_messages timeout_seconds realtime start before
                          initial_state st Continue steady_initial Hl)
    as (_ & _ & Hfull & Hcount).
  repeat split; try assumption.
  - intros Hp. unfold consume_and_load. cbn [subscribe_ok started ticks].
    rewrite loop_app, Hl. simpl. unfold iteration. rewrite Hp. reflexivity.
  - intros Hp. unfold consume_and_load. cbn [subscribe_ok started ticks].
    rewrite loop_app, Hl. simpl. unfold iteration. rewrite Hp. reflexivity.
Qed.

(** ** Runs: what reaches the sink and what is logged *)

Lemma drain_calls_nonempty (d : dict (list row)) (n : nat)
      (call : insert_call) :
  In call (drain_calls n d) -> ic_data call <> [].
Proof.
  revert n. induction d as [|[table data] d IH]; intros n; simpl;
    [contradiction|].
  destruct data as [|r data]; [apply IH|].
  intros [H|H]; [subst call; discriminate|eapply IH, H].
Qed.

Lemma iteration_calls (max_messages timeout_seconds : option Z)
      (realtime : bool) (start : Z) (t : tick) (st st' : state)
      (c : control) :
  steady st ->
  iteration max_messages timeout_seconds realtime start t st = (st', c) ->
  Forall (fun call => In (ic_table call) (dict_values topic_table_mapping)
                      /\ ic_data call <> []) (inserts st) ->
  Forall (fun call => In (ic_table call) (dict_values topic_table_mapping)
                      /\ ic_data call <> []) (inserts st').
Proof.
  intros Hst Hi Hall.
  destruct (iteration_cases max_messages timeout_seconds realtime start
                            t st (proj1 Hst)) as (st1 & c1 & Hi1 & Hcase).
  rewrite Hi in Hi1. injection Hi1 as <- <-.
  destruct Hcase as [(_ & _ & _ & Hs)
                    |(tb & r & buf & _ & Hget & _ & _ & _ & Hs)];
    rewrite Hs; [exact Hall|].
  destruct (batch_size <=? List.length (buf ++ [r]))%nat; [|exact Hall].
  apply Forall_app. split; [exact Hall|]. constructor; [|constructor].
  cbn [ic_table ic_data]. split.
  - rewrite <- (proj1 Hst). apply dict_get_In in Hget.
    unfold dict_keys. change tb with (fst (tb, buf)). apply in_map, Hget.
  - destruct buf; discriminate.
Qed.

(** Extra X10.  Whatever the polls, every call made on the sink names a
    table of the topic mapping and carries at least one row and at most
    [batch_size] rows: the bridge never inserts an empty batch and never
    writes to a table it did not create. *)
Theorem sink_calls_well_formed (max_messages timeout_seconds : option Z)
        (realtime : bool) (b : broker) (call : insert_call) :
  In call (inserts (fst (consume_and_load max_messages timeout_seconds
                                          realtime b))) ->
  In (ic_table call) tables
  /\ (0 < List.length (ic_data call) <= batch_size)%nat.
Proof.
  assert (Hloop : forall polls s0 s1 c,
             steady s0 ->
             Forall (fun call =>
                       In (ic_table call) (dict_values topic_table_mapping)
                       /\ ic_data call <> []) (inserts s0) ->
             loop max_messages timeout_seconds realtime (started b) polls s0
             = (s1, c) ->
             Forall (fun call =>
                       In (ic_table call) (dict_values topic_table_mapping)
                       /\ ic_data call <> []) (inserts s1)).
  { induction polls as [|t rest IH]; intros s0 s1 c Hst Hall Hl; simpl in Hl.
    - injection Hl as <- _. exact Hall.
    - destruct (iteration max_messages timeout_seconds realtime (started b)
                          t s0) as [s2 c2] eqn:Hi.
      pose proof (iteration_calls _ _ _ _ t s0 s2 c2 Hst Hi Hall) as Hall2.
      pose proof (steady_iteration _ _ _ _ t s0 s2 c2 Hst Hi) as Hst2.
      destruct c2; try (injection Hl as <- _; exact Hall2).
      apply (IH s2 s1 c Hst2 Hall2 Hl). }
  assert (Hgoal : forall s : state,
             steady s ->
             Forall (fun call =>
                       In (ic_table call) (dict_values topic_table_mapping)
                       /\ ic_data call <> []) (inserts s) ->
             Forall (fun call =>
                       (List.length (ic_data call) <= batch_size)%nat)
                    (inserts s) ->
             In call (inserts s) ->
             In (ic_table call) tables
             /\ (0 < List.length (ic_data call) <= batch_size)%nat).
  { intros s _ Hw Hle Hin.
    rewrite Forall_forall in Hw, Hle. destruct (Hw call Hin) as [Ht Hne].
    specialize (Hle call Hin). split; [exact Ht|].
    destruct (ic_data call); [congruence|simpl in *; lia]. }
  unfold consume_and_load. destruct (subscribe_ok b); [|intros []].
  destruct (loop max_messages timeout_seconds realtime (started b) (ticks b)
                 initial_state) as [s1 c] eqn:Hl.
  pose proof (Hloop (ticks b) initial_state s1 c steady_initial
                    (Forall_nil _) Hl) as Hw.
  pose proof (steady_loop _ _ _ _ (ticks b) initial_state s1 c
                          steady_initial Hl) as Hst.
  destruct Hst as (Hkeys & Hlt & Hfull & Hcount).
  assert (Hle : Forall (fun call =>
                          (List.length (ic_data call) <= batch_size)%nat)
                       (inserts s1)).
  { eapply Forall_impl; [|exact Hfull]. simpl. intros a Ha. lia. }
  destruct c; cbn [fst inserts logger];
    try (apply (Hgoal s1); [repeat split; assumption|assumption..]).
  destruct (drain_spec s1) as (_ & _ & Hdi). rewrite Hdi.
  intros Hin. apply in_app_or in Hin. destruct Hin as [Hin|Hin].
  - apply (Hgoal s1); [repeat split; assumption|assumption..].
  - pose proof (drain_calls_nonempty _ _ _ Hin) as Hne.
    apply drain_calls_In in Hin. pose proof (Hlt _ _ Hin) as Hlen.
    split.
    + unfold tables. change (In (ic_table call)
                                (dict_values topic_table_mapping)).
      rewrite <- Hkeys. unfold dict_keys.
      change (ic_table call) with (fst (ic_table call, ic_data call)).
      apply in_map, Hin.
    + destruct (ic_data call); [congruence|simpl in *; lia].
Qed.

(** What [store] writes to the log: the record of the flush when the
    buffer is full, the periodic report, the notice of the limit. *)
Lemma store_log (max_messages : option Z) (realtime : bool) (table : string)
      (text : str) (m : message) (clock : Z) (st : state) (buf : list row) :
  dict_get table (batch_data st) = Some buf ->
  let buf1 := buf ++ [row_of m text clock] in
  let count := message_count st + 1 in
  exists st' c,
    store max_messages realtime table text m clock st = Ok (st', c)
    /\ log st'
       = log st
         ++ (if (batch_size <=? List.length buf1)%nat
             then [record_of {| ic_table := table; ic_data := buf1;
                                ic_ok := insert_ok (List.length (inserts st)) |}]
             else [])
         ++ (if realtime && (count mod 100 =? 0) && (count >? 0)
             then [InfoProgress count] else [])
         ++ (if limit_reached max_messages realtime count
             then [InfoMaxMessages] else []).
Proof.
  intros Hget buf1 count. unfold store. rewrite Hget.
  fold (row_of m text clock). fold buf1.
  set (st1 := set_message_count _ _).
  set (st2 := if (batch_size <=? List.length buf1)%nat then _ else st1).
  assert (H2 : message_count st2 = count
               /\ log st2
                  = log st
                    ++ (if (batch_size <=? List.length buf1)%nat
                        then [record_of
                                {| ic_table := table; ic_data := buf1;
                                   ic_ok := insert_ok
                                              (List.length (inserts st)) |}]
                        else [])).
  { subst st2. destruct (batch_size <=? List.length buf1)%nat.
    - unfold _insert_batch, record_of. subst st1.
      cbn [inserts set_message_count set_batch_data ic_ok ic_data ic_table].
      destruct (insert_ok (List.length (inserts st))); split; reflexivity.
    - subst st1. split; [reflexivity|]. simpl. rewrite app_nil_r.
      reflexivity. }
  destruct H2 as [Hc Hl]. rewrite Hc. unfold limit_reached.
  destruct (realtime && (count mod 100 =? 0) && (count >? 0))%bool;
    cbn [message_count logger];
    rewrite Hc;
    destruct (negb realtime && truthy max_messages
              && (count >=? or_zero max_messages))%bool;
    do 2 eexists; (split; [reflexivity|]); cbn [log logger];
    rewrite Hl, <- ?app_assoc; cbn [app]; rewrite ?app_nil_r; reflexivity.
Qed.

Lemma forallb_quiet (d : list log_entry) :
  forallb quiet_entry d = true ->
  insert_records d = [] /\ progress_reports d = []
  /\ Forall (fun h => (List.length h <= 100)%nat) (invalid_heads d).
Proof.
  induction d as [|e d IH]; simpl; [auto|].
  intros H. apply andb_true_iff in H. destruct H as [He Hd].
  destruct (IH Hd) as (H1 & H2 & H3).
  destruct e; simpl in *; try discriminate; auto.
  repeat split; auto. constructor; [apply Nat.leb_le, He|exact H3].
Qed.

(** The log after one poll. *)
Lemma iteration_log (max_messages timeout_seconds : option Z)
      (realtime : bool) (start : Z) (t : tick) (st : state) :
  buffers_exist st ->
  exists st' c,
    iteration max_messages timeout_seconds realtime start t st = (st', c)
    /\ ((inserts st' = inserts st
         /\ message_count st' = message_count st
         /\ exists d, log st' = log st ++ d /\ forallb quiet_entry d = true)
        \/ (exists table r buf,
               dict_get table (batch_data st) = Some buf
               /\ message_count st' = message_count st + 1
               /\ inserts st'
                  = (if (batch_size <=? List.length (buf ++ [r]))%nat
                     then inserts st
                          ++ [{| ic_table := table; ic_data := buf ++ [r];
                                 ic_ok := insert_ok
                                            (List.length (inserts st)) |}]
                     else inserts st)
               /\ log st'
                  = log st
                    ++ (if (batch_size <=? List.length (buf ++ [r]))%nat
                        then [record_of
                                {| ic_table := table; ic_data := buf ++ [r];
                                   ic_ok := insert_ok
                                              (List.length (inserts st)) |}]
                        else [])
                    ++ (if realtime
                           && ((message_count st + 1) mod 100 =? 0)
                           && (message_count st + 1 >? 0)
                        then [InfoProgress (message_count st + 1)] else [])
                    ++ (if limit_reached max_messages realtime
                                         (message_count st + 1)
                        then [InfoMaxMessages] else []))).
Proof.
  intros Hb.
  assert (Hsame : inserts st = inserts st
                  /\ message_count st = message_count st
                  /\ exists d, log st = log st ++ d
                               /\ forallb quiet_entry d = true).
  { repeat split. exists []. rewrite app_nil_r. auto. }
  assert (Hquiet : forall e, quiet_entry e = true ->
               inserts (logger e st) = inserts st
               /\ message_count (logger e st) = message_count st
               /\ exists d, log (logger e st) = log st ++ d
                            /\ forallb quiet_entry d = true).
  { intros e He. repeat split. exists [e]. simpl. rewrite He. auto. }
  unfold iteration.
  destruct (polled t) as [|m| |];
    try (do 2 eexists; split; [reflexivity|left; exact Hsame]).
  - destruct (_ && _)%bool; do 2 eexists; (split; [reflexivity|left]);
      [apply Hquiet; reflexivity|exact Hsame].
  - destruct (msg_error m) as [code|].
    { destruct (code =? PARTITION_EOF); do 2 eexists;
        (split; [reflexivity|left]); apply Hquiet; reflexivity. }
    unfold process.
    destruct (dict_get (msg_topic m) topic_table_mapping) as [table|] eqn:Et;
      [|do 2 eexists; (split; [reflexivity|left]); apply Hquiet;
        reflexivity].
    destruct (negb (string_truthy table));
      [do 2 eexists; (split; [reflexivity|left]); apply Hquiet;
       reflexivity|].
    destruct (message_text m) as [text|e];
      [|do 2 eexists; (split; [reflexivity|left]); apply Hquiet;
        reflexivity].
    destruct (_ || _)%bool;
      [do 2 eexists; split; [reflexivity|left; exact Hsame]|].
    destruct (json_loads text) as [[]| |];
      try (do 2 eexists; (split; [reflexivity|left]); apply Hquiet;
           reflexivity).
    2: { do 2 eexists. split; [reflexivity|left]. apply Hquiet.
         cbn [quiet_entry]. apply Nat.leb_le. unfold prefix.
         rewrite length_firstn. lia. }
    destruct (eq_True _);
      [do 2 eexists; split; [reflexivity|left; exact Hsame]|].
    assert (Hin : In table (dict_keys (batch_data st))).
    { rewrite Hb. apply dict_get_In in Et. unfold dict_values.
      change table with (snd (msg_topic m, table)). apply in_map, Et. }
    destruct (dict_get_keys table (batch_data st) Hin) as [buf Hget].
    destruct (store_spec max_messages realtime table text m (now t) st buf
                         Hget) as (s1 & Hs1 & Hc1 & _ & Hi1 & _).
    destruct (store_log max_messages realtime table text m (now t) st buf
                        Hget) as (s2 & c2 & Hs2 & Hl2).
    rewrite Hs1 in Hs2. injection Hs2 as <- <-. rewrite Hs1.
    do 2 eexists. split; [reflexivity|]. right.
    exists table, (row_of m text (now t)), buf. auto.
Qed.

Lemma insert_batch_log (table : string) (data : list row) (st : state) :
  log (_insert_batch table data st)
  = log st
    ++ [record_of {| ic_table := table; ic_data := data;
                     ic_ok := insert_ok (List.length (inserts st)) |}].
Proof.
  unfold _insert_batch, record_of. cbn [ic_ok ic_data ic_table].
  destruct (insert_ok (List.length (inserts st))); reflexivity.
Qed.

Lemma drain_log (st : state) :
  log (drain st)
  = log st
    ++ map record_of (drain_calls (List.length (inserts st)) (batch_data st)).
Proof.
  unfold drain. generalize (batch_data st) as d. intros d. revert st.
  induction d as [|[table data] d IH]; intros st; simpl.
  - rewrite app_nil_r. reflexivity.
  - destruct data as [|r data]; [apply IH|].
    rewrite IH, insert_batch_log.
    destruct (insert_batch_spec table (r :: data) st) as (_ & _ & Hi & _).
    rewrite Hi, length_app, <- app_assoc. simpl. rewrite Nat.add_1_r.
    reflexivity.
Qed.

Lemma reports_due_next (count : Z) :
  0 <= count ->
  reports_due true (count + 1)
  = reports_due true count
    ++ (if true && ((count + 1) mod 100 =? 0) && (count + 1 >? 0)
        then [count + 1] else []).
Proof.
  intros Hc. unfold reports_due. cbn [andb].
  replace (count + 1 >? 0) with true
    by (symmetry; rewrite Z.gtb_ltb; apply Z.ltb_lt; lia).
  rewrite andb_true_r.
  destruct ((count + 1) mod 100 =? 0) eqn:E.
  - apply Z.eqb_eq in E.
    assert (Hd : (count + 1) / 100 = count / 100 + 1)
      by (Z.div_mod_to_equations; lia).
    assert (Hk : 0 <= count / 100) by (Z.div_mod_to_equations; lia).
    rewrite Hd, Z2Nat.inj_add, Nat.add_1_r, seq_S, map_app by lia.
    cbn [map]. f_equal. f_equal.
    assert (Hn : Z.of_nat (1 + Z.to_nat (count / 100)) = count / 100 + 1)
      by lia.
    rewrite Hn. Z.div_mod_to_equations. lia.
  - apply Z.eqb_neq in E.
    assert (Hd : (count + 1) / 100 = count / 100)
      by (Z.div_mod_to_equations; lia).
    rewrite Hd, app_nil_r. reflexivity.
Qed.

Lemma insert_records_app (a b : list log_entry) :
  insert_records (a ++ b) = insert_records a ++ insert_records b.
Proof. unfold insert_records. apply filter_app. Qed.

Lemma progress_reports_app (a b : list log_entry) :
  progress_reports (a ++ b) = progress_reports a ++ progress_reports b.
Proof. unfold progress_reports. apply flat_map_app. Qed.

Lemma invalid_heads_app (a b : list log_entry) :
  invalid_heads (a ++ b) = invalid_heads a ++ invalid_heads b.
Proof. unfold invalid_heads. apply flat_map_app. Qed.

Lemma records_of_calls (calls : list insert_call) :
  insert_records (map record_of calls) = map record_of calls
  /\ progress_reports (map record_of calls) = []
  /\ invalid_heads (map record_of calls) = [].
Proof.
  induction calls as [|c calls (H1 & H2 & H3)]; [auto|].
  assert (Hc : insert_records [record_of c] = [record_of c]
               /\ progress_reports [record_of c] = []
               /\ invalid_heads [record_of c] = [])
    by (unfold record_of; destruct (ic_ok c); auto).
  destruct Hc as (C1 & C2 & C3).
  change (map record_of (c :: calls))
    with ([record_of c] ++ map record_of calls).
  rewrite insert_records_app, progress_reports_app, invalid_heads_app,
    H1, H2, H3, C1, C2, C3.
  auto.
Qed.

(** What the log of a run keeps in step with. *)
Lemma loop_log (max_messages timeout_seconds : option Z) (realtime : bool)
      (start : Z) (polls : list tick) :
  forall s0 s1 c,
    steady s0 ->
    insert_records (log s0) = map record_of (inserts s0) ->
    progress_reports (log s0) = reports_due realtime (message_count s0) ->
    Forall (fun h => (List.length h <= 100)%nat) (invalid_heads (log s0)) ->
    loop max_messages timeout_seconds realtime start polls s0 = (s1, c) ->
    insert_records (log s1) = map record_of (inserts s1)
    /\ progress_reports (log s1) = reports_due realtime (message_count s1)
    /\ Forall (fun h => (List.length h <= 100)%nat) (invalid_heads (log s1)).
Proof.
  induction polls as [|t rest IH]; intros s0 s1 c Hst H1 H2 H3 Hl;
    simpl in Hl.
  - injection Hl as <- _. auto.
  - destruct (iteration_log max_messages timeout_seconds realtime start t s0
                            (proj1 Hst)) as (s2 & c2 & Hi & Hcase).
    rewrite Hi in Hl.
    pose proof (steady_iteration _ _ _ _ t s0 s2 c2 Hst Hi) as Hst2.
    assert (Hpos : 0 <= message_count s0).
    { destruct Hst as (_ & _ & _ & Hc). rewrite <- Hc. lia. }
    assert (Hstep : insert_records (log s2) = map record_of (inserts s2)
                    /\ progress_reports (log s2)
                       = reports_due realtime (message_count s2)
                    /\ Forall (fun h => (List.length h <= 100)%nat)
                              (invalid_heads (log s2))).
    { destruct Hcase as [(Hs & Hc & d & Hd & Hq)
                        |(table & r & buf & _ & Hc & Hs & Hd)].
      - destruct (forallb_quiet d Hq) as (Q1 & Q2 & Q3).
        rewrite Hd, Hs, Hc, insert_records_app, progress_reports_app,
          invalid_heads_app, Q1, Q2, !app_nil_r.
        repeat split; auto. apply Forall_app. auto.
      - rewrite Hd, Hs, Hc.
        rewrite !insert_records_app, !progress_reports_app,
          !invalid_heads_app, H1, H2.
        assert (Hrep : reports_due realtime (message_count s0 + 1)
                       = reports_due realtime (message_count s0)
                         ++ (if realtime
                                && ((message_count s0 + 1) mod 100 =? 0)
                                && (message_count s0 + 1 >? 0)
                             then [message_count s0 + 1] else [])).
        { destruct realtime; [apply reports_due_next, Hpos|reflexivity]. }
        rewrite Hrep.
        destruct (batch_size <=? List.length (buf ++ [r]))%nat;
          destruct (realtime && ((message_count s0 + 1) mod 100 =? 0)
                    && (message_count s0 + 1 >? 0))%bool;
          destruct (limit_reached max_messages realtime
                                  (message_count s0 + 1));
          unfold record_of; cbn [ic_ok ic_data ic_table];
          try destruct (insert_ok (List.length (inserts s0)));
          simpl; rewrite ?map_app, ?app_nil_r; simpl;
          repeat split; auto. }
    destruct Hstep as (S1 & S2 & S3).
    destruct c2; try (injection Hl as <- _; auto).
    apply (IH s2 s1 c Hst2 S1 S2 S3 Hl).
Qed.

Lemma run_log (max_messages timeout_seconds : option Z) (realtime : bool)
      (b : broker) :
  let st := fst (consume_and_load max_messages timeout_seconds realtime b) in
  insert_records (log st) = map record_of (inserts st)
  /\ progress_reports (log st) = reports_due realtime (message_count st)
  /\ Forall (fun h => (List.length h <= 100)%nat) (invalid_heads (log st)).
Proof.
  cbv zeta. unfold consume_and_load.
  assert (H0 : reports_due realtime 0 = []).
  { unfold reports_due. destruct realtime; reflexivity. }
  assert (I1 : insert_records (log initial_state)
               = map record_of (inserts initial_state)) by reflexivity.
  assert (I2 : progress_reports (log initial_state)
               = reports_due realtime (message_count initial_state))
    by (symmetry; exact H0).
  assert (I3 : Forall (fun h => (List.length h <= 100)%nat)
                      (invalid_heads (log initial_state)))
    by constructor.
  destruct (subscribe_ok b);
    [|cbn [fst]; repeat split; [symmetry; exact H0|constructor]].
  destruct (loop max_messages timeout_seconds realtime (started b) (ticks b)
                 initial_state) as [s1 c] eqn:Hl.
  destruct (loop_log max_messages timeout_seconds realtime (started b)
                     (ticks b) initial_state s1 c steady_initial I1 I2 I3 Hl)
    as (L1 & L2 & L3).
  destruct c; cbn [fst log logger inserts message_count].
  - auto.
  - destruct (drain_spec s1) as (Hdc & _ & Hdi).
    destruct (records_of_calls
                (drain_calls (List.length (inserts s1)) (batch_data s1)))
      as (R1 & R2 & R3).
    rewrite drain_log, Hdi, Hdc, map_app.
    rewrite !insert_records_app, !progress_reports_app, !invalid_heads_app,
      L1, L2, R1, R2, R3.
    simpl. rewrite !app_nil_r. auto.
  - rewrite insert_records_app, progress_reports_app, invalid_heads_app,
      L1, L2. simpl. rewrite !app_nil_r. auto.
  - auto.
Qed.

(** Extra X11.  The log mirrors the sink: the records [_insert_batch]
    wrote are, in order, one per insert call made in the run, each
    naming the call's table, with the number of rows when the call
    returned and as an error when it raised.  So every failed flush is
    in the log, and nothing is reported inserted that was not. *)
Theorem log_mirrors_sink_calls (max_messages timeout_seconds : option Z)
        (realtime : bool) (b : broker) :
  insert_records
    (log (fst (consume_and_load max_messages timeout_seconds realtime b)))
  = map record_of
        (inserts (fst (consume_and_load max_messages timeout_seconds
                                        realtime b))).
Proof. apply (run_log max_messages timeout_seconds realtime b). Qed.

(** Extra X12.  The periodic report is written in continuous mode only,
    once for every hundredth kept message and with that count: after
    [n] kept messages the reports in the log are 100, 200, ... up to the
    last multiple of 100 not above [n]; a bounded run writes none. *)
Theorem progress_reported_every_hundred
        (max_messages timeout_seconds : option Z) (realtime : bool)
        (b : broker) :
  let st := fst (consume_and_load max_messages timeout_seconds realtime b) in
  progress_reports (log st)
  = if realtime
    then map (fun i => 100 * Z.of_nat i)
             (seq 1 (Z.to_nat (message_count st / 100)))
    else [].
Proof. apply (run_log max_messages timeout_seconds realtime b). Qed.

(** Extra X13.  Logging of invalid payloads is bounded: every
    invalid-JSON warning of a run carries at most the first 100
    characters of the payload, however long the payload is. *)
Theorem invalid_payload_log_bounded
        (max_messages timeout_seconds : option Z) (realtime : bool)
        (b : broker) :
  Forall (fun head => (List.length head <= 100)%nat)
         (invalid_heads
            (log (fst (consume_and_load max_messages timeout_seconds
                                        realtime b)))).
Proof. apply (run_log max_messages timeout_seconds realtime b). Qed.

(** ** The driver's arguments *)

(** Extra X14.  Only the first argument is read, and an argument that is
    none of [--batch], [--reset], [--help] and [-h] selects nothing: the
    bridge then runs exactly as without argument, in continuous mode.
    The program name and any further argument are ignored. *)
Theorem unknown_flag_runs_continuously (program flag : string)
        (more : list string) (w : world) :
  flag <> "--batch" -> flag <> "--reset" -> flag <> "--help" ->
  flag <> "-h" ->
  main (program :: flag :: more) w = main [] w
  /\ (client_ok w = true ->
      command_ok w SelectOne = true -> kafka_ok w = true ->
      run (main (program :: flag :: more) w)
      = Some (consume_and_load None None true (the_broker w))).
Proof.
  intros Hb Hr Hh Hs.
  assert (Eb : String.eqb flag "--batch" = false)
    by (apply String.eqb_neq; exact Hb).
  assert (Er : String.eqb flag "--reset" = false)
    by (apply String.eqb_neq; exact Hr).
  assert (Eh : String.eqb flag "--help" = false)
    by (apply String.eqb_neq; exact Hh).
  assert (Es : String.eqb flag "-h" = false)
    by (apply String.eqb_neq; exact Hs).
  assert (Hmain : main (program :: flag :: more) w = main [] w).
  { unfold main. cbn [nth_error]. rewrite Eb, Er, Eh, Es. reflexivity. }
  split; [exact Hmain|].
  intros Hc Hsel Hk. rewrite Hmain. unfold main, test_connections.
  rewrite Hc, Hsel, Hk. cbn [nth_error negb orb andb].
  destruct (consume_and_load None None true (the_broker w)) as [st e].
  destruct e; reflexivity.
Qed.

(** Extra X15.  Destination data is cleared only on request and only
    once the pipeline is known to be up: a [TRUNCATE] is sent only when
    the first argument is [--reset], and then only after the connection
    test passed and the three tables were created; the truncation and
    the fresh consumer group go together, every other mode keeps the
    shared group. *)
Theorem truncate_only_on_reset (argv : list string) (w : world)
        (table : string) (ok : bool) :
  In (TruncateTable table, ok) (commands (main argv w)) ->
  nth_error argv 1 = Some "--reset"
  /\ command_ok w SelectOne = true
  /\ kafka_ok w = true
  /\ group (main argv w) = ResetGroup (reset_clock w)
  /\ exists later,
      commands (main argv w)
      = send w (SelectOne :: map CreateTable tables
                  ++ map TruncateTable tables)
        ++ later.
Proof.
  unfold main. destruct (client_ok w); cbn [negb]; [|intros []].
  destruct (nth_error argv 1) as [flag|] eqn:Earg.
  - destruct (String.eqb_spec flag "--help") as [->|Hh];
      [cbn [orb]; intros []|].
    destruct (String.eqb_spec flag "-h") as [->|Hs];
      [cbn [orb]; intros []|].
    cbn [orb]. unfold test_connections.
    destruct (command_ok w SelectOne) eqn:Hsel;
      [|simpl; intros [H|[]]; discriminate H].
    destruct (kafka_ok w); [|simpl; rewrite Hsel; intros [H|[]];
                              discriminate H].
    cbn [andb negb].
    destruct (String.eqb_spec flag "--reset") as [->|Hr].
    + intros _. cbn [orb negb]. rewrite orb_true_r. cbn [negb].
      destruct (consume_and_load (Some 5000) (Some 120) false (the_broker w))
        as [st e].
      destruct e; cbn [snd group commands];
        repeat split;
        first [ exists []; simpl; rewrite Hsel, ?app_nil_r; reflexivity
              | exists (show_stats w); simpl; rewrite Hsel; reflexivity ].
    + rewrite orb_false_r.
      destruct (String.eqb flag "--batch");
        cbn [negb];
        match goal with
        | |- context [snd ?r] => destruct r as [st e]
        end;
        destruct e; cbn [snd commands]; simpl; rewrite ?Hsel;
        intros H; repeat (destruct H as [H|H]; [discriminate H|]);
        destruct H.
  - cbn [orb]. unfold test_connections.
    destruct (command_ok w SelectOne) eqn:Hsel;
      [|simpl; intros [H|[]]; discriminate H].
    destruct (kafka_ok w); [|simpl; rewrite Hsel; intros [H|[]];
                              discriminate H].
    cbn [andb negb orb].
    destruct (consume_and_load None None true (the_broker w)) as [st e].
    destruct e; cbn [snd commands]; simpl; rewrite ?Hsel;
      intros H; repeat (destruct H as [H|H]; [discriminate H|]);
      destruct H.
Qed.

(** Extra X16.  The two bounded modes are really bounded: a [--batch]
    pass keeps at most 3500 messages and a [--reset] pass at most 5000,
    and the sink is handed no more rows than that, whatever the broker
    delivers. *)
Theorem batch_modes_bounded (argv : list string) (w : world) (st : state)
        (e : ending) :
  run (main argv w) = Some (st, e) ->
  (nth_error argv 1 = Some "--batch" ->
   message_count st <= 3500
   /\ Z.of_nat (rows_sent (inserts st)) <= 3500)
  /\ (nth_error argv 1 = Some "--reset" ->
      message_count st <= 5000
      /\ Z.of_nat (rows_sent (inserts st)) <= 5000).
Proof.
  intros Hrun. split; intros Harg.
  - assert (Hr : consume_and_load (Some 3500) (Some 60) false (the_broker w)
                 = (st, e)).
    { revert Hrun. unfold main. rewrite Harg.
      destruct (client_ok w); cbn [negb]; [|discriminate].
      cbn [String.eqb Ascii.eqb Bool.eqb orb andb negb].
      destruct (test_connections w) as [tested connected].
      destruct connected; cbn [negb]; [|discriminate].
      destruct (consume_and_load (Some 3500) (Some 60) false (the_broker w))
        as [s1 e1].
      destruct e1; cbn [snd run negb]; intros H; injection H as <- <-;
        reflexivity. }
    destruct (bounded_run_within_limit 3500 (Some 60) (the_broker w) st e)
      as (H1 & _ & H2); [discriminate|exact Hr|]. lia.
  - assert (Hr : consume_and_load (Some 5000) (Some 120) false (the_broker w)
                 = (st, e)).
    { revert Hrun. unfold main. rewrite Harg.
      destruct (client_ok w); cbn [negb]; [|discriminate].
      cbn [String.eqb Ascii.eqb Bool.eqb orb andb negb].
      destruct (test_connections w) as [tested connected].
      destruct connected; cbn [negb]; [|discriminate].
      destruct (consume_and_load (Some 5000) (Some 120) false (the_broker w))
        as [s1 e1].
      destruct e1; cbn [snd run negb]; intros H; injection H as <- <-;
        reflexivity. }
    destruct (bounded_run_within_limit 5000 (Some 120) (the_broker w) st e)
      as (H1 & _ & H2); [discriminate|exact Hr|]. lia.
Qed.
End Bridge.

(** ** The properties at sample inputs *)

Lemma filter_drops_witness :
  exists st',
    iteration JsonRef.loads sink_up None None true 0 (brings tombstone 3)
              initial_state = (st', Continue)
    /\ batch_data st' = batch_data initial_state
    /\ inserts st' = inserts initial_state.
Proof.
  destruct (filter_drops JsonRef.loads sink_up None None true 0 tombstone
                         (lit "{'_id': 1, '__deleted': true}")
                         (brings tombstone 3) initial_state)
    as (st' & H1 & H2 & H3 & _).
  - reflexivity.
  - vm_compute. reflexivity.
  - right. right. right. eexists. split; vm_compute; reflexivity.
  - exists st'. auto.
Defined.

Lemma object_payload_kept_witness :
  exists st' c buf r,
    iteration JsonRef.loads sink_up None None true 0 (brings order_event 3)
              initial_state = (st', c)
    /\ dict_get "mongo_ecom_orders" (batch_data initial_state) = Some buf
    /\ raw_data r = lit "{'_id': 1, 'total': 12.5}"
    /\ message_count st' = 1.
Proof.
  edestruct (object_payload_kept JsonRef.loads sink_up None None true 0
                                 order_event (brings order_event 3)
                                 initial_state "mongo_ecom_orders"
                                 (lit "{'_id': 1, 'total': 12.5}"))
    as (st' & c & buf & r & H1 & _ & H2 & H3 & _ & _ & H4 & _).
  - reflexivity.
  - reflexivity.
  - reflexivity.
  - vm_compute. reflexivity.
  - vm_compute. reflexivity.
  - vm_compute. reflexivity.
  - vm_compute. reflexivity.
  - reflexivity.
  - exists st', c, buf, r. auto.
Defined.

Lemma undecodable_dropped_witness :
  iteration JsonRef.loads sink_up None None true 0 (brings garbled 3)
            initial_state
  = (logger (ErrorProcessing UnicodeDecodeError) initial_state, Continue).
Proof.
  apply (undecodable_dropped JsonRef.loads sink_up None None true 0 garbled
                             [xff; xfe] (brings garbled 3) [] initial_state).
  - reflexivity.
  - reflexivity.
  - reflexivity.
  - reflexivity.
  - exists "mongo_ecom_orders". reflexivity.
Defined.

Lemma deleted_equal_to_True_dropped_witness :
  iteration JsonRef.loads sink_up None None true 0 (brings deleted_one 3)
            initial_state = (initial_state, Continue).
Proof.
  edestruct (deleted_equal_to_True_dropped
               JsonRef.loads sink_up None None true 0 deleted_one
               (brings deleted_one 3) initial_state "mongo_ecom_orders"
               (lit "{'_id': 1, '__deleted': 1}"))
    as (H & _).
  - reflexivity.
  - reflexivity.
  - reflexivity.
  - vm_compute. reflexivity.
  - vm_compute. reflexivity.
  - vm_compute. reflexivity.
  - reflexivity.
  - apply H. left. vm_compute. reflexivity.
Defined.


Lemma failed_flush_discarded_witness :
  exists st',
    iteration JsonRef.loads sink_down_once None None true 0
              (brings order_event 3)
              (fst (loop JsonRef.loads sink_down_once None None true 0
                         (repeat (brings order_event 3) 99) initial_state))
    = (st', Continue)
    /\ dict_get "mongo_ecom_orders" (batch_data st') = Some []
    /\ stored (inserts st') = [].
Proof.
  destruct (failed_flush_discarded
               JsonRef.loads sink_down_once None None true 0
               (brings order_event 3)
               (fst (loop JsonRef.loads sink_down_once None None true 0
                          (repeat (brings order_event 3) 99) initial_state))
               "mongo_ecom_orders"
               (row_of order_event (lit "{'_id': 1, 'total': 12.5}") 3)
               (repeat (row_of order_event (lit "{'_id': 1, 'total': 12.5}") 3)
                       99)
               [] [])
    as (st' & H1 & H2 & _ & _ & H3 & _).
  - vm_compute. reflexivity.
  - vm_compute. reflexivity.
  - vm_compute. reflexivity.
  - vm_compute. reflexivity.
  - vm_compute. reflexivity.
  - exists st'. auto.
Defined.

Lemma limit_counts_kept_messages_witness :
  exists st,
    consume_and_load JsonRef.loads sink_up (Some 50) (Some 60) false
                     (serving ((brings tombstone 1
                                  :: repeat (brings order_event 2) 49)
                                 ++ brings order_event 3
                                 :: [brings order_event 4]))
    = (st, Drained)
    /\ message_count st = 50.
Proof.
  edestruct (limit_counts_kept_messages
               JsonRef.loads sink_up (Some 60) 0
               (brings tombstone 1 :: repeat (brings order_event 2) 49)
               [brings order_event 4] (brings order_event 3))
    as (_ & st & H1 & H2 & _).
  - apply Forall_forall. intros x Hx. destruct Hx as [<-|Hx]; [exact I|].
    apply repeat_spec in Hx. subst x. exact I.
  - vm_compute. reflexivity.
  - vm_compute. discriminate.
  - exists st. split; [exact H1|exact H2].
Defined.


Lemma startup_failures_as_coded_witness :
  exit_status (ended (main JsonRef.loads sink_up ["bridge.py"]
                           (world_with false no_command
                                       [brings order_event 3])))
  = Some 0
  /\ run (main JsonRef.loads sink_up ["bridge.py"; "--batch"]
                (world_with true is_create [brings order_event 3]))
     = Some (consume_and_load JsonRef.loads sink_up (Some 3500) (Some 60)
                              false (serving [brings order_event 3])).
Proof.
  split.
  - edestruct (startup_failures_as_coded
                 JsonRef.loads sink_up ["bridge.py"]
                 (world_with false no_command [brings order_event 3]))
      as (_ & H & _).
    apply H; [reflexivity|right; reflexivity].
  - edestruct (startup_failures_as_coded
                 JsonRef.loads sink_up ["bridge.py"; "--batch"]
                 (world_with true is_create [brings order_event 3]))
      as (_ & _ & H).
    edestruct H as (_ & Hb & _);
      [reflexivity|reflexivity|reflexivity|discriminate|discriminate|].
    apply Hb. reflexivity.
Defined.

(** ** Where the code departs from the specification *)

(** Claim C3 as stated fails: the limit does not count every processed
    message.  With a limit of 50, after 50 processed messages of which
    the first is a tombstone the run is still polling; it drains only
    after the next kept message. *)
Lemma limit_ignores_dropped_messages :
  ~ (forall polls : list tick,
        Forall (fun t => exists m, polled t = PollMsg m) polls ->
        List.length polls = 50%nat ->
        snd (consume_and_load JsonRef.loads sink_up (Some 50) (Some 60) false
                              (serving polls)) = Drained).
Proof.
  intros H.
  assert (HF : Forall (fun t => exists m, polled t = PollMsg m)
                      (brings tombstone 1 :: repeat (brings order_event 2) 49)).
  { apply Forall_forall. intros x [<-|Hx]; [eexists; reflexivity|].
    apply repeat_spec in Hx. subst x. eexists. reflexivity. }
  specialize (H _ HF eq_refl). vm_compute in H. discriminate H.
Qed.

(** Claim C7 as stated fails: a payload that parses and carries no
    deletion marker set to [true] is not always kept.  The JSON array
    [[]] parses, has no marker, and the message is dropped by the
    per-message handler ([AttributeError]); no row reaches the buffer. *)
Lemma parsed_payload_not_always_kept :
  ~ (forall (m : message) (text : str) (v : json) (table : string),
        msg_error m = None ->
        dict_get (msg_topic m) topic_table_mapping = Some table ->
        message_text m = Ok text ->
        JsonRef.loads text = Loaded v ->
        (forall members, v = JObj members ->
                         obj_get (lit "__deleted") members
                         <> Some (JBool true)) ->
        dict_get table
                 (batch_data
                    (fst (iteration JsonRef.loads sink_up None None true 0
                                    (brings m 3) initial_state)))
        = Some [row_of m text 3]).
Proof.
  intros H.
  assert (H1 : message_text array_payload = Ok (lit "[]"))
    by (vm_compute; reflexivity).
  assert (H2 : JsonRef.loads (lit "[]") = Loaded (JArr []))
    by (vm_compute; reflexivity).
  assert (H3 : forall members, JArr [] = JObj members ->
                               obj_get (lit "__deleted") members
                               <> Some (JBool true))
    by (intros members Hm; discriminate Hm).
  specialize (H array_payload (lit "[]") (JArr []) "mongo_ecom_orders"
                eq_refl eq_refl H1 H2 H3).
  vm_compute in H. discriminate H.
Qed.

(** Claim C8 as stated fails twice.  With the broker unreachable the
    process ends by a normal return, exit status 0, not a non-zero one;
    and with a table creation refused by the sink, [main] still
    subscribes, consumes the message offered and keeps it. *)
Lemma startup_failures_not_as_stated :
  ~ (forall (argv : list string) (w : world),
        client_ok w = true -> kafka_ok w = false ->
        exists z, exit_status (ended (main JsonRef.loads sink_up argv w))
                  = Some z /\ z <> 0)
  /\ ~ (forall (argv : list string) (w : world),
           client_ok w = true ->
           (exists table, In table tables
                          /\ command_ok w (CreateTable table) = false) ->
           run (main JsonRef.loads sink_up argv w) = None).
Proof.
  split.
  - intros H.
    destruct (H ["bridge.py"]
                (world_with false no_command [brings order_event 3])
                eq_refl eq_refl) as (z & Hz & Hnz).
    vm_compute in Hz. congruence.
  - intros H.
    assert (He : exists table,
               In table tables
               /\ command_ok (world_with true is_create
                                         [brings order_event 3])
                             (CreateTable table) = false).
    { exists "mongo_ecom_orders". split; [simpl; auto|reflexivity]. }
    specialize (H ["bridge.py"]
                  (world_with true is_create [brings order_event 3])
                  eq_refl He).
    vm_compute in H. discriminate H.
Qed.

(** Claim C4 fails on the code for the operator's interrupt.  In
    continuous mode, one kept message followed by the interrupt:
    [KeyboardInterrupt] is no [Exception], so it leaves
    [consume_and_load] past the drain of lines 199-202 and is caught in
    [main]; the row is still in its buffer, no insert was made, and
    [main] returns. *)
Theorem interrupt_skips_drain :
  let r := main JsonRef.loads sink_up ["bridge.py"]
                (world_with true no_command [brings order_event 3; ctrl_c]) in
  ended r = Returned
  /\ exists st,
      run r = Some (st, Interrupted)
      /\ buffered (batch_data st)
         = [row_of order_event (lit "{'_id': 1, 'total': 12.5}") 3]
      /\ inserts st = [].
Proof.
  split; [vm_compute; reflexivity|].
  eexists. repeat apply conj; vm_compute; reflexivity.
Qed.

(** * Properties of the seeding script *)

Lemma seed_choice_In {A : Type} (c : Seed.chance) (seq : list A)
      (u u' : Seed.used) (a : A) :
  Seed.choice c seq u = Some (a, u') -> In a seq.
Proof.
  unfold Seed.choice. destruct seq as [|x seq]; [discriminate|].
  destruct (nth_error (x :: seq) _) as [y|] eqn:E; [|discriminate].
  intros H. injection H as <- _. eapply nth_error_In, E.
Qed.

Lemma seed_choice_some {A : Type} (c : Seed.chance) (seq : list A)
      (u : Seed.used) :
  seq <> [] -> exists a, Seed.choice c seq u = Some (a, Seed.draw_next u).
Proof.
  intros Hne. unfold Seed.choice. destruct seq as [|x seq]; [congruence|].
  destruct (nth_error (x :: seq)
                      (Seed.draw c (Seed.drawn u) mod List.length (x :: seq))%nat)
    as [y|] eqn:E.
  - exists y. reflexivity.
  - apply nth_error_None in E.
    pose proof (Nat.mod_upper_bound (Seed.draw c (Seed.drawn u))
                                    (List.length (x :: seq))) as Hm.
    simpl in *. lia.
Qed.

Lemma seed_randint_range (c : Seed.chance) (a b : Z) (u : Seed.used) :
  a <= b -> a <= fst (Seed.randint c a b u) <= b.
Proof.
  intros Hab. unfold Seed.randint. simpl.
  pose proof (Nat.mod_upper_bound (Seed.draw c (Seed.drawn u))
                                  (Z.to_nat (b - a + 1))) as Hm.
  lia.
Qed.

Lemma seed_items_spec (c : Seed.chance) (product_ids : list nat) (n : nat) :
  forall (u u' : Seed.used) (its : list Seed.line_item),
    Seed.items n product_ids c u = Some (its, u') ->
    List.length its = n
    /\ Forall (fun it => In (Seed.product_id it) product_ids
                         /\ 1 <= Seed.quantity it <= 5) its.
Proof.
  induction n as [|n IH]; intros u u' its; cbn [Seed.items].
  - intros H. injection H as <- _. auto.
  - destruct (Seed.choice c product_ids u) as [[pid u1]|] eqn:Ec;
      [|discriminate].
    pose proof (seed_randint_range c 1 5 u1) as Hq.
    destruct (Seed.randint c 1 5 u1) as [q u2].
    destruct (Seed.uniform_price c u2) as [p u3].
    destruct (Seed.items n product_ids c u3) as [[rest u4]|] eqn:Er;
      [|discriminate].
    intros H. injection H as <- _.
    destruct (IH _ _ _ Er) as [Hl Hf].
    split; [simpl; congruence|].
    constructor; [|exact Hf]. cbn [Seed.product_id Seed.quantity]. split.
    + eapply seed_choice_In, Ec.
    + apply Hq. lia.
Qed.

Lemma seed_orders_spec (c : Seed.chance)
      (customer_ids product_ids : list nat) (count : nat) :
  forall (u u' : Seed.used) (docs : list Seed.order),
    Seed.orders count customer_ids product_ids c u = Some (docs, u') ->
    List.length docs = count
    /\ Forall (fun o =>
                 In (Seed.customer_id o) customer_ids
                 /\ In (Seed.status o) Seed.statuses
                 /\ (1 <= List.length (Seed.line_items o) <= 5)%nat
                 /\ Forall (fun it =>
                              In (Seed.product_id it) product_ids
                              /\ 1 <= Seed.quantity it <= 5)
                           (Seed.line_items o)) docs.
Proof.
  induction count as [|n IH]; intros u u' docs; cbn [Seed.orders].
  - intros H. injection H as <- _. auto.
  - destruct (Seed.choice c customer_ids u) as [[cid u1]|] eqn:Ec;
      [|discriminate].
    destruct (Seed.fake_datetime c u1) as [date u2].
    destruct (Seed.choice c Seed.statuses u2) as [[st u3]|] eqn:Es;
      [|discriminate].
    pose proof (seed_randint_range c 1 5 u3) as Hn.
    destruct (Seed.randint c 1 5 u3) as [num u4]. simpl in Hn.
    destruct (Seed.items (Z.to_nat num) product_ids c u4) as [[its u5]|]
      eqn:Ei; [|discriminate].
    destruct (Seed.orders n customer_ids product_ids c u5) as [[rest u6]|]
      eqn:Er; [|discriminate].
    intros H. injection H as <- _.
    destruct (IH _ _ _ Er) as [Hl Hf].
    destruct (seed_items_spec c product_ids _ _ _ _ Ei) as [Hil Hif].
    split; [simpl; congruence|].
    constructor; [|exact Hf].
    cbn [Seed.customer_id Seed.status Seed.line_items].
    split; [eapply seed_choice_In, Ec|].
    split; [eapply seed_choice_In, Es|].
    split; [lia|exact Hif].
Qed.

(** Extra X17.  The orders [generate_orders] builds are well formed:
    there are exactly [count] of them; each names a customer among the
    identifiers it was given and one of the three statuses, and has
    between one and five line items, each for a product among the
    identifiers given and a quantity between 1 and 5. *)
Theorem seeded_orders_well_formed (c : Seed.chance)
        (customer_ids product_ids : list nat) (count : nat)
        (u u' : Seed.used) (docs : list Seed.order) :
  Seed.orders count customer_ids product_ids c u = Some (docs, u') ->
  List.length docs = count
  /\ Forall (fun o =>
               In (Seed.customer_id o) customer_ids
               /\ In (Seed.status o) Seed.statuses
               /\ (1 <= List.length (Seed.line_items o) <= 5)%nat
               /\ Forall (fun it =>
                            In (Seed.product_id it) product_ids
                            /\ 1 <= Seed.quantity it <= 5)
                         (Seed.line_items o)) docs.
Proof.
  apply seed_orders_spec.
Qed.

(** Extra X18.  Orders need something to refer to: asked for at least
    one order with no customer identifier or no product identifier,
    [generate_orders] raises ([IndexError] from [random.choice]) before
    it inserts anything. *)
Theorem orders_need_customers_and_products (w : Seed.world)
        (customer_ids product_ids : list nat) (count : Z)
        (p : Seed.progress) :
  0 < count ->
  customer_ids = [] \/ product_ids = [] ->
  Seed.generate_orders w customer_ids product_ids count p = (Seed.Raises, p).
Proof.
  intros Hc Hempty. unfold Seed.generate_orders.
  destruct (Z.to_nat count) as [|n] eqn:En; [lia|].
  assert (Ho : Seed.orders (S n) customer_ids product_ids (Seed.luck w)
                           (Seed.at_ p) = None).
  { cbn [Seed.orders].
    destruct (Seed.choice (Seed.luck w) customer_ids (Seed.at_ p))
      as [[cid u1]|] eqn:Ec; [|reflexivity].
    destruct Hempty as [-> | ->]; [discriminate Ec|].
    destruct (Seed.fake_datetime (Seed.luck w) u1) as [date u2].
    destruct (Seed.choice (Seed.luck w) Seed.statuses u2) as [[st u3]|];
      [|reflexivity].
    pose proof (seed_randint_range (Seed.luck w) 1 5 u3) as Hn.
    destruct (Seed.randint (Seed.luck w) 1 5 u3) as [num u4]. simpl in Hn.
    destruct (Z.to_nat num) as [|k] eqn:Ek; [lia|]. reflexivity. }
  rewrite Ho. reflexivity.
Qed.

Lemma seed_endswith_drop (category : string) :
  In category Seed.categories ->
  In (if Seed.endswith_s category then Seed.drop_last category else category)
     [ "Electronic"; "Clothing"; "Book"; "Home & Garden"; "Sport";
       "Beauty" ].
Proof.
  simpl. intros [<-|[<-|[<-|[<-|[<-|[<-|[]]]]]]]; simpl; auto 10.
Qed.

Lemma seed_products_spec (c : Seed.chance) (count : nat) :
  forall u : Seed.used,
  exists docs u',
    Seed.products count c u = Some (docs, u')
    /\ List.length docs = count
    /\ Forall (fun p =>
                 0 <= Seed.stock_quantity p <= 100
                 /\ exists word kind,
                     Seed.name p = (word ++ " " ++ kind)%string
                     /\ In kind [ "Electronic"; "Clothing"; "Book";
                                  "Home & Garden"; "Sport"; "Beauty" ])
              docs.
Proof.
  induction count as [|n IH]; intros u; cbn [Seed.products].
  - exists [], u. auto.
  - destruct (seed_choice_some c Seed.categories u) as [category Ec];
      [discriminate|].
    rewrite Ec.
    destruct (Seed.fake_string c (Seed.draw_next u)) as [word u2].
    destruct (Seed.uniform_price c u2) as [p u3].
    pose proof (seed_randint_range c 0 100 u3) as Hs.
    destruct (Seed.randint c 0 100 u3) as [stock u4]. simpl in Hs.
    destruct (IH u4) as (rest & u5 & Hr & Hl & Hf).
    rewrite Hr. do 2 eexists. split; [reflexivity|].
    split; [simpl; congruence|].
    constructor; [|exact Hf]. simpl. split; [lia|].
    exists word.
    exists (if Seed.endswith_s category then Seed.drop_last category
            else category).
    split.
    + unfold Seed.product_name. destruct (Seed.endswith_s category);
        reflexivity.
    + apply seed_endswith_drop. eapply seed_choice_In, Ec.
Qed.


(** ** The calls of a seeding run *)

Lemma seed_customers_length (c : Seed.chance) (n : nat) :
  forall u : Seed.used, List.length (fst (Seed.customers n c u)) = n.
Proof.
  induction n as [|n IH]; intros u; cbn [Seed.customers]; [reflexivity|].
  unfold Seed.fake_string, Seed.fake_datetime.
  match goal with
  | |- context [Seed.customers n c ?v] =>
    specialize (IH v); destruct (Seed.customers n c v) as [rest u5]
  end.
  simpl in *. congruence.
Qed.

Lemma seed_perform_all_spec (w : Seed.world) (ks : list Seed.call) :
  forall p : Seed.progress,
  exists added,
    Seed.calls (snd (Seed.perform_all w ks p)) = Seed.calls p ++ added
    /\ incl added ks
    /\ (forall a, fst (Seed.perform_all w ks p) = Seed.Returns a ->
                  added = ks
                  /\ Forall (fun k => Seed.returns w k = true) ks).
Proof.
  induction ks as [|k ks IH]; intros p; cbn [Seed.perform_all].
  - exists []. rewrite app_nil_r. repeat split; auto. apply incl_refl.
  - unfold Seed.perform. destruct (Seed.returns w k) eqn:Ek.
    + destruct (IH (Seed.did k p)) as (added & Hc & Hi & Hr).
      exists (k :: added). split; [|split].
      * rewrite Hc. cbn [Seed.did Seed.calls]. rewrite <- app_assoc.
        reflexivity.
      * intros x [<-|Hx]; [left; reflexivity|right; apply Hi, Hx].
      * intros a Ha. destruct (Hr a Ha) as [-> Hf].
        split; [reflexivity|constructor; assumption].
    + exists [k]. split; [reflexivity|]. split.
      * intros x [<-|[]]. left. reflexivity.
      * cbn [fst]. discriminate.
Qed.

Lemma seed_generate_customers_spec (w : Seed.world) (count : Z)
      (p : Seed.progress) :
  exists docs,
    List.length docs = Z.to_nat count
    /\ Seed.calls (snd (Seed.generate_customers w count p))
       = Seed.calls p ++ [Seed.InsertCustomers docs]
    /\ fst (Seed.generate_customers w count p)
       = if Seed.returns w (Seed.InsertCustomers docs)
         then Seed.Returns (Seed.inserted_ids w "customers"
                                              (List.length docs))
         else Seed.Raises.
Proof.
  unfold Seed.generate_customers.
  pose proof (seed_customers_length (Seed.luck w) (Z.to_nat count)
                                    (Seed.at_ p)) as Hl.
  destruct (Seed.customers (Z.to_nat count) (Seed.luck w) (Seed.at_ p))
    as [docs u].
  exists docs. split; [exact Hl|]. unfold Seed.perform.
  destruct (Seed.returns w (Seed.InsertCustomers docs)); split; reflexivity.
Qed.

Lemma seed_generate_products_spec (w : Seed.world) (count : Z)
      (p : Seed.progress) :
  exists docs,
    List.length docs = Z.to_nat count
    /\ Seed.calls (snd (Seed.generate_products w count p))
       = Seed.calls p ++ [Seed.InsertProducts docs]
    /\ fst (Seed.generate_products w count p)
       = if Seed.returns w (Seed.InsertProducts docs)
         then Seed.Returns (Seed.inserted_ids w "products"
                                              (List.length docs))
         else Seed.Raises.
Proof.
  unfold Seed.generate_products.
  destruct (seed_products_spec (Seed.luck w) (Z.to_nat count) (Seed.at_ p))
    as (docs & u & -> & Hl & _).
  exists docs. split; [exact Hl|]. unfold Seed.perform.
  destruct (Seed.returns w (Seed.InsertProducts docs)); split; reflexivity.
Qed.

Lemma seed_generate_orders_spec (w : Seed.world)
      (customer_ids product_ids : list nat) (count : Z)
      (p : Seed.progress) :
  (Seed.generate_orders w customer_ids product_ids count p
   = (Seed.Raises, p))
  \/ exists docs u,
      Seed.orders (Z.to_nat count) customer_ids product_ids (Seed.luck w)
                  (Seed.at_ p) = Some (docs, u)
      /\ Seed.calls (snd (Seed.generate_orders w customer_ids product_ids
                                               count p))
         = Seed.calls p ++ [Seed.InsertOrders docs]
      /\ fst (Seed.generate_orders w customer_ids product_ids count p)
         = if Seed.returns w (Seed.InsertOrders docs)
           then Seed.Returns (Seed.inserted_ids w "orders"
                                                (List.length docs))
           else Seed.Raises.
Proof.
  unfold Seed.generate_orders.
  destruct (Seed.orders (Z.to_nat count) customer_ids product_ids
                        (Seed.luck w) (Seed.at_ p)) as [[docs u]|];
    [|left; reflexivity].
  right. exists docs, u. split; [reflexivity|]. unfold Seed.perform.
  destruct (Seed.returns w (Seed.InsertOrders docs)); split; reflexivity.
Qed.

(** What the body of the [try] adds to the calls: never a [close]; and
    when it returns, the twelve calls of a full seeding, all of which
    returned. *)
Lemma seed_body_spec (w : Seed.world) (p : Seed.progress) :
  exists added,
    Seed.calls (snd (Seed.seed w p)) = Seed.calls p ++ added
    /\ ~ In Seed.Close added
    /\ (forall a, fst (Seed.seed w p) = Seed.Returns a ->
          Forall (fun k => Seed.returns w k = true) added
          /\ exists cs ps os u u',
              added
              = [ Seed.DeleteMany "customers"; Seed.DeleteMany "products";
                  Seed.DeleteMany "orders"; Seed.InsertCustomers cs;
                  Seed.InsertProducts ps; Seed.InsertOrders os;
                  Seed.CountDocuments "customers";
                  Seed.CountDocuments "products";
                  Seed.CountDocuments "orders"; Seed.FindOne "customers";
                  Seed.FindOne "products"; Seed.FindOne "orders" ]
              /\ List.length cs = 50%nat
              /\ List.length ps = 100%nat
              /\ Seed.orders 200 (Seed.inserted_ids w "customers" 50)
                             (Seed.inserted_ids w "products" 100)
                             (Seed.luck w) u = Some (os, u')).
Proof.
  unfold Seed.seed.
  destruct (seed_perform_all_spec
              w [ Seed.DeleteMany "customers"; Seed.DeleteMany "products";
                  Seed.DeleteMany "orders" ] p) as (a1 & Hc1 & Hi1 & Hr1).
  destruct (Seed.perform_all w _ p) as [[[]|] p1]; cbn [fst snd] in *.
  2: { exists a1. split; [exact Hc1|]. split; [|discriminate].
       intros Hin. apply Hi1 in Hin. simpl in Hin.
       repeat (destruct Hin as [Hin|Hin]; [discriminate Hin|]). exact Hin. }
  destruct (Hr1 tt eq_refl) as [-> Hf1]. clear Hr1 Hi1.
  destruct (seed_generate_customers_spec w 50 p1) as (cs & Hlc & Hc2 & Ho2).
  destruct (Seed.generate_customers w 50 p1) as [[customer_ids|] p2];
    cbn [fst snd] in *.
  2: { eexists. rewrite Hc2, Hc1, <- app_assoc. split; [reflexivity|].
       split; [|discriminate]. simpl.
       intros Hin.
       repeat (destruct Hin as [Hin|Hin]; [discriminate Hin|]). exact Hin. }
  destruct (Seed.returns w (Seed.InsertCustomers cs)) eqn:Ecs;
    [|discriminate Ho2].
  injection Ho2 as ->.
  destruct (seed_generate_products_spec w 100 p2) as (ps & Hlp & Hc3 & Ho3).
  destruct (Seed.generate_products w 100 p2) as [[product_ids|] p3];
    cbn [fst snd] in *.
  2: { eexists. rewrite Hc3, Hc2, Hc1, <- !app_assoc.
       split; [reflexivity|]. split; [|discriminate]. simpl.
       intros Hin.
       repeat (destruct Hin as [Hin|Hin]; [discriminate Hin|]). exact Hin. }
  destruct (Seed.returns w (Seed.InsertProducts ps)) eqn:Eps;
    [|discriminate Ho3].
  injection Ho3 as ->.
  destruct (seed_generate_orders_spec
              w (Seed.inserted_ids w "customers" (List.length cs))
              (Seed.inserted_ids w "products" (List.length ps)) 200 p3)
    as [Hraise|(os & u' & Hos & Hc4 & Ho4)].
  { rewrite Hraise. exists ([ Seed.DeleteMany "customers";
                             Seed.DeleteMany "products";
                             Seed.DeleteMany "orders" ]
                             ++ [Seed.InsertCustomers cs]
                             ++ [Seed.InsertProducts ps]).
    cbn [fst snd]. rewrite Hc3, Hc2, Hc1, <- !app_assoc.
    split; [reflexivity|]. split; [|discriminate]. simpl.
    intros Hin.
    repeat (destruct Hin as [Hin|Hin]; [discriminate Hin|]). exact Hin. }
  destruct (Seed.generate_orders w _ _ 200 p3) as [[order_ids|] p4];
    cbn [fst snd] in *.
  2: { eexists. rewrite Hc4, Hc3, Hc2, Hc1, <- !app_assoc.
       split; [reflexivity|]. split; [|discriminate]. simpl.
       intros Hin.
       repeat (destruct Hin as [Hin|Hin]; [discriminate Hin|]). exact Hin. }
  destruct (Seed.returns w (Seed.InsertOrders os)) eqn:Eos;
    [|discriminate Ho4].
  unfold Seed.print_collection_stats.
  destruct (seed_perform_all_spec
              w [ Seed.CountDocuments "customers";
                  Seed.CountDocuments "products";
                  Seed.CountDocuments "orders"; Seed.FindOne "customers";
                  Seed.FindOne "products"; Seed.FindOne "orders" ] p4)
    as (a5 & Hc5 & Hi5 & Hr5).
  exists ([ Seed.DeleteMany "customers"; Seed.DeleteMany "products";
            Seed.DeleteMany "orders" ]
            ++ [Seed.InsertCustomers cs] ++ [Seed.InsertProducts ps]
            ++ [Seed.InsertOrders os] ++ a5).
  split; [|split].
  - rewrite Hc5, Hc4, Hc3, Hc2, Hc1, <- !app_assoc. reflexivity.
  - simpl. intros Hin.
    repeat (destruct Hin as [Hin|Hin]; [discriminate Hin|]).
    apply Hi5 in Hin. simpl in Hin.
    repeat (destruct Hin as [Hin|Hin]; [discriminate Hin|]). exact Hin.
  - intros a Ha. destruct (Hr5 a Ha) as [-> Hf5]. split.
    + apply Forall_app. split; [exact Hf1|].
      repeat (constructor; [assumption|]). exact Hf5.
    + exists cs, ps, os, (Seed.at_ p3), u'.
      split; [reflexivity|]. split; [exact Hlc|]. split; [exact Hlp|].
      rewrite Hlc, Hlp in Hos. exact Hos.
Qed.

(** Extra X20.  The client is closed exactly when [main] got hold of
    it.  Once [connect_to_mongodb] returned, [close] is the last call of
    the run and is made once, whether the seeding returned or raised;
    when the ping fails the client that was created is never closed
    ([client] is unbound in [main]), and without a client nothing is
    called. *)
Theorem client_closed_iff_connected (w : Seed.world) :
  exists middle,
    ~ In Seed.Close middle
    /\ Seed.calls (snd (Seed.main w))
       = if Seed.client_made w
         then if Seed.returns w Seed.Ping
              then Seed.Ping :: middle ++ [Seed.Close]
              else [Seed.Ping]
         else [].
Proof.
  unfold Seed.main.
  destruct (Seed.client_made w); cbn [negb]; [|exists []; auto].
  unfold Seed.perform at 1.
  destruct (Seed.returns w Seed.Ping); [|exists []; auto].
  match goal with
  | |- context [Seed.seed w ?q] =>
    destruct (seed_body_spec w q) as (added & Hc & Hn & _);
      destruct (Seed.seed w q) as [outcome p2]
  end.
  exists added. split; [exact Hn|].
  unfold Seed.perform. cbn [snd] in Hc.
  destruct (Seed.returns w Seed.Close); cbn [snd Seed.did Seed.calls];
    rewrite Hc; reflexivity.
Qed.

Lemma seed_main_returns (w : Seed.world) (a : unit) :
  fst (Seed.main w) = Seed.Returns a ->
  Seed.client_made w = true
  /\ Seed.returns w Seed.Ping = true
  /\ Seed.returns w Seed.Close = true
  /\ exists p2,
      Seed.seed w (Seed.did Seed.Ping
                            {| Seed.calls := [];
                               Seed.at_ := {| Seed.drawn := 0;
                                              Seed.faked := 0 |} |})
      = (Seed.Returns a, p2)
      /\ Seed.calls (snd (Seed.main w)) = Seed.calls p2 ++ [Seed.Close].
Proof.
  unfold Seed.main, Seed.perform.
  destruct (Seed.client_made w); cbn [negb]; [|discriminate].
  destruct (Seed.returns w Seed.Ping); [|discriminate].
  destruct (Seed.seed w _) as [outcome p2].
  destruct (Seed.returns w Seed.Close); cbn [fst snd]; [|discriminate].
  intros ->. repeat split; auto. exists p2. split; reflexivity.
Qed.

(** Extra X21.  A seeding run that returns made exactly these calls, in
    this order: the ping, the three clearings, one insert of 50
    customers, one of 100 products and one of 200 orders, the three
    counts, the three samples and the close; and the orders inserted
    refer to the identifiers the two earlier inserts returned, for their
    customer and for the product of every line item. *)
Theorem successful_seeding_run (w : Seed.world) :
  fst (Seed.main w) = Seed.Returns tt ->
  exists cs ps os,
    Seed.calls (snd (Seed.main w))
    = [ Seed.Ping; Seed.DeleteMany "customers"; Seed.DeleteMany "products";
        Seed.DeleteMany "orders"; Seed.InsertCustomers cs;
        Seed.InsertProducts ps; Seed.InsertOrders os;
        Seed.CountDocuments "customers"; Seed.CountDocuments "products";
        Seed.CountDocuments "orders"; Seed.FindOne "customers";
        Seed.FindOne "products"; Seed.FindOne "orders"; Seed.Close ]
    /\ List.length cs = 50%nat
    /\ List.length ps = 100%nat
    /\ List.length os = 200%nat
    /\ Forall (fun o =>
                 In (Seed.customer_id o)
                    (Seed.inserted_ids w "customers" 50)
                 /\ Forall (fun it =>
                              In (Seed.product_id it)
                                 (Seed.inserted_ids w "products" 100))
                           (Seed.line_items o)) os.
Proof.
  intros Hr.
  destruct (seed_main_returns w tt Hr) as (_ & _ & _ & p2 & Hs & Hc).
  match type of Hs with
  | Seed.seed w ?q = _ =>
    destruct (seed_body_spec w q) as (added & Ha & _ & Hok)
  end.
  rewrite Hs in Ha, Hok. cbn [fst snd] in Ha, Hok.
  destruct (Hok tt eq_refl)
    as (_ & cs & ps & os & u & u' & -> & Hlc & Hlp & Hos).
  destruct (seed_orders_spec _ _ _ _ _ _ _ Hos) as [Hlo Hf].
  exists cs, ps, os. split; [rewrite Hc, Ha; reflexivity|].
  split; [exact Hlc|]. split; [exact Hlp|]. split; [exact Hlo|].
  eapply Forall_impl; [|exact Hf].
  intros o (H1 & _ & _ & H4). split; [exact H1|].
  eapply Forall_impl; [|exact H4]. intros it [H _]. exact H.
Qed.

(** Extra X22.  No failure of the database is swallowed: when any call
    the script made on MongoDB raised (the ping, a clearing, an insert,
    a count, a sample or the close), [main] raises. *)
Theorem seed_failure_never_swallowed (w : Seed.world) (k : Seed.call) :
  In k (Seed.calls (snd (Seed.main w))) ->
  Seed.returns w k = false ->
  fst (Seed.main w) = Seed.Raises.
Proof.
  intros Hin Hk.
  destruct (fst (Seed.main w)) as [[]|] eqn:Hr; [|reflexivity].
  exfalso.
  destruct (seed_main_returns w tt Hr) as (_ & Hp & Hcl & p2 & Hs & Hc).
  match type of Hs with
  | Seed.seed w ?q = _ =>
    destruct (seed_body_spec w q) as (added & Ha & _ & Hok)
  end.
  rewrite Hs in Ha, Hok. cbn [fst snd] in Ha, Hok.
  destruct (Hok tt eq_refl) as (Hf & _).
  rewrite Hc, Ha in Hin. cbn [Seed.did Seed.calls app] in Hin.
  destruct Hin as [<-|Hin]; [congruence|].
  apply in_app_or in Hin. destruct Hin as [Hin|[<-|[]]].
  - rewrite Forall_forall in Hf. apply Hf in Hin. congruence.
  - congruence.
Qed.

(** ** The further properties at sample inputs *)

Lemma drained_run_sends_every_row_once_witness :
  sent_to "mongo_ecom_orders"
          (inserts
             (fst (consume_and_load
                     JsonRef.loads sink_up (Some 2) None false
                     (serving [ brings order_event 1; brings tombstone 2;
                                brings order_event 3 ]))))
  = [ row_of order_event (lit "{'_id': 1, 'total': 12.5}") 1;
      row_of order_event (lit "{'_id': 1, 'total': 12.5}") 3 ].
Proof.
  destruct (drained_run_sends_every_row_once
              JsonRef.loads sink_up (Some 2) None false
              (serving [ brings order_event 1; brings tombstone 2;
                         brings order_event 3 ])
              (fst (consume_and_load
                      JsonRef.loads sink_up (Some 2) None false
                      (serving [ brings order_event 1; brings tombstone 2;
                                 brings order_event 3 ]))))
    as [H _].
  - vm_compute. reflexivity.
  - rewrite H. vm_compute. reflexivity.
Defined.

Lemma limit_never_exceeded_witness :
  message_count
    (fst (consume_and_load
            JsonRef.loads sink_up (Some 2) None false
            (serving [ brings order_event 1; brings order_event 2;
                       brings order_event 3 ])))
  <= 2.
Proof.
  edestruct (limit_never_exceeded
               JsonRef.loads sink_up 2 None
               (serving [ brings order_event 1; brings order_event 2;
                          brings order_event 3 ]))
    as (H & _).
  - discriminate.
  - apply surjective_pairing.
  - exact H.
Defined.

Lemma messages_never_time_out_witness :
  snd (consume_and_load
         JsonRef.loads sink_up None (Some 60) false
         (serving [ brings order_event 100; brings tombstone 200 ]))
  = Polling.
Proof.
  apply (messages_never_time_out
           JsonRef.loads sink_up None (Some 60)
           (serving [ brings order_event 100; brings tombstone 200 ]));
    reflexivity.
Defined.

Lemma zero_limits_never_stop_witness :
  snd (consume_and_load
         JsonRef.loads sink_up (Some 0) (Some 0) false
         (serving [ brings order_event 1;
                    {| polled := PollNone; now := 1000 |} ]))
  = Polling.
Proof.
  apply (zero_limits_never_stop
           JsonRef.loads sink_up (Some 0) (Some 0)
           (serving [ brings order_event 1;
                      {| polled := PollNone; now := 1000 |} ]));
    reflexivity.
Defined.

Lemma timeout_ends_run_witness :
  exists st,
    consume_and_load
      JsonRef.loads sink_up None (Some 60) false
      (serving ([brings order_event 1]
                  ++ {| polled := PollNone; now := 61 |}
                  :: [brings order_event 100]))
    = (st, Drained)
    /\ message_count st = 1
    /\ sent_to "mongo_ecom_orders" (inserts st)
       = [row_of order_event (lit "{'_id': 1, 'total': 12.5}") 1].
Proof.
  destruct (timeout_ends_run
              JsonRef.loads sink_up None (Some 60) 0
              [brings order_event 1] [brings order_event 100]
              {| polled := PollNone; now := 61 |})
    as (st & H1 & H2 & _ & _ & H3).
  - constructor; [exact I|constructor].
  - left. reflexivity.
  - reflexivity.
  - reflexivity.
  - reflexivity.
  - exists st. split; [exact H1|]. split.
    + rewrite H2. vm_compute. reflexivity.
    + rewrite H3. vm_compute. reflexivity.
Defined.

Lemma poll_failure_skips_drain_witness :
  snd (consume_and_load
         JsonRef.loads sink_up None None true
         (serving ([brings order_event 1]
                     ++ {| polled := PollRaises; now := 2 |} :: [])))
  = Failed.
Proof.
  edestruct (poll_failure_skips_drain
               JsonRef.loads sink_up None None true 0
               [brings order_event 1] []
               {| polled := PollRaises; now := 2 |})
    as (H & _).
  - vm_compute. reflexivity.
  - unfold serving. rewrite (H eq_refl). reflexivity.
Defined.

Lemma sink_calls_well_formed_witness :
  exists call,
    In call (inserts
               (fst (consume_and_load JsonRef.loads sink_up (Some 1) None
                                      false
                                      (serving [brings order_event 1]))))
    /\ In (ic_table call) tables
    /\ (0 < List.length (ic_data call) <= batch_size)%nat.
Proof.
  assert (H : In {| ic_table := "mongo_ecom_orders";
                    ic_data := [ row_of order_event
                                        (lit "{'_id': 1, 'total': 12.5}")
                                        1 ];
                    ic_ok := true |}
                 (inserts
                    (fst (consume_and_load JsonRef.loads sink_up (Some 1)
                                           None false
                                           (serving [brings order_event 1])))))
    by (vm_compute; left; reflexivity).
  eexists. split; [exact H|].
  apply (sink_calls_well_formed JsonRef.loads sink_up (Some 1) None false
                                (serving [brings order_event 1]) _ H).
Defined.

Lemma unknown_flag_runs_continuously_witness :
  main JsonRef.loads sink_up ["bridge.py"; "--verbose"; "now"]
       (world_with true no_command [brings order_event 3])
  = main JsonRef.loads sink_up []
         (world_with true no_command [brings order_event 3]).
Proof.
  apply (unknown_flag_runs_continuously
           JsonRef.loads sink_up "bridge.py" "--verbose" ["now"]
           (world_with true no_command [brings order_event 3]));
    discriminate.
Defined.

Lemma truncate_only_on_reset_witness :
  group (main JsonRef.loads sink_up ["bridge.py"; "--reset"]
              (world_with true no_command [brings order_event 3]))
  = ResetGroup 0.
Proof.
  edestruct (truncate_only_on_reset
               JsonRef.loads sink_up ["bridge.py"; "--reset"]
               (world_with true no_command [brings order_event 3])
               "mongo_ecom_orders" true)
    as (_ & _ & _ & H & _).
  - vm_compute. do 6 right. left. reflexivity.
  - exact H.
Defined.

Lemma batch_modes_bounded_witness :
  exists st e,
    run (main JsonRef.loads sink_up ["bridge.py"; "--batch"]
              (world_with true no_command [brings order_event 3]))
    = Some (st, e)
    /\ message_count st <= 3500.
Proof.
  edestruct (batch_modes_bounded
               JsonRef.loads sink_up ["bridge.py"; "--batch"]
               (world_with true no_command [brings order_event 3]))
    as [H _].
  - vm_compute. reflexivity.
  - do 2 eexists. split; [vm_compute; reflexivity|].
    apply (H eq_refl).
Defined.

Lemma seeded_orders_well_formed_witness :
  exists docs u',
    Seed.orders 3 [1; 2]%nat [7; 8; 9]%nat Seed.counting
                {| Seed.drawn := 0; Seed.faked := 0 |} = Some (docs, u')
    /\ List.length docs = 3%nat.
Proof.
  edestruct (seeded_orders_well_formed
               Seed.counting [1; 2]%nat [7; 8; 9]%nat 3
               {| Seed.drawn := 0; Seed.faked := 0 |})
    as [H _].
  - vm_compute. reflexivity.
  - do 2 eexists. split; [vm_compute; reflexivity|exact H].
Defined.

Lemma orders_need_customers_and_products_witness :
  Seed.generate_orders (Seed.answering Seed.no_call) [] [1%nat] 1
                       {| Seed.calls := [];
                          Seed.at_ := {| Seed.drawn := 0;
                                         Seed.faked := 0 |} |}
  = (Seed.Raises,
     {| Seed.calls := [];
        Seed.at_ := {| Seed.drawn := 0; Seed.faked := 0 |} |}).
Proof.
  apply (orders_need_customers_and_products
           (Seed.answering Seed.no_call) [] [1%nat] 1).
  - lia.
  - left. reflexivity.
Defined.

Lemma successful_seeding_run_witness :
  exists cs ps os,
    Seed.calls (snd (Seed.main (Seed.answering Seed.no_call)))
    = [ Seed.Ping; Seed.DeleteMany "customers"; Seed.DeleteMany "products";
        Seed.DeleteMany "orders"; Seed.InsertCustomers cs;
        Seed.InsertProducts ps; Seed.InsertOrders os;
        Seed.CountDocuments "customers"; Seed.CountDocuments "products";
        Seed.CountDocuments "orders"; Seed.FindOne "customers";
        Seed.FindOne "products"; Seed.FindOne "orders"; Seed.Close ]
    /\ List.length os = 200%nat.
Proof.
  destruct (successful_seeding_run (Seed.answering Seed.no_call))
    as (cs & ps & os & H1 & _ & _ & H2 & _).
  - vm_compute. reflexivity.
  - exists cs, ps, os. split; [exact H1|exact H2].
Defined.

Lemma seed_failure_never_swallowed_witness :
  fst (Seed.main (Seed.answering Seed.is_count)) = Seed.Raises.
Proof.
  apply (seed_failure_never_swallowed (Seed.answering Seed.is_count)
                                      (Seed.CountDocuments "customers")).
  - vm_compute. do 7 right. left. reflexivity.
  - reflexivity.
Defined.
